(** * quiz_webhook: the webhook of [server.js], embedded and verified

    The development follows [src/server.js]:
    - JavaScript strings are sequences of UTF-16 code units ([jsstring]);
    - every regular expression literal of the source is a term of [regex],
      run by a backtracking matcher with the priorities of ECMAScript
      (greedy and lazy quantifiers, ordered alternation, captures);
    - buffers are sequences of octets, numbers are binary64 floats
      ([spec_float] at precision 53), parsed JSON is a tree of [jsval];
    - the background job threads an explicit state (temporary files,
      clock, script fetches, base64 decodings). *)

From Stdlib Require Import String Ascii Bool Arith NArith ZArith QArith Lia.
From Stdlib Require Import SpecFloat List.
Import ListNotations.
Close Scope Q_scope.

(* ===================================================================== *)
(** * 1. JavaScript strings                                               *)
(* ===================================================================== *)

(** A string is the list of its UTF-16 code units. *)
Definition char := N.
Definition jsstring := list char.

(** String literals of the source that are plain ASCII. *)
Definition lit (s : string) : jsstring :=
  map N_of_ascii (list_ascii_of_string s).

Definition ch (a : ascii) : char := N_of_ascii a.

(** The quotation marks, which a string literal of this file cannot hold. *)
Definition DQUOTE : char := 34%N.
Definition SQUOTE : char := 39%N.
Definition BACKTICK : char := 96%N.

Definition char_eqb (a b : char) : bool := N.eqb a b.

Fixpoint str_eqb (a b : jsstring) : bool :=
  match a, b with
  | [], [] => true
  | x :: a', y :: b' => char_eqb x y && str_eqb a' b'
  | _, _ => false
  end.

Definition in_range (lo hi c : char) : bool := N.leb lo c && N.leb c hi.
Arguments in_range (lo hi c)%_N.

Definition is_upper (c : char) : bool := in_range 65 90 c.
Definition is_lower (c : char) : bool := in_range 97 122 c.
Definition is_alpha (c : char) : bool := is_upper c || is_lower c.
(** [\d] *)
Definition is_digit (c : char) : bool := in_range 48 57 c.

(** [\s]: WhiteSpace and LineTerminator of ECMAScript; [String.prototype.trim]
    strips the same set. *)
Definition is_space (c : char) : bool :=
  (in_range 9 13 c || (c =? 32) || (c =? 160) || (c =? 5760)
   || in_range 8192 8202 c || (c =? 8232) || (c =? 8233) || (c =? 8239)
   || (c =? 8287) || (c =? 12288) || (c =? 65279))%N.

(** ASCII case folding.  Under the [i] flag (without [u]) a code unit is
    compared after [toUpperCase], except that a code unit of 128 or more is
    never folded onto an ASCII one: for the ASCII patterns of the source the
    flag therefore only identifies [a-z] with [A-Z]. *)
Definition ascii_upper (c : char) : char := if is_lower c then (c - 32)%N else c.
Definition ascii_lower (c : char) : char := if is_upper c then (c + 32)%N else c.

(** [String.prototype.toLowerCase], on the ASCII letters.  The other code
    units are left as they are: their Unicode lower-case forms are never one
    of the ASCII letters that the source looks for in the result
    ([includes('value')]). *)
Definition toLowerCase (s : jsstring) : jsstring := map ascii_lower s.

Fixpoint startsWith (p s : jsstring) : bool :=
  match p, s with
  | [], _ => true
  | x :: p', y :: s' => char_eqb x y && startsWith p' s'
  | _ :: _, [] => false
  end.

(** [s.indexOf(p)], where [i] is the index at which [s] starts. *)
Fixpoint indexOf (p s : jsstring) (i : nat) : option nat :=
  if startsWith p s then Some i
  else match s with
       | [] => None
       | _ :: s' => indexOf p s' (S i)
       end.

(** [s.includes(p)] *)
Definition includes (p s : jsstring) : bool :=
  match indexOf p s 0 with Some _ => true | None => false end.

(** [s.replace(p, r)] with a string pattern: the first occurrence only. *)
Definition replace_first (p r s : jsstring) : jsstring :=
  match indexOf p s 0 with
  | Some i => firstn i s ++ r ++ skipn (i + length p) s
  | None => s
  end.

Fixpoint drop_while (p : char -> bool) (s : jsstring) : jsstring :=
  match s with
  | c :: s' => if p c then drop_while p s' else s
  | [] => []
  end.

(** [s.trim()] *)
Definition trim (s : jsstring) : jsstring :=
  rev (drop_while is_space (rev (drop_while is_space s))).

(** [a.join(sep)] *)
Fixpoint join (sep : jsstring) (l : list jsstring) : jsstring :=
  match l with
  | [] => []
  | [x] => x
  | x :: l' => x ++ sep ++ join sep l'
  end.

(** [s.split(sep)] with a one-code-unit string separator. *)
Fixpoint split_char (sep : char) (s : jsstring) : list jsstring :=
  match s with
  | [] => [[]]
  | c :: s' =>
      if char_eqb c sep then [] :: split_char sep s'
      else match split_char sep s' with
           | x :: l => (c :: x) :: l
           | [] => [[c]]
           end
  end.

(* ===================================================================== *)
(** * 2. Regular expressions                                              *)
(* ===================================================================== *)

(** The fragment of ECMAScript patterns that the source uses. *)
Inductive regex : Type :=
| Eps                                   (* the empty pattern *)
| Chr (p : char -> bool)                (* a character or a class *)
| Seq (r1 r2 : regex)
| Alt (r1 r2 : regex)                   (* r1|r2, r1 tried first *)
| Quant (greedy : bool) (min : nat) (max : option nat) (r : regex)
| Group (i : nat) (r : regex)           (* i-th capturing group *)
| Bol                                   (* ^ (no m flag) *)
| Eol.                                  (* $ (no m flag) *)

(** State of a match in progress: the index reached, the input that is
    left, and the captures made so far (most recent first). *)
Record mstate := MState {
  m_pos : nat;
  m_rest : jsstring;
  m_caps : list (nat * jsstring) }.

Section Matcher.
Variable A : Type.

Definition cont := mstate -> option A.
Definition matcher := mstate -> cont -> option A.

(** The [min] iterations that a quantifier must make. *)
Fixpoint iter_min (step : matcher) (n : nat) (st : mstate) (k : cont) : option A :=
  match n with
  | O => k st
  | S n' => step st (fun st1 => iter_min step n' st1 k)
  end.

(** The iterations it may make after those, at most [lim] of them; an
    iteration that consumes nothing is rejected, as RepeatMatcher does. *)
Fixpoint iter_opt (step : matcher) (greedy : bool) (lim : nat)
         (st : mstate) (k : cont) : option A :=
  match lim with
  | O => k st
  | S lim' =>
      let again (_ : unit) :=
        step st (fun st1 =>
          if Nat.ltb (length (m_rest st1)) (length (m_rest st))
          then iter_opt step greedy lim' st1 k else None) in
      if greedy then
        match again tt with Some x => Some x | None => k st end
      else
        match k st with Some x => Some x | None => again tt end
  end.

Fixpoint rmatch (r : regex) (st : mstate) (k : cont) {struct r} : option A :=
  match r with
  | Eps => k st
  | Chr p =>
      match m_rest st with
      | c :: t => if p c then k (MState (S (m_pos st)) t (m_caps st)) else None
      | [] => None
      end
  | Seq r1 r2 => rmatch r1 st (fun st1 => rmatch r2 st1 k)
  | Alt r1 r2 =>
      match rmatch r1 st k with
      | Some x => Some x
      | None => rmatch r2 st k
      end
  | Quant g mn mx r1 =>
      iter_min (rmatch r1) mn st (fun st1 =>
        let lim := match mx with
                   | Some m => m - mn
                   | None => length (m_rest st1)
                   end in
        iter_opt (rmatch r1) g lim st1 k)
  | Group i r1 =>
      rmatch r1 st (fun st1 =>
        k (MState (m_pos st1) (m_rest st1)
             ((i, firstn (m_pos st1 - m_pos st) (m_rest st)) :: m_caps st1)))
  | Bol => if Nat.eqb (m_pos st) 0 then k st else None
  | Eol => match m_rest st with [] => k st | _ :: _ => None end
  end.
End Matcher.

Arguments iter_min {A} step n st k.
Arguments iter_opt {A} step greedy lim st k.
Arguments rmatch {A} r st k.

(** ** What a pattern can match

    [run r a b]: from the state [a], the pattern [r] can reach the state
    [b].  This leaves out the order in which the matcher tries the ways to
    match; whatever the matcher returns is one of them ([rmatch_sound]
    below). *)
Fixpoint iter (R : mstate -> mstate -> Prop) (n : nat) (a b : mstate) : Prop :=
  match n with
  | O => a = b
  | S n' => exists m, R a m /\ iter R n' m b
  end.

Fixpoint run (r : regex) (a b : mstate) : Prop :=
  match r with
  | Eps => a = b
  | Chr p =>
      exists c t, m_rest a = c :: t /\ p c = true
                  /\ b = MState (S (m_pos a)) t (m_caps a)
  | Seq r1 r2 => exists m, run r1 a m /\ run r2 m b
  | Alt r1 r2 => run r1 a b \/ run r2 a b
  | Quant _ mn mx r1 =>
      exists n, iter (run r1) n a b /\ mn <= n
                /\ match mx with Some m => n <= Nat.max mn m | None => True end
  | Group i r1 =>
      exists m, run r1 a m
                /\ b = MState (m_pos m) (m_rest m)
                         ((i, firstn (m_pos m - m_pos a) (m_rest a)) :: m_caps m)
  | Bol => m_pos a = 0 /\ a = b
  | Eol => m_rest a = [] /\ a = b
  end.

(** Whether a pattern can match the empty string, and the characters that
    a match which is not empty can start with. *)
Fixpoint nullable (r : regex) : bool :=
  match r with
  | Eps | Bol | Eol => true
  | Chr _ => false
  | Seq r1 r2 => nullable r1 && nullable r2
  | Alt r1 r2 => nullable r1 || nullable r2
  | Quant _ mn _ r1 => Nat.eqb mn 0 || nullable r1
  | Group _ r1 => nullable r1
  end.

Fixpoint first_set (r : regex) (c : char) : bool :=
  match r with
  | Eps | Bol | Eol => false
  | Chr p => p c
  | Seq r1 r2 => first_set r1 c || (nullable r1 && first_set r2 c)
  | Alt r1 r2 => first_set r1 c || first_set r2 c
  | Quant _ _ _ r1 => first_set r1 c
  | Group _ r1 => first_set r1 c
  end.

(** What [exec] and [match] return: [m[0]], the captures, and where the
    match starts and ends. *)
Record mresult := MResult {
  r_index : nat;
  r_text : jsstring;
  r_caps : list (nat * jsstring);
  r_end : nat;
  r_after : jsstring }.

(** [m[i]] for a capturing group; [None] is [undefined]. *)
Fixpoint lookup_cap (i : nat) (l : list (nat * jsstring)) : option jsstring :=
  match l with
  | [] => None
  | (j, s) :: l' => if Nat.eqb i j then Some s else lookup_cap i l'
  end.

Definition r_group (i : nat) (m : mresult) : option jsstring := lookup_cap i (r_caps m).

(** A match that starts exactly at the index [pos], where [s] is the input
    from there on. *)
Definition match_at (r : regex) (pos : nat) (s : jsstring) : option mresult :=
  match rmatch r (MState pos s []) (fun st => Some st) with
  | Some st => Some (MResult pos (firstn (m_pos st - pos) s) (m_caps st) (m_pos st) (m_rest st))
  | None => None
  end.

(** The leftmost match at or after [pos]: [re.exec] and [s.match(re)]. *)
Fixpoint search_from (r : regex) (pos : nat) (s : jsstring) : option mresult :=
  match match_at r pos s with
  | Some m => Some m
  | None => match s with
            | [] => None
            | _ :: s' => search_from r (S pos) s'
            end
  end.

Definition exec (r : regex) (s : jsstring) : option mresult := search_from r 0 s.

(** [re.test(s)] *)
Definition test (r : regex) (s : jsstring) : bool :=
  match exec r s with Some _ => true | None => false end.

(** All the matches of a [g] pattern, left to right, each search starting
    where the last match ended (one code unit further after an empty match):
    [s.match(re)] with [g], and the loop [while ((m = re.exec(s)) !== null)]
    for patterns that cannot match the empty string. *)
Fixpoint matches_from (fuel : nat) (r : regex) (pos : nat) (s : jsstring) : list mresult :=
  match fuel with
  | O => []
  | S fuel' =>
      match search_from r pos s with
      | None => []
      | Some m =>
          m :: (if Nat.eqb (r_end m) (r_index m)
                then match r_after m with
                     | [] => []
                     | _ :: t => matches_from fuel' r (S (r_end m)) t
                     end
                else matches_from fuel' r (r_end m) (r_after m))
      end
  end.

Definition match_all (r : regex) (s : jsstring) : list mresult :=
  matches_from (S (length s)) r 0 s.

(** [s.replace(re, by)] with a [g] pattern and a constant replacement. *)
Fixpoint replace_from (fuel : nat) (r : regex) (by_ : jsstring) (pos : nat) (s : jsstring) : jsstring :=
  match fuel with
  | O => s
  | S fuel' =>
      match search_from r pos s with
      | None => s
      | Some m =>
          firstn (r_index m - pos) s ++ by_ ++
          (if Nat.eqb (r_end m) (r_index m)
           then match r_after m with
                | [] => []
                | c :: t => c :: replace_from fuel' r by_ (S (r_end m)) t
                end
           else replace_from fuel' r by_ (r_end m) (r_after m))
      end
  end.

Definition replace_all (r : regex) (by_ : jsstring) (s : jsstring) : jsstring :=
  replace_from (S (length s)) r by_ 0 s.

(** [s.split(re)] (SplitMatcher): [p] is where the current piece starts,
    [piece] holds (reversed) the code units of the piece passed so far, and
    the pattern is tried at every index [q]; a match that ends at [p] is
    ignored. *)
Fixpoint split_from (fuel : nat) (r : regex) (p q : nat) (piece : jsstring) (s : jsstring) : list jsstring :=
  match fuel with
  | O => [rev piece ++ s]
  | S fuel' =>
      match s with
      | [] => [rev piece]
      | c :: s' =>
          match match_at r q s with
          | Some m =>
              if Nat.eqb (r_end m) p
              then split_from fuel' r p (S q) (c :: piece) s'
              else rev piece :: split_from fuel' r (r_end m) (r_end m) [] (r_after m)
          | None => split_from fuel' r p (S q) (c :: piece) s'
          end
      end
  end.

Definition split (r : regex) (s : jsstring) : list jsstring :=
  match s with
  | [] => match match_at r 0 [] with Some _ => [] | None => [[]] end
  | _ => split_from (S (length s)) r 0 0 [] s
  end.

(** Pattern atoms. *)
Definition c_is (a : ascii) : regex := Chr (char_eqb (ch a)).
(** One letter under the [i] flag. *)
Definition c_ci (a : ascii) : regex := Chr (fun c => char_eqb (ascii_upper c) (ascii_upper (ch a))).
Definition c_code (n : char) : regex := Chr (char_eqb n).

Fixpoint seq_of (l : list regex) : regex :=
  match l with
  | [] => Eps
  | [r] => r
  | r :: l' => Seq r (seq_of l')
  end.

(** A literal run of characters, and the same under the [i] flag. *)
Definition r_lit (s : string) : regex := seq_of (map c_is (list_ascii_of_string s)).
Definition r_lit_ci (s : string) : regex := seq_of (map c_ci (list_ascii_of_string s)).

Definition star (r : regex) : regex := Quant true 0 None r.
Definition plus (r : regex) : regex := Quant true 1 None r.
Definition opt (r : regex) : regex := Quant true 0 (Some 1) r.
Definition lazy_star (r : regex) : regex := Quant false 0 None r.
Definition at_least (n : nat) (r : regex) : regex := Quant true n None r.
Definition between (n m : nat) (r : regex) : regex := Quant true n (Some m) r.

(** [[\s\S]] *)
Definition any_char : char -> bool := fun c => is_space c || negb (is_space c).

(* ===================================================================== *)
(** * 3. Numbers                                                          *)
(* ===================================================================== *)

(** A JavaScript Number is a binary64 float. *)
Definition number := spec_float.
Definition prec64 : Z := 53.
Definition emax64 : Z := 1024.

Definition NaN : number := S754_nan.
Definition num_zero : number := S754_zero false.

(** [x + y] *)
Definition num_add (x y : number) : number := SFadd prec64 emax64 x y.
(** [x === y] on numbers: a NaN differs from everything, the zeros are equal. *)
Definition num_eqb (x y : number) : bool := SFeqb x y.
(** [Number.isNaN(x)] *)
Definition isNaN (x : number) : bool :=
  match x with S754_nan => true | _ => false end.

(** The Number nearest to [(-1)^neg * m * 10^e] (ties to even): the value
    of a decimal literal. *)
Definition decimal_to_number (neg : bool) (m : Z) (e : Z) : number :=
  match m with
  | Zpos p =>
      match e with
      | Zneg k =>
          let '(q, e', l) := SFdiv_core_binary prec64 emax64 (Zpos p) 0 (Z.pow 10 (Zpos k)) 0 in
          binary_round_aux prec64 emax64 neg q e' l
      | _ => binary_normalize prec64 emax64 (cond_Zopp neg (Zpos p * Z.pow 10 e)) 0 neg
      end
  | _ => S754_zero neg
  end.

(** The exact value of a finite Number. *)
Definition num_to_Q (x : number) : option Q :=
  match x with
  | S754_zero _ => Some (0 # 1)%Q
  | S754_finite s m e =>
      Some (Qred (match e with
                  | Zneg k => Qmake (cond_Zopp s (Zpos m)) (Pos.pow 2 k)
                  | _ => Qmake (cond_Zopp s (Zpos m) * Z.pow 2 e) 1
                  end))
  | _ => None
  end.

Definition digit_val (c : char) : Z := Z.of_N (c - 48).

(** The value of a run of decimal digits. *)
Definition digits_val (s : jsstring) : Z :=
  fold_left (fun acc c => (10 * acc + digit_val c)%Z) s 0%Z.

(** The longest prefix of [s] made of characters in [p], and what follows. *)
Fixpoint span (p : char -> bool) (s : jsstring) : jsstring * jsstring :=
  match s with
  | c :: s' => if p c then let (a, b) := span p s' in (c :: a, b) else ([], s)
  | [] => ([], [])
  end.

(** An exponent part [e], [e+] or [e-] followed by digits, when [s] starts
    with one; 0 otherwise. *)
Definition exponent_part (s : jsstring) : Z * jsstring :=
  match s with
  | c :: t =>
      if char_eqb c (ch "e") || char_eqb c (ch "E") then
        let '(neg, t') :=
          match t with
          | d :: u => if char_eqb d (ch "-") then (true, u)
                      else if char_eqb d (ch "+") then (false, u) else (false, t)
          | [] => (false, t)
          end in
        match span is_digit t' with
        | ([], _) => (0%Z, s)
        | (ds, rest) => (cond_Zopp neg (digits_val ds), rest)
        end
      else (0%Z, s)
  | [] => (0%Z, s)
  end.

(** [parseFloat(s)]: leading white space is skipped, the longest prefix that
    is a decimal literal is read, [NaN] when there is none. *)
Definition parseFloat (s : jsstring) : number :=
  let s0 := drop_while is_space s in
  let '(neg, s1) :=
    match s0 with
    | c :: t => if char_eqb c (ch "-") then (true, t)
                else if char_eqb c (ch "+") then (false, t) else (false, s0)
    | [] => (false, s0)
    end in
  if startsWith (lit "Infinity") s1 then S754_infinity neg
  else
    let '(ip, s2) := span is_digit s1 in
    let '(fp, s3) :=
      match s2 with
      | c :: t => if char_eqb c (ch ".") then span is_digit t else ([], s2)
      | [] => ([], s2)
      end in
    match ip ++ fp with
    | [] => NaN
    | ds => decimal_to_number neg (digits_val ds)
              (fst (exponent_part s3) - Z.of_nat (length fp))
    end.

(** [Math.round(x)]: the integer nearest to [x], the larger one at a tie;
    [-0] for [x] in [[-0.5, 0)]. *)
Definition Math_round (x : number) : number :=
  match x with
  | S754_finite s m (Zneg k) =>
      let n := Z.div (2 * cond_Zopp s (Zpos m) + Z.pow 2 (Zpos k)) (Z.pow 2 (Zpos k + 1)) in
      binary_normalize prec64 emax64 n 0 s
  | _ => x
  end.

(** The decimal digits of a natural number. *)
Fixpoint digits_of (fuel : nat) (n : Z) (acc : jsstring) : jsstring :=
  match fuel with
  | O => acc
  | S fuel' =>
      let acc' := (Z.to_N (n mod 10) + 48)%N :: acc in
      if (n <? 10)%Z then acc' else digits_of fuel' (n / 10)%Z acc'
  end.

Definition Z_to_string (n : Z) : jsstring :=
  digits_of (S (Z.to_nat (Z.log2 n))) n [].

Section NumberFormat.
(** [Number::toString], which the source reaches only through [toFixed] on
    a value of magnitude 1e21 or more and through the coercion of a parsed
    JSON number to a string. *)
Variable Number_toString : number -> jsstring.

(** [x.toFixed(6)] *)
Definition toFixed6 (x : number) : jsstring :=
  match x with
  | S754_zero _ => lit "0.000000"
  | S754_finite s m e =>
      let big := match e with
                 | Zneg k => (Z.pow 10 21 * Z.pow 2 (Zpos k) <=? Zpos m)%Z
                 | _ => (Z.pow 10 21 <=? Zpos m * Z.pow 2 e)%Z
                 end in
      if big then Number_toString x
      else
        (* n / 10^6 - |x| is as close to zero as possible, the larger n at a tie *)
        let n := match e with
                 | Zneg k => Z.div (2 * Zpos m * 1000000 + Z.pow 2 (Zpos k)) (Z.pow 2 (Zpos k + 1))
                 | _ => Zpos m * Z.pow 2 e * 1000000
                 end%Z in
        let ds := Z_to_string n in
        let ds := repeat (ch "0") (7 - length ds) ++ ds in
        let k := length ds in
        (if s then lit "-" else []) ++ firstn (k - 6) ds ++ lit "." ++ skipn (k - 6) ds
  | _ => Number_toString x
  end.

(** [(Math.round(sum) === sum) ? Math.round(sum) : parseFloat(sum.toFixed(6))] *)
Definition format_answer (sum : number) : number :=
  if num_eqb (Math_round sum) sum then Math_round sum
  else parseFloat (toFixed6 sum).
End NumberFormat.

(* ===================================================================== *)
(** * 4. Buffers                                                          *)
(* ===================================================================== *)

(** A Buffer is the list of its octets. *)
Definition octet := N.
Definition buffer := list octet.

(** The value of a character of the base64 alphabet (the URL-safe [-] and
    [_] are accepted too). *)
Definition unbase64 (c : char) : option N :=
  if is_upper c then Some (c - 65)%N
  else if is_lower c then Some (c - 71)%N
  else if is_digit c then Some (c + 4)%N
  else if (c =? 43)%N || (c =? 45)%N then Some 62%N
  else if (c =? 47)%N || (c =? 95)%N then Some 63%N
  else None.

(** The sextets that Node's decoder reads: a character outside the alphabet
    is skipped and the first [=] ends the input. *)
Fixpoint sextets (s : jsstring) : list N :=
  match s with
  | [] => []
  | c :: s' =>
      match unbase64 c with
      | Some v => v :: sextets s'
      | None => if (c =? 61)%N then [] else sextets s'
      end
  end.

Fixpoint octets_of_sextets (fuel : nat) (l : list N) : buffer :=
  match fuel with
  | O => []
  | S fuel' =>
      match l with
      | a :: b :: c :: d :: l' =>
          (a * 4 + b / 16)%N :: ((b mod 16) * 16 + c / 4)%N :: ((c mod 4) * 64 + d)%N
            :: octets_of_sextets fuel' l'
      | [a; b; c] => [(a * 4 + b / 16)%N; ((b mod 16) * 16 + c / 4)%N]
      | [a; b] => [(a * 4 + b / 16)%N]
      | _ => []
      end
  end.

(** [Buffer.from(s, 'base64')] as Node decodes it; it never throws. *)
Definition node_base64 (s : jsstring) : buffer :=
  let l := sextets s in octets_of_sextets (length l) l.

(** UTF-8 decoding with replacement (the decoder of the Encoding standard):
    [need] continuation octets are still expected for the code point [cp],
    the next of them within [lo..hi]. *)
Record utf8_state := Utf8 { u_need : nat; u_cp : N; u_lo : N; u_hi : N }.

Definition utf8_start : utf8_state := Utf8 0 0 128 191.
Definition REPLACEMENT : N := 65533%N.

(** A first octet: the code points emitted and the state reached. *)
Definition utf8_lead (b : octet) : list N * utf8_state :=
  if (b <=? 127)%N then ([b], utf8_start)
  else if in_range 194 223 b then ([], Utf8 1 (N.land b 31) 128 191)
  else if in_range 224 239 b then
    ([], Utf8 2 (N.land b 15) (if (b =? 224)%N then 160 else 128)%N
                               (if (b =? 237)%N then 159 else 191)%N)
  else if in_range 240 244 b then
    ([], Utf8 3 (N.land b 7) (if (b =? 240)%N then 144 else 128)%N
                              (if (b =? 244)%N then 143 else 191)%N)
  else ([REPLACEMENT], utf8_start).

Definition utf8_step (st : utf8_state) (b : octet) : list N * utf8_state :=
  match u_need st with
  | O => utf8_lead b
  | S n =>
      if in_range (u_lo st) (u_hi st) b then
        let cp := (u_cp st * 64 + N.land b 63)%N in
        match n with
        | O => ([cp], utf8_start)
        | S _ => ([], Utf8 n cp 128 191)
        end
      else
        (* the sequence is cut short: replacement, and [b] is read again *)
        let (out, st') := utf8_lead b in (REPLACEMENT :: out, st')
  end.

Fixpoint utf8_code_points (st : utf8_state) (bs : buffer) : list N :=
  match bs with
  | [] => match u_need st with O => [] | S _ => [REPLACEMENT] end
  | b :: bs' => let (out, st') := utf8_step st b in out ++ utf8_code_points st' bs'
  end.

(** The UTF-16 code units of a code point. *)
Definition utf16_units (cp : N) : jsstring :=
  if (cp <? 65536)%N then [cp]
  else [(55296 + (cp - 65536) / 1024)%N; (56320 + (cp - 65536) mod 1024)%N].

(** [buf.toString('utf8')], also [buf.toString()] *)
Definition buf_toString (b : buffer) : jsstring :=
  flat_map utf16_units (utf8_code_points utf8_start b).

(** [buf.slice(0,4).toString() === '%PDF'] *)
Definition is_pdf (b : buffer) : bool :=
  str_eqb (buf_toString (firstn 4 b)) (lit "%PDF").

(* ===================================================================== *)
(** * 5. Values and JSON.parse                                            *)
(* ===================================================================== *)

(** The JavaScript values that the program handles: [undefined], and what
    [JSON.parse] and [express.json()] build.  The members of an object are
    kept in source order. *)
Unset Elimination Schemes.
Inductive jsval : Type :=
| JUndefined
| JNull
| JBool (b : bool)
| JNum (x : number)
| JStr (s : jsstring)
| JArr (l : list jsval)
| JObj (l : list (jsstring * jsval)).
Set Elimination Schemes.

(** ToBoolean, the test made by [!v], [v && ...] and [if (v)]. *)
Definition truthy (v : jsval) : bool :=
  match v with
  | JUndefined | JNull => false
  | JBool b => b
  | JNum x => match x with S754_zero _ | S754_nan => false | _ => true end
  | JStr s => match s with [] => false | _ => true end
  | JArr _ | JObj _ => true
  end.

(** [typeof v === 'object'] *)
Definition typeof_object (v : jsval) : bool :=
  match v with
  | JNull | JArr _ | JObj _ => true
  | _ => false
  end.

(** [typeof v === 'string'] *)
Definition typeof_string (v : jsval) : bool :=
  match v with JStr _ => true | _ => false end.

(** The last member named [k]: a later duplicate of a key overwrites the
    earlier one. *)
Fixpoint last_member (k : jsstring) (l : list (jsstring * jsval)) : option jsval :=
  match l with
  | [] => None
  | (k', v) :: l' =>
      match last_member k l' with
      | Some v' => Some v'
      | None => if str_eqb k k' then Some v else None
      end
  end.

(** [v.k] for the keys the source reads ([email], [secret], [url], [file],
    [submit_url]), none of which an array, a string or a prototype defines;
    reading a property of [undefined] or [null] throws, which the source
    never does (it tests the value first). *)
Definition get_prop (k : jsstring) (v : jsval) : jsval :=
  match v with
  | JObj l => match last_member k l with Some x => x | None => JUndefined end
  | _ => JUndefined
  end.

(** JSON white space. *)
Definition is_json_ws (c : char) : bool :=
  ((c =? 9) || (c =? 10) || (c =? 13) || (c =? 32))%N.

Definition skip_ws (s : jsstring) : jsstring := drop_while is_json_ws s.

Definition hex_val (c : char) : option N :=
  if is_digit c then Some (c - 48)%N
  else if in_range 97 102 c then Some (c - 87)%N
  else if in_range 65 70 c then Some (c - 55)%N
  else None.

(** The characters of a JSON string, read after its opening quotation mark
    up to the closing one. *)
Fixpoint json_string (s : jsstring) (acc : jsstring) : option (jsstring * jsstring) :=
  match s with
  | [] => None
  | c :: t =>
      if char_eqb c DQUOTE then Some (rev acc, t)
      else if char_eqb c (ch "\") then
        match t with
        | e :: u =>
            if char_eqb e DQUOTE then json_string u (DQUOTE :: acc)
            else if char_eqb e (ch "\") then json_string u (ch "\" :: acc)
            else if char_eqb e (ch "/") then json_string u (ch "/" :: acc)
            else if char_eqb e (ch "b") then json_string u (8%N :: acc)
            else if char_eqb e (ch "f") then json_string u (12%N :: acc)
            else if char_eqb e (ch "n") then json_string u (10%N :: acc)
            else if char_eqb e (ch "r") then json_string u (13%N :: acc)
            else if char_eqb e (ch "t") then json_string u (9%N :: acc)
            else if char_eqb e (ch "u") then
              match u with
              | h1 :: h2 :: h3 :: h4 :: v =>
                  match hex_val h1, hex_val h2, hex_val h3, hex_val h4 with
                  | Some a, Some b, Some c', Some d =>
                      json_string v ((((a * 16 + b) * 16 + c') * 16 + d)%N :: acc)
                  | _, _, _, _ => None
                  end
              | _ => None
              end
            else None
        | [] => None
        end
      else if (c <? 32)%N then None
      else json_string t (c :: acc)
  end.

(** A JSON number: an optional minus, an integer part without a leading
    zero (unless it is 0 alone), an optional fraction of one digit or more,
    an optional exponent of one digit or more. *)
Definition json_number (s : jsstring) : option (number * jsstring) :=
  let '(neg, s1) :=
    match s with
    | c :: t => if char_eqb c (ch "-") then (true, t) else (false, s)
    | [] => (false, s)
    end in
  let '(ip, s2) := span is_digit s1 in
  match ip with
  | [] => None
  | d :: ds =>
      if char_eqb d (ch "0") && negb (match ds with [] => true | _ => false end) then None
      else
        let frac :=
          match s2 with
          | c :: t =>
              if char_eqb c (ch ".") then
                match span is_digit t with
                | ([], _) => None
                | (fp, s3) => Some (fp, s3)
                end
              else Some ([], s2)
          | [] => Some ([], s2)
          end in
        match frac with
        | None => None
        | Some (fp, s3) =>
            let ex :=
              match s3 with
              | c :: t =>
                  if char_eqb c (ch "e") || char_eqb c (ch "E") then
                    match exponent_part s3 with
                    | (e, s4) => if Nat.eqb (length s4) (length s3) then None else Some (e, s4)
                    end
                  else Some (0%Z, s3)
              | [] => Some (0%Z, s3)
              end in
            match ex with
            | None => None
            | Some (e, s4) =>
                Some (decimal_to_number neg (digits_val (ip ++ fp)) (e - Z.of_nat (length fp)), s4)
            end
        end
  end.

(** A JSON value at the head of [s], and the input after it. *)
Fixpoint json_value (fuel : nat) (s : jsstring) {struct fuel} : option (jsval * jsstring) :=
  match fuel with
  | O => None
  | S f =>
      match skip_ws s with
      | [] => None
      | c :: t =>
          if char_eqb c (ch "{") then json_members f (skip_ws t) [] true
          else if char_eqb c (ch "[") then json_items f (skip_ws t) [] true
          else if char_eqb c DQUOTE then
            match json_string t [] with
            | Some (str, rest) => Some (JStr str, rest)
            | None => None
            end
          else if startsWith (lit "true") (c :: t) then Some (JBool true, skipn 4 (c :: t))
          else if startsWith (lit "false") (c :: t) then Some (JBool false, skipn 5 (c :: t))
          else if startsWith (lit "null") (c :: t) then Some (JNull, skipn 4 (c :: t))
          else
            match json_number (c :: t) with
            | Some (x, rest) => Some (JNum x, rest)
            | None => None
            end
      end
  end
with json_items (fuel : nat) (s : jsstring) (acc : list jsval) (first : bool)
       {struct fuel} : option (jsval * jsstring) :=
  match fuel with
  | O => None
  | S f =>
      match s with
      | c :: t =>
          if first && char_eqb c (ch "]") then Some (JArr [], t)
          else
            match json_value f s with
            | Some (v, s1) =>
                match skip_ws s1 with
                | d :: u =>
                    if char_eqb d (ch ",") then json_items f (skip_ws u) (v :: acc) false
                    else if char_eqb d (ch "]") then Some (JArr (rev (v :: acc)), u)
                    else None
                | [] => None
                end
            | None => None
            end
      | [] => None
      end
  end
with json_members (fuel : nat) (s : jsstring) (acc : list (jsstring * jsval)) (first : bool)
       {struct fuel} : option (jsval * jsstring) :=
  match fuel with
  | O => None
  | S f =>
      match s with
      | c :: t =>
          if first && char_eqb c (ch "}") then Some (JObj [], t)
          else if char_eqb c DQUOTE then
            match json_string t [] with
            | Some (key, s1) =>
                match skip_ws s1 with
                | d :: u =>
                    if char_eqb d (ch ":") then
                      match json_value f u with
                      | Some (v, s2) =>
                          match skip_ws s2 with
                          | e :: w =>
                              if char_eqb e (ch ",") then
                                json_members f (skip_ws w) ((key, v) :: acc) false
                              else if char_eqb e (ch "}") then
                                Some (JObj (rev ((key, v) :: acc)), w)
                              else None
                          | [] => None
                          end
                      | None => None
                      end
                    else None
                | [] => None
                end
            | None => None
            end
          else None
      | [] => None
      end
  end.

(** [JSON.parse(s)]; [None] when it throws a SyntaxError. *)
Definition JSON_parse (s : jsstring) : option jsval :=
  match json_value (2 * length s + 2) s with
  | Some (v, rest) => match skip_ws rest with [] => Some v | _ :: _ => None end
  | None => None
  end.

(** UTF-8 encoding of a string, as [fs.writeFileSync(file, text, 'utf8')]
    stores it (a lone surrogate becomes U+FFFD). *)
Definition utf8_of_code_point (cp : N) : buffer :=
  if (cp <? 128)%N then [cp]
  else if (cp <? 2048)%N then [192 + cp / 64; 128 + cp mod 64]%N
  else if (cp <? 65536)%N then
    [224 + cp / 4096; 128 + (cp / 64) mod 64; 128 + cp mod 64]%N
  else [240 + cp / 262144; 128 + (cp / 4096) mod 64;
        128 + (cp / 64) mod 64; 128 + cp mod 64]%N.

Fixpoint utf8_encode (s : jsstring) : buffer :=
  match s with
  | [] => []
  | c :: t =>
      if in_range 55296 56319 c then
        match t with
        | d :: u =>
            if in_range 56320 57343 d
            then utf8_of_code_point (65536 + (c - 55296) * 1024 + (d - 56320))%N ++ utf8_encode u
            else utf8_of_code_point REPLACEMENT ++ utf8_encode t
        | [] => utf8_of_code_point REPLACEMENT
        end
      else if in_range 56320 57343 c then utf8_of_code_point REPLACEMENT ++ utf8_encode t
      else utf8_of_code_point c ++ utf8_encode t
  end.

(* ===================================================================== *)
(** * 6. The helpers of server.js                                         *)
(* ===================================================================== *)

(** [function validatePayload(body)] *)
Definition validatePayload (body : jsval) : bool :=
  if negb (truthy body) || negb (typeof_object body) then false
  else if negb (truthy (get_prop (lit "email") body))
          || negb (truthy (get_prop (lit "secret") body))
          || negb (truthy (get_prop (lit "url") body)) then false
  else true.

(** [[A-Za-z0-9+/=]] *)
Definition is_b64_char (c : char) : bool :=
  is_alpha c || is_digit c || char_eqb c (ch "+") || char_eqb c (ch "/") || char_eqb c (ch "=").

(** [[A-Za-z0-9+/=\r\n]] *)
Definition is_b64_or_newline (c : char) : bool :=
  is_b64_char c || char_eqb c 13%N || char_eqb c 10%N.

(** [/\s+/g] *)
Definition whitespace_re : regex := plus (Chr is_space).

(** [x.replace(/\s+/g, '')] *)
Definition strip_whitespace (s : jsstring) : jsstring := replace_all whitespace_re [] s.

(** [/data:application\/pdf;base64,([A-Za-z0-9+/=\r\n]+)/i] *)
Definition data_pdf_re : regex :=
  Seq (r_lit_ci "data:application/pdf;base64,") (Group 1 (plus (Chr is_b64_or_newline))).

(** [function findDataPdfInText(txt)]; [None] is [null]. *)
Definition findDataPdfInText (txt : jsstring) : option jsstring :=
  match exec data_pdf_re txt with
  | Some m =>
      match r_group 1 m with
      | Some ((_ :: _) as g) => Some (strip_whitespace g)
      | _ => None
      end
  | None => None
  end.

(** [/([A-Za-z0-9+/=\r\n]{200,})/g] *)
Definition long_blob_re : regex := Group 1 (at_least 200 (Chr is_b64_or_newline)).

(** [/^[A-Za-z0-9+/=]+$/] *)
Definition b64_only_re : regex := Seq Bol (Seq (plus (Chr is_b64_char)) Eol).

(** The loop of [findLongBase64Blob] over the successive matches. *)
Fixpoint first_long_candidate (minLen : nat) (ms : list mresult) : option jsstring :=
  match ms with
  | [] => None
  | m :: ms' =>
      let candidate := strip_whitespace (match r_group 1 m with Some g => g | None => [] end) in
      if Nat.leb minLen (length candidate) && test b64_only_re candidate
      then Some candidate
      else first_long_candidate minLen ms'
  end.

(** No data URI in the text: [findDataPdfInText] returns [null] or the
    empty string, both falsy. *)
Definition data_uri_absent (txt : jsstring) : bool :=
  match findDataPdfInText txt with
  | Some (_ :: _) => false
  | _ => true
  end.

(** [function findLongBase64Blob(txt, minLen = 200)] *)
Definition findLongBase64Blob (txt : jsstring) (minLen : nat) : option jsstring :=
  first_long_candidate minLen (match_all long_blob_re txt).

(** [/\{[\s\S]*\}/] *)
Definition json_block_re : regex :=
  Seq (c_is "{") (Seq (star (Chr any_char)) (c_is "}")).

(** [function extractJsonBlock(txt)] *)
Definition extractJsonBlock (txt : jsstring) : option jsval :=
  match exec json_block_re txt with
  | None => None
  | Some m => JSON_parse (r_text m)
  end.

(** [/\.pdf(\?|$)/i] *)
Definition pdf_link_re : regex :=
  Seq (r_lit_ci ".pdf") (Group 1 (Alt (c_is "?") Eol)).

(** The class of the pattern below: any character but white space, the
    apostrophe and the quotation mark. *)
Definition is_url_char (c : char) : bool :=
  negb (is_space c || char_eqb c SQUOTE || char_eqb c DQUOTE).

(** [/https?:\/\/[^\s'"]+\.pdf[^\s'"]*/i] *)
Definition pdf_url_re : regex :=
  seq_of [r_lit_ci "http"; opt (c_ci "s"); r_lit_ci "://"; plus (Chr is_url_char);
          r_lit_ci ".pdf"; star (Chr is_url_char)].

(** [/\.pdf/i] *)
Definition pdf_ext_re : regex := r_lit_ci ".pdf".

(** One quoted literal: the delimiter, as few characters as possible, the
    delimiter again. *)
Definition quoted (q : char) : regex :=
  Seq (c_code q) (Seq (lazy_star (Chr any_char)) (c_code q)).

(** [/atob\(\s*(`[\s\S]*?`|"[\s\S]*?"|'[\s\S]*?')\s*\)/g] *)
Definition atob_re : regex :=
  seq_of [r_lit "atob("; star (Chr is_space);
          Group 1 (Alt (quoted BACKTICK) (Alt (quoted DQUOTE) (quoted SQUOTE)));
          star (Chr is_space); c_is ")"].

(** [s.endsWith(p)] for a one-character [p]. *)
Definition ends_with_char (q : char) (s : jsstring) : bool :=
  match rev s with c :: _ => char_eqb c q | [] => false end.

(** [inner.slice(1, -1)] *)
Definition slice_1_m1 (s : jsstring) : jsstring :=
  firstn (length s - 2) (skipn 1 s).

(** The body of the loop that collects [atobMatches]: the quotes around the
    captured literal are stripped. *)
Definition atob_inner (m : mresult) : jsstring :=
  let inner := match r_group 1 m with Some g => g | None => [] end in
  let delimited (q : char) := startsWith [q] inner && ends_with_char q inner in
  if delimited BACKTICK || delimited DQUOTE || delimited SQUOTE
  then slice_1_m1 inner else inner.

Definition atobMatches (combinedText : jsstring) : list jsstring :=
  map atob_inner (match_all atob_re combinedText).

(* ===================================================================== *)
(** * 7. The background job: resolution of the PDF reference              *)
(* ===================================================================== *)

(** What the job gets from its environment.  The temporary directory is
    taken to be writable (a failed [writeFileSync] is not modelled). *)
Record Env := {
  (** [path.join(__dirname, 'tmp_files')] *)
  TEMP_DIR : jsstring;
  (** the value of the n-th call of [Date.now()] *)
  Date_now : nat -> N;
  (** [new URL(src, base).href]; [None] when the constructor throws *)
  resolve_url : jsstring -> jsstring -> option jsstring;
  (** [fetch(url)] then [resp.text()], given the URLs requested before;
      [None] when the request fails or the status is not ok *)
  fetch_script : list jsstring -> jsstring -> option jsstring;
  (** [Buffer.from(s, 'base64')] *)
  Buffer_from_base64 : jsstring -> buffer;
  (** [Number::toString] *)
  Number_toString : number -> jsstring }.

(** What [page.evaluate] and [page.content] return for the loaded page. *)
Record PageArtifacts := {
  links : list (jsstring * jsstring);          (* text and href of every a[href] *)
  inlineScripts : list jsstring;
  externalScriptSources : list jsstring;
  bodyText : jsstring;
  baseUrl : jsstring;                          (* payload.url *)
  pageContent : jsstring }.

Inductive file_data := FText (t : jsstring) | FBytes (b : buffer).

(** The state that the job reads and changes. *)
Record world := World {
  w_ticks : nat;                               (* calls of Date.now() so far *)
  w_files : list (jsstring * file_data);       (* the last write first *)
  w_fetched : list jsstring;                   (* script requests, the last first *)
  w_decoded : list jsstring }.                 (* base64 decodings, the last first *)

Definition job (A : Type) := world -> A * world.

Definition ret {A} (x : A) : job A := fun w => (x, w).
Definition bind {A B} (m : job A) (k : A -> job B) : job B :=
  fun w => let (x, w') := m w in k x w'.

Notation "x <- m ;; k" := (bind m (fun x => k))
  (at level 61, m at next level, right associativity).
Notation "m ;;; k" := (bind m (fun _ => k))
  (at level 61, right associativity).

(** ['\n\n'] *)
Definition NLNL : jsstring := [10%N; 10%N].

(** ToString of a value that [JSON.parse] built, for the argument of
    [re.test]; [None] when the conversion throws a TypeError.  An object is
    converted by the [toString] that it reads: [Object.prototype.toString],
    unless the object has a member of that name, which is no function and
    leaves it without a conversion ([valueOf] returns the object).  An
    array joins the conversions of its elements, [null] counting for the
    empty string. *)
Fixpoint to_string (num : number -> jsstring) (v : jsval) : option jsstring :=
  match v with
  | JUndefined => Some (lit "undefined")
  | JNull => Some (lit "null")
  | JBool true => Some (lit "true")
  | JBool false => Some (lit "false")
  | JNum x => Some (num x)
  | JStr s => Some s
  | JArr l =>
      option_map (join (lit ","))
        ((fix elements (l : list jsval) : option (list jsstring) :=
            match l with
            | [] => Some []
            | e :: l' =>
                match match e with
                      | JUndefined | JNull => Some []
                      | _ => to_string num e
                      end with
                | Some s => option_map (cons s) (elements l')
                | None => None
                end
            end) l)
  | JObj members =>
      match last_member (lit "toString") members with
      | Some _ => None
      | None => Some (lit "[object Object]")
      end
  end.

Fixpoint read_file (name : jsstring) (fs : list (jsstring * file_data)) : option buffer :=
  match fs with
  | [] => None
  | (n, d) :: fs' =>
      if str_eqb n name
      then Some (match d with FBytes b => b | FText t => utf8_encode t end)
      else read_file name fs'
  end.

(** The outcome of the resolution, as the rest of the job reads [pdfUrl]:
    nothing when it is falsy, a local file when it starts with [file://],
    a URL to download otherwise; [Failed] when the job throws there. *)
Inductive ResolvedReference :=
| RemoteUrl (u : jsstring)
| InlineBytes (b : buffer)
| NotFound
| Failed.

Section Job.
Variable E : Env.

(** [path.join(TEMP_DIR, `<prefix>${Date.now()}<suffix>`)] *)
Definition temp_file (prefix suffix : string) : job jsstring :=
  fun w =>
    (TEMP_DIR E ++ lit "/" ++ lit prefix
       ++ Z_to_string (Z.of_N (Date_now E (w_ticks w))) ++ lit suffix,
     World (S (w_ticks w)) (w_files w) (w_fetched w) (w_decoded w)).

(** [fs.writeFileSync(name, data)] *)
Definition write_file (name : jsstring) (d : file_data) : job unit :=
  fun w => (tt, World (w_ticks w) ((name, d) :: w_files w) (w_fetched w) (w_decoded w)).

(** [await fetch(resolved, { timeout: 20000 })] and [resp.text()] *)
Definition fetch_text (url : jsstring) : job (option jsstring) :=
  fun w => (fetch_script E (w_fetched w) url,
            World (w_ticks w) (w_files w) (url :: w_fetched w) (w_decoded w)).

(** [Buffer.from(s, 'base64')] *)
Definition decode64 (s : jsstring) : job buffer :=
  fun w => (Buffer_from_base64 E s,
            World (w_ticks w) (w_files w) (w_fetched w) (s :: w_decoded w)).

(** [re.test(v)]; [None] when the conversion of [v] throws. *)
Definition test_val (r : regex) (v : jsval) : option bool :=
  option_map (test r) (to_string (Number_toString E) v).

(** [v && re.test(v)]: the test is made on a truthy [v] only. *)
Definition truthy_and_test (r : regex) (v : jsval) : option bool :=
  if truthy v then test_val r v else Some false.

(** [typeof v === 'string' && re.test(v)]: behind the [typeof] test the
    conversion gives [v] itself, and nothing is thrown. *)
Definition string_and_test (r : regex) (v : jsval) : bool :=
  if typeof_string v then
    match test_val r v with
    | Some b => b
    | None => false                            (* not reached: [v] is a string *)
    end
  else false.

(** 1) the direct link in the DOM or in the text; [JNull] is [null]. *)
Definition direct_search (a : PageArtifacts) : jsval :=
  match find (fun l => test pdf_link_re (snd l)) (links a) with
  | Some l => JStr (snd l)
  | None =>
      match exec pdf_url_re (bodyText a) with
      | Some m => JStr (r_text m)
      | None => JNull
      end
  end.

(** The loop over [scriptSrcs]: every failure skips the script. *)
Fixpoint fetch_scripts (base : jsstring) (srcs : list jsstring)
         (combinedText : jsstring) : job jsstring :=
  match srcs with
  | [] => ret combinedText
  | src :: rest =>
      match resolve_url E src base with
      | None => fetch_scripts base rest combinedText
      | Some resolved =>
          t <- fetch_text resolved ;;
          fetch_scripts base rest
            (match t with
             | Some t => combinedText ++ NLNL ++ t
             | None => combinedText
             end)
      end
  end.

(** A decoded document is written to a file, and [pdfUrl] names it. *)
Definition save_pdf (prefix : string) (buf : buffer) : job jsval :=
  pdfFilename <- temp_file prefix ".pdf" ;;
  write_file pdfFilename (FBytes buf) ;;;
  ret (JStr (lit "file://" ++ pdfFilename)).

(** 2a) [data:application/pdf;base64,...] *)
Definition data_uri_scan (combinedText : jsstring) : job jsval :=
  match findDataPdfInText combinedText with
  | Some ((_ :: _) as dataPdfB64) =>
      pdfBuffer <- decode64 dataPdfB64 ;;
      save_pdf "embedded_" pdfBuffer
  | _ => ret JNull
  end.

(** 2b) what the loop over [atobMatches] finds in the text of a decoding
    that is no PDF document: a document URL, or else the [url] or [file]
    member of its JSON block.  [None]: the loop goes on, also when one of
    the two tests throws, since the [catch] of the loop body ignores what
    is thrown. *)
Definition atob_text_hit (txt : jsstring) : option jsval :=
  match exec pdf_url_re txt with
  | Some pdfMatch => Some (JStr (r_text pdfMatch))
  | None =>
      match extractJsonBlock txt with
      | Some parsed =>
          if truthy parsed then
            match truthy_and_test pdf_ext_re (get_prop (lit "url") parsed) with
            | Some true => Some (get_prop (lit "url") parsed)
            | Some false =>
                match truthy_and_test pdf_ext_re (get_prop (lit "file") parsed) with
                | Some true => Some (get_prop (lit "file") parsed)
                | Some false => None
                | None => None                 (* thrown and caught *)
                end
            | None => None                     (* thrown and caught *)
            end
          else None
      | None => None
      end
  end.

(** The body of the loop for one literal; [Some v]: [pdfUrl = v; break]. *)
Definition atob_try (b64 : jsstring) : job (option jsval) :=
  let candidate := strip_whitespace b64 in
  buf <- decode64 candidate ;;
  if is_pdf buf then
    pdfUrl <- save_pdf "decoded_atob_" buf ;;
    ret (Some pdfUrl)
  else
    txtFile <- temp_file "decoded_atob_text_" ".txt" ;;
    write_file txtFile (FText (buf_toString buf)) ;;;
    ret (atob_text_hit (buf_toString buf)).

(** The loop; the result is [pdfUrl] after it. *)
Fixpoint atob_scan (l : list jsstring) : job jsval :=
  match l with
  | [] => ret JNull
  | b64 :: rest =>
      hit <- atob_try b64 ;;
      match hit with
      | Some pdfUrl => ret pdfUrl
      | None => atob_scan rest
      end
  end.

(** A literal on which the loop goes on: its decoding is no PDF document
    and holds neither a document URL nor a JSON block naming one. *)
Definition atob_miss (b64 : jsstring) : Prop :=
  let buf := Buffer_from_base64 E (strip_whitespace b64) in
  is_pdf buf = false /\ atob_text_hit (buf_toString buf) = None.

(** 2c) the long base64 blob *)
Definition long_blob_scan (combinedText : jsstring) : job jsval :=
  match findLongBase64Blob combinedText 300 with
  | Some ((_ :: _) as longB64) =>
      buf <- decode64 longB64 ;;
      if is_pdf buf then save_pdf "long_b64_" buf else ret JNull
  | _ => ret JNull
  end.

(** 2d) the JSON block of the combined text *)
Definition json_scan (combinedText : jsstring) : jsval :=
  match extractJsonBlock combinedText with
  | Some parsed =>
      if truthy parsed then
        let url := get_prop (lit "url") parsed in
        let file := get_prop (lit "file") parsed in
        if truthy url && string_and_test pdf_ext_re url then url
        else if truthy file && string_and_test pdf_ext_re file then file
        else JNull
      else JNull
  | None => JNull
  end.

(** The text that the scans search: inline scripts, the external scripts
    that could be fetched, the body text. *)
Definition gather (a : PageArtifacts) : job jsstring :=
  htmlFile <- temp_file "page_" ".html" ;;
  write_file htmlFile (FText (pageContent a)) ;;;
  combinedText <- fetch_scripts (baseUrl a)
                    (filter (fun s => truthy (JStr s)) (externalScriptSources a))
                    (join (NLNL) (inlineScripts a)) ;;
  let combinedText := combinedText ++ NLNL ++ bodyText a in
  combinedFile <- temp_file "scripts_combined_" ".txt" ;;
  write_file combinedFile (FText combinedText) ;;;
  ret combinedText.

(** The scans 2a to 2d, each entered only while [pdfUrl] is falsy. *)
Definition scan (combinedText : jsstring) : job jsval :=
  pdfUrl <- data_uri_scan combinedText ;;
  pdfUrl <- (if truthy pdfUrl then ret pdfUrl else atob_scan (atobMatches combinedText)) ;;
  pdfUrl <- (if truthy pdfUrl then ret pdfUrl else long_blob_scan combinedText) ;;
  ret (if truthy pdfUrl then pdfUrl else json_scan combinedText).

(** Steps 1 and 2 of the job: the final [pdfUrl], and the combined text
    when it was built. *)
Definition find_pdf (a : PageArtifacts) : job (jsval * option jsstring) :=
  let pdfUrl := direct_search a in
  if truthy pdfUrl then ret (pdfUrl, None)
  else
    combinedText <- gather a ;;
    pdfUrl <- scan combinedText ;;
    ret (pdfUrl, Some combinedText).

(** How step 3 reads [pdfUrl]. *)
Definition reference_of (pdfUrl : jsval) (w : world) : ResolvedReference :=
  if negb (truthy pdfUrl) then NotFound
  else match pdfUrl with
       | JStr u =>
           if startsWith (lit "file://") u then
             match read_file (replace_first (lit "file://") [] u) (w_files w) with
             | Some b => InlineBytes b
             | None => Failed
             end
           else RemoteUrl u
       | _ => Failed
       end.

(** The Reference Resolver. *)
Definition resolve (a : PageArtifacts) (w : world) : ResolvedReference :=
  let '((pdfUrl, _), w') := find_pdf a w in reference_of pdfUrl w'.

(** The script requests made during the resolution, in order. *)
Definition script_fetches (a : PageArtifacts) (w : world) : list jsstring :=
  let '(_, w') := find_pdf a w in
  rev (firstn (length (w_fetched w') - length (w_fetched w)) (w_fetched w')).

(** The CombinedSearchText, when one is built. *)
Definition combined_text (a : PageArtifacts) (w : world) : option jsstring :=
  let '((_, c), _) := find_pdf a w in c.

(** The base64 strings decoded during the resolution, in order. *)
Definition decodings (a : PageArtifacts) (w : world) : list jsstring :=
  let '(_, w') := find_pdf a w in
  rev (firstn (length (w_decoded w') - length (w_decoded w)) (w_decoded w')).
End Job.

(* ===================================================================== *)
(** * 8. The background job: the sum of the value column                   *)
(* ===================================================================== *)

(** [/\r?\n/] *)
Definition newline_re : regex := Seq (opt (c_code 13%N)) (c_code 10%N).

(** [/value/i] *)
Definition value_re : regex := r_lit_ci "value".

(** [/\s{2,}/] *)
Definition col_sep_re : regex := at_least 2 (Chr is_space).

(** [/^[A-Za-z\s\-]+$/] *)
Definition prose_re : regex :=
  Seq Bol (Seq (plus (Chr (fun c => is_alpha c || is_space c || char_eqb c (ch "-")))) Eol).

(** The rupee, dollar, euro and pound signs. *)
Definition RUPEE : char := 8377%N.
Definition DOLLAR : char := 36%N.
Definition EURO : char := 8364%N.
Definition POUND : char := 163%N.

(** [/[,₹$€£]/g] *)
Definition currency_re : regex :=
  Chr (fun c => char_eqb c (ch ",") || char_eqb c RUPEE || char_eqb c DOLLAR
                || char_eqb c EURO || char_eqb c POUND).

(** [/-?\d+(\.\d+)?/] *)
Definition number_re : regex :=
  seq_of [opt (c_is "-"); plus (Chr is_digit);
          opt (Group 1 (Seq (c_is ".") (plus (Chr is_digit))))].

(** [/-?\d{1,3}(?:[,.\d]*\d)?/g] *)
Definition any_number_re : regex :=
  seq_of [opt (c_is "-"); between 1 3 (Chr is_digit);
          opt (Seq (star (Chr (fun c => char_eqb c (ch ",") || char_eqb c (ch ".") || is_digit c)))
                   (Chr is_digit))].

(** [/,/g] *)
Definition comma_re : regex := c_is ",".

(** [allText.split('\f')[1] || ''] *)
Definition page2_of (allText : jsstring) : jsstring :=
  match split_char 12%N allText with
  | _ :: p :: _ => p
  | _ => []
  end.

(** [page2Text.split(/\r?\n/).map(l => l.trim()).filter(Boolean)] *)
Definition lines_of (page2Text : jsstring) : list jsstring :=
  filter (fun l => truthy (JStr l)) (map trim (split newline_re page2Text)).

(** [a.findIndex(p)] *)
Fixpoint findIndex {A} (p : A -> bool) (l : list A) (i : Z) : Z :=
  match l with
  | [] => (-1)%Z
  | x :: l' => if p x then i else findIndex p l' (i + 1)%Z
  end.

(** The test that ends the table: a line of letters, white space and
    hyphens only that is a single field. *)
Definition ends_table (dataLine : jsstring) : bool :=
  test prose_re dataLine && Nat.leb (length (split col_sep_re dataLine)) 1.

(** What one row adds to [sum]. *)
Definition add_row (valueColIndex : Z) (dataLine : jsstring) (sum : number) : number :=
  let cols := map trim (split col_sep_re dataLine) in
  if ((0 <=? valueColIndex) && (valueColIndex <? Z.of_nat (length cols)))%Z then
    let raw := trim (replace_all currency_re [] (nth (Z.to_nat valueColIndex) cols [])) in
    match exec number_re raw with
    | Some m =>
        let num := parseFloat (r_text m) in
        if negb (isNaN num) then num_add sum num else sum
    | None => sum
    end
  else sum.

(** The inner loop, over the lines after the header. *)
Fixpoint sum_rows (valueColIndex : Z) (rows : list jsstring) (sum : number) : number :=
  match rows with
  | [] => sum
  | dataLine :: rest =>
      if ends_table dataLine then sum
      else sum_rows valueColIndex rest (add_row valueColIndex dataLine sum)
  end.

Definition is_header (line : jsstring) : bool :=
  test value_re line && Nat.leb 2 (length (split col_sep_re line)).

(** The variables of the scan when the outer loop ends. *)
Record TableScan := {
  foundHeader : option jsstring;
  valueColIndex : Z;
  runningSum : number }.

(** The outer loop: the first header line, then its rows. *)
Fixpoint table_scan (lines : list jsstring) : TableScan :=
  match lines with
  | [] => Build_TableScan None (-1) num_zero
  | line :: rest =>
      if is_header line then
        let headers := map (fun h => toLowerCase (trim h)) (split col_sep_re line) in
        let idx := findIndex (includes (lit "value")) headers 0 in
        Build_TableScan (Some line) idx (sum_rows idx rest num_zero)
      else table_scan rest
  end.

(** The fallback: every number of the page. *)
Definition fallback_sum (page2Text : jsstring) : number :=
  fold_left
    (fun sum t =>
       let n := parseFloat (replace_all comma_re [] (r_text t)) in
       if negb (isNaN n) then num_add sum n else sum)
    (match_all any_number_re page2Text) num_zero.

(** Step 5 of the job and the formatting of the answer. *)
Definition page_sum (page2Text : jsstring) : number :=
  let t := table_scan (lines_of page2Text) in
  match foundHeader t with
  | Some _ => runningSum t
  | None => fallback_sum page2Text
  end.

Definition answer (E : Env) (page2Text : jsstring) : number :=
  format_answer (Number_toString E) (page_sum page2Text).

(* ===================================================================== *)
(** * 9. The webhook                                                      *)
(* ===================================================================== *)

(** [process.env.APP_SECRET || 'replace_me_secret'] *)
Definition APP_SECRET (env : option jsstring) : jsstring :=
  match env with
  | Some ((_ :: _) as s) => s
  | _ => lit "replace_me_secret"
  end.

(** [v !== s] for a string [s] *)
Definition differs_from (v : jsval) (s : jsstring) : bool :=
  match v with
  | JStr t => negb (str_eqb t s)
  | _ => true
  end.

(** What the handler does, in order. *)
Inductive event :=
| Respond (status : nat)
| StartJob (payload : jsval).

(** [app.post('/webhook', ...)] on [req.body] *)
Definition webhook (env : option jsstring) (payload : jsval) : list event :=
  if negb (validatePayload payload) then [Respond 400]
  else if differs_from (get_prop (lit "secret") payload) (APP_SECRET env) then [Respond 403]
  else [Respond 200; StartJob payload].

(* ===================================================================== *)
(** * 10. The background job: the submit URL and the submission           *)
(* ===================================================================== *)

(** [/submit/i] *)
Definition submit_re : regex := r_lit_ci "submit".

(** The pattern of the submit URL in the body text, under the [i] flag:
    [http], an optional [s], [://], one or more characters that are neither
    white space nor a quote, a slash, any number of such characters,
    [submit], any number of such characters. *)
Definition submit_url_re : regex :=
  seq_of [r_lit_ci "http"; opt (c_ci "s"); r_lit_ci "://"; plus (Chr is_url_char);
          c_is "/"; star (Chr is_url_char); r_lit_ci "submit"; star (Chr is_url_char)].

(** The search of the submit URL in the loaded page: the first link whose
    href holds [submit], else the first form whose action does, else the
    first URL of the body text with [submit] after a slash.  [actions] are
    the [action] of every [form[action]], in document order. *)
Definition find_submit (a : PageArtifacts) (actions : list jsstring) : jsval :=
  match find (fun l => test submit_re (snd l)) (links a) with
  | Some l => JStr (snd l)
  | None =>
      match find (test submit_re) actions with
      | Some f => JStr f
      | None =>
          match exec submit_url_re (bodyText a) with
          | Some m => JStr (r_text m)
          | None => JNull
          end
      end
  end.

(** What step 3 gets from the network for a URL. *)
Inductive download :=
| Body (b : buffer)                    (* the response is ok *)
| NotOk                                (* any other status *)
| Rejected.                            (* [fetch] throws *)

(** The collaborators of steps 3 and 4. *)
Record Services := {
  (** [fetch(pdfUrl)] and [pdfResp.buffer()] *)
  fetch_pdf : jsstring -> download;
  (** [pdfParse(pdfBuffer)] then [data.text || '']; [None] when it throws *)
  pdf_text : buffer -> option jsstring }.

(** A call [fetch(to, { method: 'POST', body: JSON.stringify(body) })]. *)
Inductive request := POST (to : jsval) (body : jsval).

(** How the job ends. *)
Inductive job_end :=
| Finished (answer : number)           (* the last line of the job is reached *)
| Returned                             (* one of the early returns *)
| Caught.                              (* an exception reaches the outer catch *)

(** [{ email: payload.email, secret: payload.secret, url: payload.url,
      answer: answer }] *)
Definition submit_body (payload answer : jsval) : jsval :=
  JObj [(lit "email", get_prop (lit "email") payload);
        (lit "secret", get_prop (lit "secret") payload);
        (lit "url", get_prop (lit "url") payload);
        (lit "answer", answer)].

Definition DEMO_ANSWER : jsstring := lit "demo-answer-from-server".

(** A call of [Date.now()] whose value is only logged. *)
Definition tick : job unit :=
  fun w => (tt, World (S (w_ticks w)) (w_files w) (w_fetched w) (w_decoded w)).

Section WholeJob.
Variable E : Env.
Variable net : Services.

(** 2d) what the JSON block of the combined text does to [submitUrl];
    [None] when the test of [parsed.url] throws, which nothing catches
    before the [catch] of the whole job. *)
Definition json_submit (submitUrl : jsval) (combinedText : jsstring) : option jsval :=
  match extractJsonBlock combinedText with
  | Some parsed =>
      if truthy parsed then
        let submitUrl :=
          if negb (truthy submitUrl) && truthy (get_prop (lit "submit_url") parsed)
          then get_prop (lit "submit_url") parsed else submitUrl in
        if negb (truthy submitUrl) then
          match truthy_and_test E submit_re (get_prop (lit "url") parsed) with
          | Some true => Some (get_prop (lit "url") parsed)
          | Some false => Some submitUrl
          | None => None
          end
        else Some submitUrl
      else Some submitUrl
  | None => Some submitUrl
  end.

(** The scans 2a to 2d with both variables: [pdfUrl] and [submitUrl] after
    them, [None] when scan 2d throws. *)
Definition scan_submit (submitUrl : jsval) (combinedText : jsstring)
  : job (option (jsval * jsval)) :=
  pdfUrl <- data_uri_scan E combinedText ;;
  pdfUrl <- (if truthy pdfUrl then ret pdfUrl else atob_scan E (atobMatches combinedText)) ;;
  pdfUrl <- (if truthy pdfUrl then ret pdfUrl else long_blob_scan E combinedText) ;;
  ret (if truthy pdfUrl then Some (pdfUrl, submitUrl)
       else match json_submit submitUrl combinedText with
            | Some submitUrl => Some (json_scan E combinedText, submitUrl)
            | None => None
            end).

(** Steps 1 and 2 of the job: [pdfUrl] and [submitUrl] after them, [None]
    when the job throws on the way. *)
Definition find_pdf_submit (a : PageArtifacts) (submitUrl : jsval)
  : job (option (jsval * jsval)) :=
  let pdfUrl := direct_search a in
  if truthy pdfUrl then ret (Some (pdfUrl, submitUrl))
  else
    combinedText <- gather E a ;;
    scan_submit submitUrl combinedText.

(** Steps 4 to 6: the copy of the document, its text, the answer and its
    submission. *)
Definition parse_and_submit (payload submitUrl : jsval) (pdfBuffer : buffer)
  : job (list request * job_end) :=
  savePath <- temp_file E "quiz_saved_" ".pdf" ;;
  write_file savePath (FBytes pdfBuffer) ;;;
  match pdf_text net pdfBuffer with
  | None => ret ([], Caught)
  | Some allText =>
      let result := answer E (page2_of allText) in
      tick ;;;
      ret (if truthy submitUrl
           then [POST submitUrl (submit_body payload (JNum result))]
           else [],
           Finished result)
  end.

(** The background job on the page loaded from [payload.url]: the requests
    it posts and how it ends.  The timer that closes the browser after 170
    seconds is left out. *)
Definition run_job (payload : jsval) (a : PageArtifacts) (actions : list jsstring)
  : job (list request * job_end) :=
  tick ;;;
  found <- find_pdf_submit a (find_submit a actions) ;;
  match found with
  | None => ret ([], Caught)
  | Some (pdfUrl, submitUrl) =>
      fun w =>
        match reference_of pdfUrl w with
        | NotFound =>
            (if truthy submitUrl
             then [POST submitUrl (submit_body payload (JStr DEMO_ANSWER))]
             else [],
             Returned, w)
        | Failed => ([], Caught, w)
        | InlineBytes b => parse_and_submit payload submitUrl b w
        | RemoteUrl u =>
            match fetch_pdf net u with
            | Body b => parse_and_submit payload submitUrl b w
            | NotOk => ([], Returned, w)
            | Rejected => ([], Caught, w)
            end
        end
  end.
End WholeJob.

(* ===================================================================== *)
(** * 11. Definitions for the statements                               *)
(* ===================================================================== *)

(** A small environment: relative script sources are appended to the base,
    no script can be fetched, base64 is decoded as Node does. *)
Definition demo_env : Env := {|
  TEMP_DIR := lit "/srv/app/tmp_files";
  Date_now := fun n => (1700000000000 + N.of_nat n)%N;
  resolve_url := fun src base => Some (base ++ src);
  fetch_script := fun _ _ => None;
  Buffer_from_base64 := node_base64;
  Number_toString := fun _ => lit "NaN" |}.

Definition empty_world : world := World 0 [] [] [].

(** A page with nothing on it but the given inline scripts. *)
Definition script_page (scripts : list jsstring) : PageArtifacts := {|
  links := [];
  inlineScripts := scripts;
  externalScriptSources := [];
  bodyText := [];
  baseUrl := lit "http://quiz.example/";
  pageContent := [] |}.

(** A matcher step that only succeeds through states related by [R]. *)
Definition sound_step {A : Type} (step : matcher A) (R : mstate -> mstate -> Prop) : Prop :=
  forall st k x, step st k = Some x -> exists st', R st st' /\ k st' = Some x.

(** A state reached from [a] by reading the characters [txt]. *)
Definition reads (a b : mstate) (txt : jsstring) : Prop :=
  m_rest a = txt ++ m_rest b /\ m_pos b = m_pos a + length txt.

(** How a match starts: with nothing, if the pattern is nullable, or with a
    character of its first set. *)
Definition starts_as (r : regex) (txt : jsstring) : Prop :=
  match txt with
  | [] => nullable r = true
  | c :: _ => first_set r c = true
  end.

(** The shape of a text matched by a pattern that starts with an optional
    minus sign followed by something that starts with a digit. *)
Definition signed_digits (txt : jsstring) : Prop :=
  exists (neg : bool) (d : char) (rest : jsstring),
    txt = (if neg then [ch "-"] else []) ++ d :: rest /\ is_digit d = true.

(** Two texts equal up to the case of their ASCII letters. *)
Definition same_ci (a b : jsstring) : Prop := map ascii_upper a = map ascii_upper b.

(** The header of a PDF data URI, in any case. *)
Definition is_data_pdf_header (hdr : jsstring) : Prop :=
  same_ci hdr (lit "data:application/pdf;base64,").

(** A text equal to [.pdf] up to the case of its letters. *)
Definition is_dot_pdf (e : jsstring) : Prop := map ascii_upper e = lit ".PDF".

(** What may follow the extension: the end of the text or a question mark. *)
Definition ends_or_query (post : jsstring) : Prop :=
  post = [] \/ exists t, post = ch "?" :: t.

(** The href names a PDF document: it holds [.pdf], in any case, followed
    by a question mark or by nothing. *)
Definition names_pdf_document (href : jsstring) : Prop :=
  exists pre e post, href = pre ++ e ++ post /\ is_dot_pdf e /\ ends_or_query post.

(** The four octets of [%PDF]. *)
Definition PDF_MAGIC : buffer := [37; 80; 68; 70]%N.

(** A decoder state in the middle of a sequence from which only code
    points of 128 or more can come. *)
Definition pending_high (st : utf8_state) : Prop :=
  (128 <= u_lo st /\ u_hi st <= 191)%N
  /\ match u_need st with
     | 0 => False
     | 1 => (128 <= u_cp st * 64 + (u_lo st - 128))%N
     | 2 => (2 <= u_cp st * 64 + (u_lo st - 128))%N
     | _ => (1 <= u_cp st * 64 + (u_lo st - 128))%N
     end.

Definition high (l : list N) : Prop :=
  match l with [] => True | c :: _ => (128 <= c)%N end.

(** The last end, from right to left, at which the continuation succeeds:
    what a greedy [[\s\S]*] returns. *)
Fixpoint last_try {A} (k : mstate -> option A) (pos : nat) (s : jsstring)
         (caps : list (nat * jsstring)) : option A :=
  match s with
  | [] => k (MState pos [] caps)
  | c :: t =>
      match last_try k (S pos) t caps with
      | Some x => Some x
      | None => k (MState pos s caps)
      end
  end.

(** The continuation of [[\s\S]*] in [json_block_re]: a closing brace. *)
Definition closing_brace (st : mstate) : option mstate :=
  rmatch (c_is "}") st (fun st' => Some st').

Definition is_brace_close (c : char) : bool := char_eqb (ch "}") c.
Definition is_brace_open (c : char) : bool := char_eqb (ch "{") c.

(** The first top-level block of a text, as the specification words it:
    from the first opening brace to the closing brace that balances it. *)
Fixpoint close_block (depth : nat) (s : jsstring) (acc : jsstring) : option jsstring :=
  match s with
  | [] => None
  | c :: t =>
      if is_brace_open c then close_block (S depth) t (c :: acc)
      else if is_brace_close c then
        match depth with
        | O => Some (rev (c :: acc))
        | S d => close_block d t (c :: acc)
        end
      else close_block depth t (c :: acc)
  end.

Fixpoint first_brace_block (s : jsstring) : option jsstring :=
  match s with
  | [] => None
  | c :: t => if is_brace_open c then close_block 0 t [c] else first_brace_block t
  end.

(** The state after [Buffer.from(s, 'base64')]. *)
Definition logged (s : jsstring) (w : world) : world :=
  World (w_ticks w) (w_files w) (w_fetched w) (s :: w_decoded w).

(** The stripped text of a match of [long_blob_re]. *)
Definition blob_of (m : mresult) : jsstring :=
  strip_whitespace (match r_group 1 m with Some g => g | None => [] end).

Definition long_enough (minLen : nat) (m : mresult) : bool :=
  Nat.leb minLen (length (blob_of m)) && test b64_only_re (blob_of m).

(** [cell.replace(/[,₹$€£]/g, '')] removes the commas and the four currency
    signs, and nothing else. *)
Definition is_currency_or_comma (c : char) : bool :=
  char_eqb c (ch ",") || char_eqb c RUPEE || char_eqb c DOLLAR
  || char_eqb c EURO || char_eqb c POUND.

(** The cell of a row at the value column, when the row has one. *)
Definition value_cell (valueColIndex : Z) (dataLine : jsstring) : option jsstring :=
  if (0 <=? valueColIndex)%Z
  then nth_error (map trim (split col_sep_re dataLine)) (Z.to_nat valueColIndex)
  else None.


Definition NL : jsstring := [10%N].

(** The table of the specification. *)
Definition report_lines : list jsstring :=
  [lit "Item          Value"; lit "Apples        100"; lit "Bananas       -50.5";
   lit "End of report"].

Definition report_text : jsstring := join NL report_lines.

(** The three fields that a payload must have. *)
Definition required_fields : list jsstring := [lit "email"; lit "secret"; lit "url"].

(** The payload has a member named [k], whatever its value. *)
Definition has_member (k : jsstring) (body : jsval) : bool :=
  match body with
  | JObj l => match last_member k l with Some _ => true | None => false end
  | _ => false
  end.

(** The members of an object without those named [k]. *)
Definition without (k : jsstring) (l : list (jsstring * jsval)) : list (jsstring * jsval) :=
  filter (fun kv => negb (str_eqb k (fst kv))) l.

(** A payload whose fields are all there, the secret being the right one
    and the email the empty string. *)
Definition empty_email_payload : jsval :=
  JObj [(lit "email", JStr []);
        (lit "secret", JStr (lit "replace_me_secret"));
        (lit "url", JStr (lit "http://quiz.example/"))].

(** A page whose only link is a [file:] URL that ends in [.pdf]. *)
Definition file_link_page : PageArtifacts := {|
  links := [(lit "report", lit "file:///etc/report.pdf")];
  inlineScripts := [];
  externalScriptSources := [lit "app.js"];
  bodyText := lit "Download the report";
  baseUrl := lit "http://quiz.example/";
  pageContent := [] |}.

(** A page with two links, the second of which is a PDF document. *)
Definition two_link_page : PageArtifacts := {|
  links := [(lit "home", lit "http://quiz.example/");
            (lit "paper", lit "http://quiz.example/files/paper.PDF?v=2")];
  inlineScripts := [lit "var x = 1;"];
  externalScriptSources := [lit "app.js"];
  bodyText := lit "Read the paper";
  baseUrl := lit "http://quiz.example/";
  pageContent := [] |}.

(** A data URI whose payload is the text [ABC], which is no PDF document. *)
Definition data_uri_page : PageArtifacts :=
  script_page [lit "var doc = 'data:application/pdf;base64,QUJD';"].

(** A data URI whose payload is a line break and nothing else. *)
Definition blank_data_uri_page : PageArtifacts :=
  script_page [lit "var doc = 'data:application/pdf;base64," ++ [10%N] ++ lit "';"].

(** Three decode calls: an empty JSON object, a PDF header, a document
    URL. *)
Definition three_calls_page : PageArtifacts :=
  script_page [lit "var a = atob('e30='); var b = atob(`JVBE Ri0xLjQ=`); var c = atob('aHR0cDovL3gvYS5wZGY');"].


(** Two decode calls: a JSON object whose [url] is an object with a member
    [toString] and whose [file] is [a.pdf], then a PDF header. *)
Definition caught_literal_page : PageArtifacts :=
  script_page [lit "var j = atob('eyJ1cmwiOnsidG9TdHJpbmciOjF9LCJmaWxlIjoiYS5wZGYifQ=='); var d = atob('JVBERi0xLjQ=');"].


(** A script that defines a configuration object and a function:
    [var cfg = {"url": "http://quiz.example/doc.pdf"}; function go() { return cfg; }] *)
Definition config_script : jsstring :=
  lit "var cfg = {" ++ [DQUOTE] ++ lit "url" ++ [DQUOTE] ++ lit ": " ++ [DQUOTE]
  ++ lit "http://quiz.example/doc.pdf" ++ [DQUOTE]
  ++ lit "}; function go() { return cfg; }".

Definition config_block : jsstring :=
  lit "{" ++ [DQUOTE] ++ lit "url" ++ [DQUOTE] ++ lit ": " ++ [DQUOTE]
  ++ lit "http://quiz.example/doc.pdf" ++ [DQUOTE] ++ lit "}".

Definition config_page : PageArtifacts := script_page [config_script].

(** The text holds the word [w], in any case. *)
Definition holds_ci (w : string) (txt : jsstring) : Prop :=
  exists pre e post, txt = pre ++ e ++ post /\ same_ci e (lit w).

(** One of the three delimiters that [atob_re] accepts around a literal. *)
Definition is_quote (q : char) : Prop := q = BACKTICK \/ q = DQUOTE \/ q = SQUOTE.

(** The form feed, on which the text of the document is split in pages. *)
Definition FF : char := 12%N.

(** The line feed. *)
Definition LF : char := 10%N.

(** The text starts with [http://] or [https://], in any case. *)
Definition has_http_scheme (u : jsstring) : Prop :=
  exists scheme rest,
    u = scheme ++ rest
    /\ (same_ci scheme (lit "http://") \/ same_ci scheme (lit "https://")).

(** The URLs that the loop over [scriptSrcs] requests: one for every source
    that [new URL] accepts. *)
Definition resolved_sources (E : Env) (base : jsstring) (srcs : list jsstring) : list jsstring :=
  flat_map (fun src => match resolve_url E src base with
                       | Some resolved => [resolved]
                       | None => []
                       end) srcs.

(** The texts of the scripts [urls], requested in this order after the
    requests [log] (the last first): the responses of those that could be
    fetched. *)
Fixpoint script_texts (E : Env) (log : list jsstring) (urls : list jsstring) : list jsstring :=
  match urls with
  | [] => []
  | u :: rest =>
      match fetch_script E log u with
      | Some t => t :: script_texts E (u :: log) rest
      | None => script_texts E (u :: log) rest
      end
  end.

(** A file of the temporary directory of the job. *)
Definition in_temp_dir (E : Env) (name : jsstring) : Prop :=
  startsWith (TEMP_DIR E ++ lit "/") name = true.

(** From [w] to [w'] files were only added, all of them in the temporary
    directory. *)
Definition wrote_temp_files (E : Env) (w w' : world) : Prop :=
  exists new,
    w_files w' = new ++ w_files w
    /\ Forall (fun f => in_temp_dir E (fst f)) new.

(** A page without a link to a document, whose text names one. *)
Definition text_url_page : PageArtifacts := {|
  links := [(lit "home", lit "http://quiz.example/")];
  inlineScripts := [lit "var x = 1;"];
  externalScriptSources := [lit "app.js"];
  bodyText := lit "Get it at HTTPS://quiz.example/files/q.pdf?x=1 today";
  baseUrl := lit "http://quiz.example/";
  pageContent := [] |}.

(** A page with three external scripts, the second with an empty source. *)
Definition scripts_page : PageArtifacts := {|
  links := [];
  inlineScripts := [lit "var a = 1;"; lit "var b = 2;"];
  externalScriptSources := [lit "a.js"; []; lit "lib/b.js"];
  bodyText := lit "Quiz";
  baseUrl := lit "http://quiz.example/";
  pageContent := [] |}.

(** An environment in which the script [lib/b.js] of that page can be
    fetched, and no other. *)
Definition scripts_env : Env := {|
  TEMP_DIR := lit "/srv/app/tmp_files";
  Date_now := fun n => (1700000000000 + N.of_nat n)%N;
  resolve_url := fun src base => Some (base ++ src);
  fetch_script := fun _ url =>
    if str_eqb url (lit "http://quiz.example/lib/b.js") then Some (lit "var c = 3;") else None;
  Buffer_from_base64 := node_base64;
  Number_toString := fun _ => lit "NaN" |}.

(** Services for the examples: no download succeeds, and the parser gives
    the octets of the document as its text. *)
Definition demo_net : Services := {|
  fetch_pdf := fun _ => NotOk;
  pdf_text := fun b => Some (buf_toString b) |}.

Definition demo_payload : jsval :=
  JObj [(lit "email", JStr (lit "student@example.com"));
        (lit "secret", JStr (lit "replace_me_secret"));
        (lit "url", JStr (lit "http://quiz.example/"))].

Definition demo_actions : list jsstring := [lit "http://quiz.example/submit"].

(** A page whose script is a JSON block: its [url] is an object with a
    member [toString], its [file] the URL of a document. *)
Definition no_conversion_page : PageArtifacts :=
  script_page [lit "{" ++ [DQUOTE] ++ lit "url" ++ [DQUOTE] ++ lit ": {"
               ++ [DQUOTE] ++ lit "toString" ++ [DQUOTE] ++ lit ": 1}, "
               ++ [DQUOTE] ++ lit "file" ++ [DQUOTE] ++ lit ": "
               ++ [DQUOTE] ++ lit "http://quiz.example/doc.pdf" ++ [DQUOTE] ++ lit "}"].

(** A page whose script holds a data URI and a JSON block that names the
    URL to post the answer to. *)
Definition submit_in_json_page : PageArtifacts :=
  script_page [lit "var doc = 'data:application/pdf;base64,QUJD'; var cfg = {"
               ++ [DQUOTE] ++ lit "submit_url" ++ [DQUOTE] ++ lit ": " ++ [DQUOTE]
               ++ lit "http://quiz.example/post" ++ [DQUOTE] ++ lit "};"].

(* ===================================================================== *)
(** * 12. Basic facts                                                  *)
(* ===================================================================== *)

Arguments exec : simpl never.
Arguments test : simpl never.
Arguments strip_whitespace : simpl never.
Arguments match_all : simpl never.
Arguments JSON_parse : simpl never.
Arguments split : simpl never.
Arguments replace_all : simpl never.
Arguments parseFloat : simpl never.
Arguments num_add : simpl never.

Lemma char_eqb_refl (c : char) : char_eqb c c = true.
Proof. apply N.eqb_refl. Qed.

Lemma str_eqb_refl (s : jsstring) : str_eqb s s = true.
Proof.
  induction s as [|c s IH]; simpl; [reflexivity|].
  now rewrite char_eqb_refl, IH.
Qed.

Lemma str_eqb_eq (a b : jsstring) : str_eqb a b = true <-> a = b.
Proof.
  split; [|intros ->; apply str_eqb_refl].
  revert b; induction a as [|x a IH]; intros [|y b]; simpl; try discriminate; auto.
  rewrite andb_true_iff. intros [Hxy Hab].
  apply N.eqb_eq in Hxy. f_equal; auto.
Qed.

Lemma startsWith_app (p s : jsstring) : startsWith p (p ++ s) = true.
Proof.
  induction p as [|c p IH]; simpl; [reflexivity|].
  now rewrite char_eqb_refl, IH.
Qed.

(** [('file://' + name).replace('file://', '')] is [name] again. *)
Lemma replace_first_prefix (p s : jsstring) : replace_first p [] (p ++ s) = s.
Proof.
  unfold replace_first.
  assert (H : indexOf p (p ++ s) 0 = Some 0).
  { destruct (p ++ s) eqn:Hps; simpl; rewrite <- Hps, startsWith_app; reflexivity. }
  rewrite H. simpl. rewrite skipn_app, skipn_all, Nat.sub_diag. reflexivity.
Qed.

Lemma truthy_JStr (s : jsstring) : truthy (JStr s) = true <-> s <> [].
Proof. destruct s; simpl; split; congruence. Qed.

Lemma find_first_match {A} (p : A -> bool) (l : list A) (x : A) :
  In x l -> p x = true -> exists y, find p l = Some y.
Proof.
  intros Hin Hp. destruct (find p l) eqn:Hf; [eauto|].
  now rewrite (find_none p l Hf x Hin) in Hp.
Qed.

(** The log of what was appended to a list that only grows at its head. *)
Lemma appended_one {A} (x : A) (l : list A) :
  rev (firstn (length (x :: l) - length l) (x :: l)) = [x].
Proof.
  change (length (x :: l)) with (S (length l)).
  replace (S (length l) - length l) with 1 by lia. reflexivity.
Qed.

Lemma appended_many {A} (l0 l : list A) :
  rev (firstn (length (rev l0 ++ l) - length l) (rev l0 ++ l)) = l0.
Proof.
  rewrite length_app. replace (length (rev l0) + length l - length l) with (length (rev l0) + 0) by lia.
  rewrite firstn_app_2. cbn [firstn]. rewrite app_nil_r. apply rev_involutive.
Qed.

Lemma span_app (p : char -> bool) (s : jsstring) :
  s = fst (span p s) ++ snd (span p s).
Proof.
  induction s as [|c s IH]; [reflexivity|]. cbn [span].
  destruct (p c); [|reflexivity].
  destruct (span p s) as [a b]. cbn [fst snd app] in *. now rewrite <- IH.
Qed.

Lemma span_all (p : char -> bool) (s : jsstring) : Forall (fun c => p c = true) (fst (span p s)).
Proof.
  induction s as [|c s IH]; [constructor|]. cbn [span].
  destruct (p c) eqn:Hp; [|constructor].
  destruct (span p s) as [a b]. constructor; assumption.
Qed.

Lemma span_head (p : char -> bool) (s pre t : jsstring) (c : char) :
  span (fun x => negb (p x)) s = (pre, c :: t) -> p c = true.
Proof.
  revert pre. induction s as [|d s IH]; intros pre H; [discriminate|].
  cbn [span] in H. destruct (p d) eqn:Hd; cbn [negb] in H.
  - inversion H; subst. exact Hd.
  - destruct (span (fun x => negb (p x)) s) as [a b]. inversion H; subst. eauto.
Qed.

Lemma filter_none (p : char -> bool) (s : jsstring) :
  Forall (fun c => p c = false) s -> filter p s = [].
Proof. induction 1 as [|c s Hc _ IH]; simpl; [reflexivity|now rewrite Hc]. Qed.

Lemma filter_all (p : char -> bool) (s : jsstring) :
  Forall (fun c => p c = true) s -> filter p s = s.
Proof. induction 1 as [|c s Hc _ IH]; simpl; [reflexivity|now rewrite Hc, IH]. Qed.

Lemma In_drop_while (p : char -> bool) (x : char) (s : jsstring) :
  In x (drop_while p s) -> In x s.
Proof.
  induction s as [|c s IH]; simpl; [auto|].
  destruct (p c); [right; auto|simpl; auto].
Qed.

Lemma In_trim (x : char) (s : jsstring) : In x (trim s) -> In x s.
Proof.
  unfold trim. intros H.
  apply In_rev, In_drop_while, In_rev, In_drop_while in H. exact H.
Qed.

Lemma any_char_true (c : char) : any_char c = true.
Proof. unfold any_char. apply orb_negb_r. Qed.

(* ===================================================================== *)
(** * 13. The matcher returns matches                                  *)
(* ===================================================================== *)

Section MatcherSound.
Context {A : Type}.

Lemma iter_min_sound (step : matcher A) (R : mstate -> mstate -> Prop) :
  sound_step step R ->
  forall n st k x,
    iter_min step n st k = Some x ->
    exists st', iter R n st st' /\ k st' = Some x.
Proof.
  intros Hs. induction n as [|n IH]; intros st k x H; simpl in H.
  - exists st. split; [reflexivity|assumption].
  - apply Hs in H. destruct H as [m [HR Hk]].
    apply IH in Hk. destruct Hk as [st' [Hit Hk]].
    exists st'. split; [exists m; auto|assumption].
Qed.

Lemma iter_opt_sound (step : matcher A) (R : mstate -> mstate -> Prop) (g : bool) :
  sound_step step R ->
  forall lim st k x,
    iter_opt step g lim st k = Some x ->
    exists n st', n <= lim /\ iter R n st st' /\ k st' = Some x.
Proof.
  intros Hs. induction lim as [|lim IH]; intros st k x H; simpl in H.
  - exists 0, st. repeat split; auto.
  - assert (Hagain : forall y,
              step st (fun st1 =>
                if Nat.ltb (length (m_rest st1)) (length (m_rest st))
                then iter_opt step g lim st1 k else None) = Some y ->
              exists n st', n <= S lim /\ iter R n st st' /\ k st' = Some y).
    { intros y Hy. apply Hs in Hy. destruct Hy as [m [HR Hk]].
      destruct (Nat.ltb _ _); [|discriminate].
      apply IH in Hk. destruct Hk as [n [st' [Hn [Hit Hk]]]].
      exists (S n), st'. repeat split; [lia|exists m; auto|assumption]. }
    assert (Hstop : forall y, k st = Some y ->
              exists n st', n <= S lim /\ iter R n st st' /\ k st' = Some y).
    { intros y Hy. exists 0, st. repeat split; [lia|assumption]. }
    destruct g.
    + destruct (step st _) eqn:Hstep.
      * inversion H; subst. now apply Hagain.
      * now apply Hstop.
    + destruct (k st) eqn:Hk.
      * inversion H; subst. now apply Hstop.
      * now apply Hagain.
Qed.

Lemma iter_app (R : mstate -> mstate -> Prop) (n n' : nat) :
  forall a m b, iter R n a m -> iter R n' m b -> iter R (n + n') a b.
Proof.
  induction n as [|n IH]; intros a m b H1 H2; simpl in *.
  - now subst.
  - destruct H1 as [c [Hc H1]]. exists c. split; [assumption|eauto].
Qed.

(** Whatever the matcher returns comes from a state that the pattern can
    reach. *)
Theorem rmatch_sound (r : regex) :
  forall st (k : cont A) x,
    rmatch r st k = Some x -> exists st', run r st st' /\ k st' = Some x.
Proof.
  induction r as [|p|r1 IH1 r2 IH2|r1 IH1 r2 IH2|g mn mx r1 IH1|i r1 IH1| |];
    intros st k x H; simpl in H.
  - exists st. split; [reflexivity|assumption].
  - destruct (m_rest st) as [|c t] eqn:Hrest; [discriminate|].
    destruct (p c) eqn:Hp; [|discriminate].
    eexists. split; [|exact H]. simpl. exists c, t. auto.
  - apply IH1 in H. destruct H as [m [H1 H]].
    apply IH2 in H. destruct H as [st' [H2 H]].
    exists st'. split; [exists m; auto|assumption].
  - destruct (rmatch r1 st k) eqn:H1.
    + inversion H; subst. apply IH1 in H1. destruct H1 as [st' [H1 Hk]].
      exists st'. split; [left; assumption|assumption].
    + apply IH2 in H. destruct H as [st' [H2 Hk]].
      exists st'. split; [right; assumption|assumption].
  - apply (iter_min_sound (rmatch r1) (run r1) IH1) in H.
    destruct H as [m [Hmin H]].
    apply (iter_opt_sound (rmatch r1) (run r1) g IH1) in H.
    destruct H as [n [st' [Hn [Hit Hk]]]].
    exists st'. split; [|assumption].
    simpl. exists (mn + n). split; [eapply iter_app; eauto|].
    split; [lia|]. destruct mx; [lia|exact I].
  - apply IH1 in H. destruct H as [m [H1 Hk]].
    eexists. split; [|exact Hk]. simpl. exists m. auto.
  - destruct (Nat.eqb (m_pos st) 0) eqn:Hp; [|discriminate].
    exists st. split; [|assumption]. simpl. apply Nat.eqb_eq in Hp. auto.
  - destruct (m_rest st) eqn:Hrest; [|discriminate].
    exists st. split; [|assumption]. simpl. auto.
Qed.
End MatcherSound.

Lemma reads_refl (a : mstate) : reads a a [].
Proof. split; simpl; auto. Qed.

Lemma reads_trans (a m b : mstate) (t1 t2 : jsstring) :
  reads a m t1 -> reads m b t2 -> reads a b (t1 ++ t2).
Proof.
  intros [H1 P1] [H2 P2]. split.
  - rewrite H1, H2. now rewrite app_assoc.
  - rewrite P2, P1, length_app. lia.
Qed.

Lemma iter_reads (R : mstate -> mstate -> Prop) :
  (forall a b, R a b -> exists txt, reads a b txt) ->
  forall n a b, iter R n a b -> exists txt, reads a b txt.
Proof.
  intros HR. induction n as [|n IH]; intros a b H; simpl in H.
  - subst. exists []. apply reads_refl.
  - destruct H as [m [H1 H2]]. apply HR in H1. apply IH in H2.
    destruct H1 as [t1 H1], H2 as [t2 H2]. exists (t1 ++ t2). eapply reads_trans; eauto.
Qed.

(** A pattern reads a piece of the input, from left to right. *)
Lemma run_reads (r : regex) : forall a b, run r a b -> exists txt, reads a b txt.
Proof.
  induction r as [|p|r1 IH1 r2 IH2|r1 IH1 r2 IH2|g mn mx r1 IH1|i r1 IH1| |];
    intros a b H; simpl in H.
  - subst. exists []. apply reads_refl.
  - destruct H as [c [t [Hr [_ ->]]]]. exists [c]. split; simpl; [assumption|lia].
  - destruct H as [m [H1 H2]]. apply IH1 in H1. apply IH2 in H2.
    destruct H1 as [t1 H1], H2 as [t2 H2]. exists (t1 ++ t2). eapply reads_trans; eauto.
  - destruct H as [H|H]; auto.
  - destruct H as [n [H _]]. eapply iter_reads; eauto.
  - destruct H as [m [H ->]]. apply IH1 in H. destruct H as [t H].
    exists t. destruct H as [H1 H2]. split; simpl; assumption.
  - destruct H as [_ ->]. exists []. apply reads_refl.
  - destruct H as [_ ->]. exists []. apply reads_refl.
Qed.

Lemma reads_text (a b : mstate) (txt : jsstring) :
  reads a b txt -> firstn (m_pos b - m_pos a) (m_rest a) = txt.
Proof.
  intros [H P]. rewrite H, P.
  replace (m_pos a + length txt - m_pos a) with (length txt + 0) by lia.
  rewrite firstn_app_2. simpl. apply app_nil_r.
Qed.

Lemma reads_unique (a b : mstate) (x y : jsstring) : reads a b x -> reads a b y -> x = y.
Proof. intros Hx Hy. rewrite <- (reads_text _ _ _ Hx). apply (reads_text _ _ _ Hy). Qed.

Lemma reads_same (a : mstate) (txt : jsstring) : reads a a txt -> txt = [].
Proof. intros H. apply (reads_unique _ _ _ _ H (reads_refl a)). Qed.

(** What [match_at] returns: a state that the pattern reaches, and the text
    read on the way as [m[0]]. *)
Lemma match_at_sound (r : regex) (pos : nat) (s : jsstring) (m : mresult) :
  match_at r pos s = Some m ->
  exists b, run r (MState pos s []) b
            /\ reads (MState pos s []) b (r_text m)
            /\ r_index m = pos /\ r_caps m = m_caps b
            /\ r_end m = m_pos b /\ r_after m = m_rest b.
Proof.
  unfold match_at. intros H.
  destruct (rmatch r (MState pos s []) (fun st => Some st)) as [b|] eqn:Hm; [|discriminate].
  inversion H; subst; clear H.
  apply rmatch_sound in Hm. destruct Hm as [b' [Hrun Hb]]. inversion Hb; subst b'.
  exists b. repeat split; auto; simpl.
  - destruct (run_reads r _ _ Hrun) as [txt Hr].
    pose proof (reads_text _ _ _ Hr) as Ht. simpl in Ht. rewrite Ht. apply Hr.
  - destruct (run_reads r _ _ Hrun) as [txt Hr].
    pose proof (reads_text _ _ _ Hr) as Ht. simpl in Ht. rewrite Ht. apply Hr.
Qed.

(** What [exec] returns is a match at some index of the input. *)
Lemma search_from_sound (r : regex) (s : jsstring) :
  forall pos m, search_from r pos s = Some m ->
    exists k, k <= length s /\ match_at r (pos + k) (skipn k s) = Some m.
Proof.
  induction s as [|c s IH]; intros pos m H; simpl in H.
  - destruct (match_at r pos []) eqn:Hm; [|discriminate].
    exists 0. rewrite Nat.add_0_r. simpl. split; [lia|congruence].
  - destruct (match_at r pos (c :: s)) eqn:Hm.
    + exists 0. rewrite Nat.add_0_r. simpl. split; [lia|congruence].
    + apply IH in H. destruct H as [k [Hk H]].
      exists (S k). simpl. split; [lia|]. now rewrite <- Nat.add_succ_comm.
Qed.

(** A match of [exec] is a piece of the input. *)
Lemma search_from_text (r : regex) (s : jsstring) (pos : nat) (m : mresult) :
  search_from r pos s = Some m ->
  exists pre b,
    s = pre ++ r_text m ++ r_after m
    /\ run r (MState (pos + length pre) (r_text m ++ r_after m) []) b
    /\ reads (MState (pos + length pre) (r_text m ++ r_after m) []) b (r_text m)
    /\ r_caps m = m_caps b.
Proof.
  intros H. apply search_from_sound in H. destruct H as [k [Hk H]].
  apply match_at_sound in H. destruct H as [b [Hrun [Hreads [_ [Hcaps [_ Hafter]]]]]].
  pose proof Hreads as [Hrest _]. cbn [m_rest] in Hrest. rewrite <- Hafter in Hrest.
  exists (firstn k s), b.
  rewrite length_firstn, Nat.min_l by assumption. rewrite <- Hrest.
  split; [symmetry; apply firstn_skipn|]. repeat split; try assumption; apply Hreads.
Qed.

(** Every result of [match_all] is a leftmost match from some index on. *)
Lemma matches_from_sound (r : regex) (fuel : nat) :
  forall pos s m, In m (matches_from fuel r pos s) ->
    exists pos' s', search_from r pos' s' = Some m.
Proof.
  induction fuel as [|fuel IH]; intros pos s m H; simpl in H; [contradiction|].
  destruct (search_from r pos s) as [m0|] eqn:Hs; [|contradiction].
  destruct H as [<- | H]; [eauto|].
  destruct (r_end m0 =? r_index m0).
  - destruct (r_after m0); [contradiction|eauto].
  - eauto.
Qed.

(** A match somewhere in the input is found by the search. *)
Lemma search_from_complete (r : regex) (pre s : jsstring) :
  forall pos,
    match_at r (pos + length pre) s <> None ->
    search_from r pos (pre ++ s) <> None.
Proof.
  induction pre as [|c pre IH]; intros pos H.
  - cbn [app length] in *. rewrite Nat.add_0_r in H.
    destruct s; cbn [search_from]; destruct (match_at r pos _); congruence.
  - cbn [app search_from]. destruct (match_at r pos (c :: pre ++ s)); [discriminate|].
    apply IH. cbn [length] in H. now rewrite <- Nat.add_succ_comm in H.
Qed.

Lemma iter_first (r : regex) :
  (forall a b txt, run r a b -> reads a b txt -> starts_as r txt) ->
  forall n a b txt,
    iter (run r) n a b -> reads a b txt ->
    match txt with
    | [] => n = 0 \/ nullable r = true
    | c :: _ => first_set r c = true
    end.
Proof.
  intros IH. induction n as [|n IHn]; intros a b txt H Hr; simpl in H.
  - subst b. apply reads_same in Hr. subst. now left.
  - destruct H as [m [H1 H2]].
    destruct (run_reads r _ _ H1) as [t1 R1].
    destruct (iter_reads (run r) (run_reads r) _ _ _ H2) as [t2 R2].
    pose proof (reads_unique _ _ _ _ Hr (reads_trans _ _ _ _ _ R1 R2)) as ->.
    pose proof (IH _ _ _ H1 R1) as F1. pose proof (IHn _ _ _ H2 R2) as F2.
    destruct t1 as [|c t1]; simpl in *; [|assumption].
    destruct t2 as [|c t2]; [now right|assumption].
Qed.

Theorem run_first (r : regex) :
  forall a b txt, run r a b -> reads a b txt -> starts_as r txt.
Proof.
  induction r as [|p|r1 IH1 r2 IH2|r1 IH1 r2 IH2|g mn mx r1 IH1|i r1 IH1| |];
    intros a b txt H Hr; simpl in H.
  - subst b. apply reads_same in Hr. now subst.
  - destruct H as [c [t [Hrest [Hp ->]]]].
    assert (R : reads a (MState (S (m_pos a)) t (m_caps a)) [c])
      by (split; simpl; [assumption|lia]).
    now rewrite (reads_unique _ _ _ _ Hr R).
  - destruct H as [m [H1 H2]].
    destruct (run_reads r1 _ _ H1) as [t1 R1].
    destruct (run_reads r2 _ _ H2) as [t2 R2].
    pose proof (reads_unique _ _ _ _ Hr (reads_trans _ _ _ _ _ R1 R2)) as ->.
    pose proof (IH1 _ _ _ H1 R1) as F1. pose proof (IH2 _ _ _ H2 R2) as F2.
    destruct t1 as [|c t1]; simpl in *.
    + destruct t2 as [|c t2]; simpl in *; rewrite F1; [assumption|].
      rewrite F2. apply orb_true_r.
    + now rewrite F1.
  - destruct H as [H|H]; [pose proof (IH1 _ _ _ H Hr) as F|pose proof (IH2 _ _ _ H Hr) as F];
      destruct txt; simpl in *; rewrite F; auto using orb_true_r.
  - destruct H as [n [H [Hmn _]]].
    pose proof (iter_first r1 IH1 _ _ _ _ H Hr) as F.
    destruct txt as [|c txt]; simpl; [|assumption].
    destruct F as [-> | ->]; [|apply orb_true_r].
    replace mn with 0 by lia. reflexivity.
  - destruct H as [m [H ->]].
    apply (IH1 a m txt H). destruct Hr as [R1 R2]. split; assumption.
  - destruct H as [_ ->]. apply reads_same in Hr. now subst.
  - destruct H as [_ ->]. apply reads_same in Hr. now subst.
Qed.

(** The first character of what [exec] returns. *)
Lemma exec_first (r : regex) (s : jsstring) (m : mresult) :
  exec r s = Some m -> starts_as r (r_text m).
Proof.
  unfold exec. intros H.
  apply search_from_sound in H. destruct H as [k [_ H]].
  apply match_at_sound in H. destruct H as [b [Hrun [Hreads _]]].
  exact (run_first _ _ _ _ Hrun Hreads).
Qed.

Lemma run_chr_inv (p : char -> bool) (pos : nat) (s : jsstring)
      (caps : list (nat * jsstring)) (b : mstate) :
  run (Chr p) (MState pos s caps) b ->
  exists c t, s = c :: t /\ p c = true /\ b = MState (S pos) t caps.
Proof. intros [c [t [H1 [H2 H3]]]]. exists c, t. auto. Qed.

(** An optional character reads it or nothing. *)
Lemma run_opt_chr (p : char -> bool) (a b : mstate) (txt : jsstring) :
  run (opt (Chr p)) a b -> reads a b txt ->
  txt = [] \/ exists c, txt = [c] /\ p c = true.
Proof.
  intros [n [Hit [_ Hn]]] Hr. cbn in Hn.
  destruct n as [|[|n]]; [| |lia]; simpl in Hit.
  - subst b. left. now apply reads_same in Hr.
  - destruct Hit as [m [[c [t [Hrest [Hp ->]]]] <-]]. right. exists c. split; [|assumption].
    apply (reads_unique _ _ _ _ Hr). split; simpl; [assumption|lia].
Qed.

(** What a repeated class reads. *)
Lemma iter_chr (p : char -> bool) (n : nat) :
  forall a b txt,
    iter (run (Chr p)) n a b -> reads a b txt ->
    length txt = n /\ Forall (fun c => p c = true) txt /\ m_caps b = m_caps a.
Proof.
  induction n as [|n IH]; intros a b txt Hit Hreads; simpl in Hit.
  - subst b. apply reads_same in Hreads. subst. auto.
  - destruct Hit as [m [[c [t [Hrest [Hc ->]]]] Hit]].
    assert (R : reads a (MState (S (m_pos a)) t (m_caps a)) [c])
      by (split; simpl; [assumption|lia]).
    destruct (iter_reads _ (run_reads (Chr p)) _ _ _ Hit) as [t2 R2].
    rewrite (reads_unique _ _ _ _ Hreads (reads_trans _ _ _ _ _ R R2)).
    destruct (IH _ _ _ Hit R2) as [Hlen [Hall Hcaps]].
    cbn [app length]. repeat split; [now rewrite Hlen|now constructor|exact Hcaps].
Qed.

(** What a literal under the [i] flag reads. *)
Lemma run_lit_ci (l : list ascii) :
  forall a b txt,
    run (seq_of (map c_ci l)) a b -> reads a b txt ->
    same_ci txt (map ch l) /\ m_caps b = m_caps a.
Proof.
  unfold same_ci.
  induction l as [|x l IH]; intros a b txt Hrun Hreads.
  - cbn in Hrun. subst b. apply reads_same in Hreads. subst. auto.
  - assert (Hone : forall a b txt, run (c_ci x) a b -> reads a b txt ->
                     map ascii_upper txt = [ascii_upper (ch x)] /\ m_caps b = m_caps a).
    { intros a0 b0 txt0 [c [t [Hrest [Hc ->]]]] Hr.
      assert (R : reads a0 (MState (S (m_pos a0)) t (m_caps a0)) [c])
        by (split; simpl; [assumption|lia]).
      rewrite (reads_unique _ _ _ _ Hr R). apply N.eqb_eq in Hc.
      cbn [map m_caps]. now rewrite Hc. }
    destruct l as [|y l'].
    + cbn [map seq_of] in *. now apply Hone.
    + change (seq_of (map c_ci (x :: y :: l')))
        with (Seq (c_ci x) (seq_of (map c_ci (y :: l')))) in Hrun.
      destruct Hrun as [m [H1 H2]].
      destruct (run_reads _ _ _ H1) as [t1 R1].
      destruct (run_reads _ _ _ H2) as [t2 R2].
      rewrite (reads_unique _ _ _ _ Hreads (reads_trans _ _ _ _ _ R1 R2)).
      destruct (Hone _ _ _ H1 R1) as [E1 C1].
      destruct (IH _ _ _ H2 R2) as [E2 C2].
      rewrite map_app, E1, E2. split; [reflexivity|congruence].
Qed.

Lemma run_signed (r : regex) (a b : mstate) (txt : jsstring) :
  nullable r = false ->
  (forall c, first_set r c = true -> is_digit c = true) ->
  run (Seq (opt (c_is "-")) r) a b -> reads a b txt -> signed_digits txt.
Proof.
  intros Hnull Hfirst [m [Hopt Hr]] Hreads.
  destruct (run_reads _ _ _ Hopt) as [t1 R1].
  destruct (run_reads _ _ _ Hr) as [t2 R2].
  pose proof (reads_unique _ _ _ _ Hreads (reads_trans _ _ _ _ _ R1 R2)) as ->.
  pose proof (run_first _ _ _ _ Hr R2) as F.
  destruct t2 as [|d rest]; simpl in F; [congruence|].
  apply Hfirst in F.
  destruct (run_opt_chr _ _ _ _ Hopt R1) as [-> | [c [-> Hc]]].
  - exists false, d, rest. auto.
  - apply N.eqb_eq in Hc. subst c. exists true, d, rest. auto.
Qed.

(* ===================================================================== *)
(** * 14. The matcher on classes, runs and literals                    *)
(* ===================================================================== *)

(** The leftmost match of a one-character class. *)
Lemma search_chr (p : char -> bool) (s : jsstring) :
  forall pos,
    search_from (Chr p) pos s
    = match span (fun c => negb (p c)) s with
      | (pre, c :: t) =>
          Some (MResult (pos + length pre) [c] [] (S (pos + length pre)) t)
      | (_, []) => None
      end.
Proof.
  induction s as [|c s IH]; intros pos; [reflexivity|].
  cbn [search_from]. unfold match_at. cbn [rmatch m_rest m_pos m_caps span].
  destruct (p c) eqn:Hp; cbn [negb].
  - cbn [m_pos m_rest m_caps length]. rewrite Nat.add_0_r.
    replace (S pos - pos) with 1 by lia. reflexivity.
  - rewrite IH. destruct (span (fun c0 => negb (p c0)) s) as [pre [|d t]]; [reflexivity|].
    cbn [length]. now rewrite <- Nat.add_succ_comm.
Qed.

(** Removing every match of a one-character class keeps the other
    characters, in order. *)
Lemma replace_chr_from (p : char -> bool) (fuel : nat) :
  forall pos s, length s < fuel ->
    replace_from fuel (Chr p) [] pos s = filter (fun c => negb (p c)) s.
Proof.
  induction fuel as [|fuel IH]; intros pos s Hlen; [lia|].
  cbn [replace_from]. rewrite search_chr.
  pose proof (span_app (fun c => negb (p c)) s) as Happ.
  pose proof (span_all (fun c => negb (p c)) s) as Hall.
  destruct (span (fun c => negb (p c)) s) as [pre [|c t]] eqn:Hspan; cbn [fst snd] in *.
  - rewrite app_nil_r in Happ. subst pre. symmetry. now apply filter_all.
  - assert (Hc : p c = true).
    { clear -Hspan. revert pre Hspan. induction s as [|d s IHs]; intros pre H; [discriminate|].
      cbn [span] in H. destruct (p d) eqn:Hd; cbn [negb] in H.
      - inversion H; subst. exact Hd.
      - destruct (span (fun c0 => negb (p c0)) s) as [a b]. inversion H; subst. eauto. }
    clear Hspan. subst s. cbn [r_index r_end r_after].
    replace (S (pos + length pre) =? pos + length pre) with false
      by (symmetry; apply Nat.eqb_neq; lia).
    replace (pos + length pre - pos) with (length pre + 0) by lia.
    rewrite firstn_app_2. cbn [firstn app]. rewrite app_nil_r.
    rewrite IH by (rewrite length_app in Hlen; simpl in Hlen; lia).
    rewrite filter_app, (filter_all _ _ Hall). cbn [filter]. now rewrite Hc.
Qed.

Lemma replace_all_chr (p : char -> bool) (s : jsstring) :
  replace_all (Chr p) [] s = filter (fun c => negb (p c)) s.
Proof. unfold replace_all. apply replace_chr_from. lia. Qed.

(** A greedy run of a class, with nothing required after it, reads the
    longest prefix made of the class. *)
Lemma greedy_class (p : char -> bool) (lim : nat) :
  forall s pos caps, length s <= lim ->
    iter_opt (rmatch (Chr p)) true lim (MState pos s caps) (fun st => Some st)
    = Some (MState (pos + length (fst (span p s))) (snd (span p s)) caps).
Proof.
  induction lim as [|lim IH]; intros s pos caps Hlen.
  - destruct s; [|simpl in Hlen; lia]. simpl. now rewrite Nat.add_0_r.
  - destruct s as [|c t]; [simpl; now rewrite Nat.add_0_r|].
    cbn [iter_opt rmatch m_rest m_pos m_caps span].
    destruct (p c) eqn:Hp.
    + replace (length t <? length (c :: t)) with true
        by (symmetry; apply Nat.ltb_lt; simpl; lia).
      rewrite IH by (simpl in Hlen; lia).
      destruct (span p t) as [a b]. cbn [fst snd length].
      now rewrite Nat.add_succ_r.
    + cbn [fst snd length]. now rewrite Nat.add_0_r.
Qed.

(** The matcher on [p+], one step unfolded. *)
Lemma rmatch_plus {A} (p : char -> bool) (st : mstate) (k : mstate -> option A) :
  rmatch (plus (Chr p)) st k
  = match m_rest st with
    | c :: t =>
        if p c
        then iter_opt (rmatch (Chr p)) true (length t)
               (MState (S (m_pos st)) t (m_caps st)) k
        else None
    | [] => None
    end.
Proof. unfold plus. cbn [rmatch iter_min]. destruct (m_rest st); [|destruct (p c)]; reflexivity. Qed.

(** The leftmost match of [p+]: the first maximal run of the class. *)
Lemma search_plus (p : char -> bool) (s : jsstring) :
  forall pos,
    search_from (plus (Chr p)) pos s
    = match span (fun c => negb (p c)) s with
      | (pre, c :: t) =>
          Some (MResult (pos + length pre) (c :: fst (span p t)) []
                  (S (pos + length pre + length (fst (span p t)))) (snd (span p t)))
      | (_, []) => None
      end.
Proof.
  induction s as [|c s IH]; intros pos; [reflexivity|].
  cbn [search_from]. unfold match_at. rewrite rmatch_plus. cbn [m_rest m_pos m_caps span].
  destruct (p c) eqn:Hp; cbn [negb].
  - rewrite greedy_class by lia. cbn [m_pos m_caps m_rest length].
    rewrite Nat.add_0_r. f_equal. f_equal.
    replace (S pos + length (fst (span p s)) - pos) with (S (length (fst (span p s)))) by lia.
    cbn [firstn]. f_equal.
    rewrite (span_app p s) at 2. rewrite firstn_app, firstn_all, Nat.sub_diag.
    cbn [firstn]. apply app_nil_r.
  - rewrite IH. destruct (span (fun c0 => negb (p c0)) s) as [pre [|d t]]; [reflexivity|].
    cbn [length]. now rewrite <- !Nat.add_succ_comm.
Qed.

(** Removing every run of a class keeps the other characters, in order. *)
Lemma replace_plus_from (p : char -> bool) (fuel : nat) :
  forall pos s, length s < fuel ->
    replace_from fuel (plus (Chr p)) [] pos s = filter (fun c => negb (p c)) s.
Proof.
  induction fuel as [|fuel IH]; intros pos s Hlen; [lia|].
  cbn [replace_from]. rewrite search_plus.
  pose proof (span_app (fun c => negb (p c)) s) as Happ.
  pose proof (span_all (fun c => negb (p c)) s) as Hall.
  destruct (span (fun c => negb (p c)) s) as [pre [|c t]] eqn:Hspan; cbn [fst snd] in *.
  - rewrite app_nil_r in Happ. subst pre. symmetry. now apply filter_all.
  - pose proof (span_head p s pre t c Hspan) as Hc.
    pose proof (span_app p t) as Ht. pose proof (span_all p t) as Hrun.
    clear Hspan. subst s. cbn [r_index r_end r_after].
    replace (S (pos + length pre + length (fst (span p t))) =? pos + length pre) with false
      by (symmetry; apply Nat.eqb_neq; lia).
    replace (pos + length pre - pos) with (length pre + 0) by lia.
    rewrite firstn_app_2. cbn [firstn app]. rewrite app_nil_r.
    assert (Hsnd : length (snd (span p t)) <= length t)
      by (rewrite Ht at 2; rewrite length_app; lia).
    rewrite IH by (rewrite length_app in Hlen; simpl in Hlen; lia).
    rewrite filter_app, (filter_all _ _ Hall). cbn [filter]. rewrite Hc. cbn [negb].
    rewrite Ht at 2. rewrite filter_app.
    rewrite (filter_none (fun c0 => negb (p c0)) (fst (span p t))); [reflexivity|].
    rewrite Forall_forall in *. intros x Hx. now rewrite (Hrun x Hx).
Qed.

(** A run of the class as long as the input, when the continuation accepts
    the end of the input. *)
Lemma greedy_class_all {A} (p : char -> bool) (k : cont A) (lim : nat) :
  forall s pos caps x,
    length s <= lim ->
    Forall (fun c => p c = true) s ->
    k (MState (pos + length s) [] caps) = Some x ->
    iter_opt (rmatch (Chr p)) true lim (MState pos s caps) k = Some x.
Proof.
  induction lim as [|lim IH]; intros s pos caps x Hlen Hall Hk.
  - destruct s; [|simpl in Hlen; lia]. cbn in *. now rewrite Nat.add_0_r in Hk.
  - destruct s as [|c t].
    + cbn in *. now rewrite Nat.add_0_r in Hk.
    + inversion Hall; subst.
      cbn [iter_opt rmatch m_rest m_pos m_caps]. rewrite H1.
      replace (length t <? length (c :: t)) with true
        by (symmetry; apply Nat.ltb_lt; simpl; lia).
      rewrite IH with (x := x); [reflexivity|simpl in Hlen; lia|assumption|].
      cbn [length] in Hk. now rewrite Nat.add_succ_r in Hk.
Qed.

Lemma greedy_any {A} (k : mstate -> option A) (lim : nat) :
  forall s pos caps, length s <= lim ->
    iter_opt (rmatch (Chr any_char)) true lim (MState pos s caps) k
    = last_try k pos s caps.
Proof.
  induction lim as [|lim IH]; intros s pos caps Hlen.
  - destruct s; [reflexivity|simpl in Hlen; lia].
  - destruct s as [|c t]; [reflexivity|].
    cbn [iter_opt rmatch m_rest m_pos m_caps last_try]. rewrite any_char_true.
    replace (length t <? length (c :: t)) with true
      by (symmetry; apply Nat.ltb_lt; simpl; lia).
    rewrite IH by (simpl in Hlen; lia). reflexivity.
Qed.

(** A quantifier whose continuation always succeeds always succeeds. *)
Lemma iter_opt_total {A} (step : matcher A) (g : bool) (k : cont A) :
  (forall st, k st <> None) ->
  forall lim st, iter_opt step g lim st k <> None.
Proof.
  intros Hk. induction lim as [|lim IH]; intros st; cbn [iter_opt]; [apply Hk|].
  destruct g.
  - destruct (step st _); [discriminate|apply Hk].
  - destruct (k st) eqn:E; [discriminate|]. now destruct (Hk st).
Qed.

(** The matcher on a literal under the [i] flag. *)
Lemma rmatch_lit_ci {A} (l : list ascii) :
  forall hdr rest pos caps (k : mstate -> option A),
    same_ci hdr (map ch l) ->
    rmatch (seq_of (map c_ci l)) (MState pos (hdr ++ rest) caps) k
    = k (MState (pos + length hdr) rest caps).
Proof.
  unfold same_ci.
  induction l as [|a l IH]; intros hdr rest pos caps k H.
  - destruct hdr; [|discriminate]. cbn. now rewrite Nat.add_0_r.
  - destruct hdr as [|c hdr]; [discriminate|]. cbn [map] in H. inversion H as [[Hc Hrest]].
    assert (Hstep : forall (k' : mstate -> option A) s,
              rmatch (c_ci a) (MState pos (c :: s) caps) k' = k' (MState (S pos) s caps)).
    { intros k' s. unfold c_ci. cbn [rmatch m_rest m_pos m_caps].
      unfold char_eqb. rewrite Hc, N.eqb_refl. reflexivity. }
    destruct l as [|a' l'].
    + destruct hdr; [|discriminate]. cbn [map seq_of app length].
      rewrite Hstep. now rewrite Nat.add_1_r.
    + change (seq_of (map c_ci (a :: a' :: l')))
        with (Seq (c_ci a) (seq_of (map c_ci (a' :: l')))).
      cbn [rmatch app]. rewrite Hstep. rewrite (IH hdr rest (S pos) caps k Hrest).
      cbn [length]. now rewrite Nat.add_succ_r.
Qed.

(* ===================================================================== *)
(** * 15. What the patterns of server.js match                         *)
(* ===================================================================== *)

(** [x.replace(/\s+/g, '')] removes the white space of [x] and nothing
    else. *)
Theorem strip_whitespace_filter (s : jsstring) :
  strip_whitespace s = filter (fun c => negb (is_space c)) s.
Proof. unfold strip_whitespace, replace_all, whitespace_re. apply replace_plus_from. lia. Qed.

Lemma strip_whitespace_nil : strip_whitespace [] = [].
Proof. reflexivity. Qed.

Lemma strip_currency (cell : jsstring) :
  replace_all currency_re [] cell = filter (fun c => negb (is_currency_or_comma c)) cell.
Proof. apply replace_all_chr. Qed.


(** A literal under the [i] flag is found in exactly the texts that hold it,
    in any case. *)
Lemma lit_ci_spec (s : string) (txt : jsstring) :
  test (r_lit_ci s) txt = true <->
  exists pre e post, txt = pre ++ e ++ post /\ same_ci e (lit s).
Proof.
  unfold test. split.
  - destruct (exec (r_lit_ci s) txt) as [m|] eqn:Hm; [intros _|discriminate].
    apply search_from_text in Hm. destruct Hm as [pre [b [Hsplit [Hrun [Hreads _]]]]].
    exists pre, (r_text m), (r_after m). split; [assumption|].
    exact (proj1 (run_lit_ci _ _ _ _ Hrun Hreads)).
  - intros [pre [e [post [-> He]]]].
    destruct (exec (r_lit_ci s) (pre ++ e ++ post)) eqn:Hm; [reflexivity|exfalso].
    revert Hm. apply (search_from_complete (r_lit_ci s) pre (e ++ post) 0).
    unfold match_at, r_lit_ci. rewrite rmatch_lit_ci by exact He. discriminate.
Qed.

(** [/value/i] *)
Lemma value_re_spec (line : jsstring) :
  test value_re line = true <->
  exists pre e post, line = pre ++ e ++ post /\ same_ci e (lit "value").
Proof. apply lit_ci_spec. Qed.

(** [/\.pdf/i] *)
Lemma pdf_ext_re_spec (u : jsstring) :
  test pdf_ext_re u = true <->
  exists pre e post, u = pre ++ e ++ post /\ is_dot_pdf e.
Proof. apply lit_ci_spec. Qed.

(** [/\.pdf(\?|$)/i] accepts exactly the texts that hold [.pdf], in any
    case, followed by a question mark or by nothing. *)
Theorem pdf_link_re_spec (href : jsstring) :
  test pdf_link_re href = true <->
  exists pre e post,
    href = pre ++ e ++ post /\ is_dot_pdf e /\ ends_or_query post.
Proof.
  unfold test. split.
  - destruct (exec pdf_link_re href) as [m|] eqn:Hm; [intros _|discriminate].
    apply search_from_text in Hm. destruct Hm as [pre [b [Hsplit [Hrun [Hreads _]]]]].
    destruct Hrun as [m4 [Hlit Hgrp]].
    destruct Hlit as [m1 [H1 [m2 [H2 [m3 [H3 H4]]]]]].
    apply run_chr_inv in H1. destruct H1 as [c1 [t1 [Hs1 [Hc1 ->]]]].
    apply run_chr_inv in H2. destruct H2 as [c2 [t2 [-> [Hc2 ->]]]].
    apply run_chr_inv in H3. destruct H3 as [c3 [t3 [-> [Hc3 ->]]]].
    apply run_chr_inv in H4. destruct H4 as [c4 [t4 [-> [Hc4 ->]]]].
    exists pre, [c1; c2; c3; c4], t4. split; [|split].
    + rewrite Hsplit, Hs1. reflexivity.
    + unfold is_dot_pdf. cbn [map].
      apply N.eqb_eq in Hc1, Hc2, Hc3, Hc4. now rewrite Hc1, Hc2, Hc3, Hc4.
    + destruct Hgrp as [m5 [[Hq | [Hend _]] _]].
      * apply run_chr_inv in Hq. destruct Hq as [c [t [-> [Hc _]]]].
        apply N.eqb_eq in Hc. subst c. right. eauto.
      * left. exact Hend.
  - intros [pre [e [post [-> [He Hpost]]]]].
    destruct (exec pdf_link_re (pre ++ e ++ post)) eqn:Hm; [reflexivity|exfalso].
    revert Hm. apply (search_from_complete pdf_link_re pre (e ++ post) 0).
    unfold is_dot_pdf in He.
    destruct e as [|c1 [|c2 [|c3 [|c4 [|c5 e]]]]]; try discriminate He.
    cbn [map] in He. inversion He as [[E1 E2 E3 E4]].
    unfold match_at, pdf_link_re, r_lit_ci, c_ci. cbn [seq_of map list_ascii_of_string app].
    cbn [rmatch m_rest m_pos m_caps].
    rewrite E1, E2, E3, E4.
    change (char_eqb 46%N (ascii_upper (ch "."))) with true.
    change (char_eqb 80%N (ascii_upper (ch "p"))) with true.
    change (char_eqb 68%N (ascii_upper (ch "d"))) with true.
    change (char_eqb 70%N (ascii_upper (ch "f"))) with true.
    cbv iota.
    destruct Hpost as [-> | [t ->]]; [discriminate|].
    unfold c_is. cbn [rmatch m_rest]. rewrite char_eqb_refl. discriminate.
Qed.

Lemma pdf_link_nonempty (href : jsstring) : test pdf_link_re href = true -> href <> [].
Proof. intros H ->. discriminate H. Qed.

(** A document URL found by [/https?:\/\/[^\s'"]+\.pdf[^\s'"]*/i] starts
    with the letter h: it is not empty and is no [file:] URL. *)
Lemma pdf_url_match_remote (s : jsstring) (m : mresult) :
  exec pdf_url_re s = Some m ->
  truthy (JStr (r_text m)) = true /\ startsWith (lit "file://") (r_text m) = false.
Proof.
  intros H. apply exec_first in H.
  destruct (r_text m) as [|c t]; [discriminate H|].
  split; [reflexivity|].
  simpl in H. rewrite orb_false_r in H.
  unfold char_eqb, ascii_upper in H.
  cbn [startsWith lit list_ascii_of_string map].
  destruct (char_eqb (N_of_ascii "f") c) eqn:Hc; [|reflexivity].
  apply N.eqb_eq in Hc. subst c. discriminate H.
Qed.

(** What [findDataPdfInText] captures: after a data-URI header, a run that
    is not empty of base64 characters and line breaks. *)
Theorem data_pdf_capture (txt : jsstring) (m : mresult) :
  exec data_pdf_re txt = Some m ->
  exists pre hdr payload,
    txt = pre ++ hdr ++ payload ++ r_after m
    /\ is_data_pdf_header hdr
    /\ payload <> []
    /\ Forall (fun c => is_b64_or_newline c = true) payload
    /\ r_group 1 m = Some payload.
Proof.
  intros Hm. unfold exec in Hm.
  apply search_from_text in Hm. destruct Hm as [pre [b [Hsplit [Hrun [Hreads Hcaps]]]]].
  destruct Hrun as [m1 [Hlit [m2 [Hplus Hb]]]].
  destruct (run_reads _ _ _ Hlit) as [hdr R1].
  destruct Hplus as [n [Hit [Hn _]]].
  destruct (iter_reads _ (run_reads (Chr is_b64_or_newline)) _ _ _ Hit) as [payload R2].
  destruct (run_lit_ci _ _ _ _ Hlit R1) as [Hhdr C1].
  destruct (iter_chr _ _ _ _ _ Hit R2) as [Hlen [Hall C2]].
  exists pre, hdr, payload.
  assert (R3 : reads m1 b payload).
  { subst b. destruct R2 as [Ra Rb]. split; assumption. }
  pose proof (reads_unique _ _ _ _ Hreads (reads_trans _ _ _ _ _ R1 R3)) as Htxt.
  split; [|split; [|split; [|split]]].
  - rewrite Hsplit, Htxt, <- app_assoc. reflexivity.
  - exact Hhdr.
  - intros ->. simpl in Hlen. lia.
  - exact Hall.
  - unfold r_group. rewrite Hcaps, Hb. cbn [m_caps lookup_cap Nat.eqb].
    now rewrite (reads_text _ _ _ R2).
Qed.

(** A text that holds a PDF data URI is matched by the pattern of
    [findDataPdfInText]. *)
Lemma data_pdf_found (pre hdr payload post : jsstring) :
  is_data_pdf_header hdr ->
  payload <> [] ->
  Forall (fun c => is_b64_or_newline c = true) payload ->
  exists m, exec data_pdf_re (pre ++ hdr ++ payload ++ post) = Some m.
Proof.
  intros Hhdr Hne Hall.
  destruct (exec data_pdf_re (pre ++ hdr ++ payload ++ post)) as [m|] eqn:Hm; [eauto|].
  exfalso. revert Hm.
  apply (search_from_complete data_pdf_re pre (hdr ++ payload ++ post) 0).
  unfold match_at, data_pdf_re, r_lit_ci. cbn [rmatch].
  rewrite rmatch_lit_ci by exact Hhdr.
  rewrite rmatch_plus. cbn [m_rest m_pos m_caps].
  destruct payload as [|c payload]; [congruence|]. inversion Hall; subst.
  cbn [app]. rewrite H1.
  destruct (iter_opt _ _ _ _ _) eqn:Hit; [discriminate|].
  exfalso. revert Hit. apply iter_opt_total. discriminate.
Qed.

(** [/^[A-Za-z0-9+/=]+$/] accepts every text that is not empty and made of
    base64 characters. *)
Lemma b64_only_accepts (s : jsstring) :
  s <> [] -> Forall (fun c => is_b64_char c = true) s -> test b64_only_re s = true.
Proof.
  intros Hne Hall. destruct s as [|c t]; [congruence|]. inversion Hall; subst.
  unfold test, exec. cbn [search_from]. unfold match_at, b64_only_re.
  cbn [rmatch m_pos Nat.eqb]. rewrite rmatch_plus. cbn [m_rest m_pos m_caps]. rewrite H1.
  rewrite greedy_class_all with (x := MState (1 + length t) [] []);
    [reflexivity|lia|assumption|reflexivity].
Qed.

Lemma b64_or_newline_stripped (c : char) :
  is_b64_or_newline c = true -> is_space c = false -> is_b64_char c = true.
Proof.
  unfold is_b64_or_newline. rewrite !orb_true_iff. intros [[H|H]|H] Hs; [assumption| |];
    apply N.eqb_eq in H; subst c; discriminate Hs.
Qed.

(** What [findLongBase64Blob] looks at: the stripped text of a match of its
    pattern is made of base64 characters, so that the test against
    [/^[A-Za-z0-9+/=]+$/] never fails on a text that is long enough. *)
Theorem long_enough_is_length (txt : jsstring) (minLen : nat) (m : mresult) :
  In m (match_all long_blob_re txt) ->
  Forall (fun c => is_b64_char c = true) (blob_of m)
  /\ (0 < minLen -> long_enough minLen m = Nat.leb minLen (length (blob_of m))).
Proof.
  intros Hin. apply matches_from_sound in Hin. destruct Hin as [pos [s Hs]].
  apply search_from_text in Hs. destruct Hs as [pre [b [_ [Hrun [_ Hcaps]]]]].
  destruct Hrun as [m1 [[n [Hit _]] Hb]].
  destruct (iter_reads _ (run_reads (Chr is_b64_or_newline)) _ _ _ Hit) as [g Rg].
  destruct (iter_chr _ _ _ _ _ Hit Rg) as [_ [Hall _]].
  assert (Hg : r_group 1 m = Some g).
  { unfold r_group. rewrite Hcaps, Hb. cbn [m_caps lookup_cap Nat.eqb].
    now rewrite (reads_text _ _ _ Rg). }
  assert (Hblob : Forall (fun c => is_b64_char c = true) (blob_of m)).
  { unfold blob_of. rewrite Hg, strip_whitespace_filter.
    rewrite Forall_forall in *. intros c Hc. apply filter_In in Hc. destruct Hc as [Hc Hsp].
    apply b64_or_newline_stripped; [now apply Hall|]. now apply negb_true_iff in Hsp. }
  split; [exact Hblob|]. intros Hmin. unfold long_enough.
  destruct (Nat.leb minLen (length (blob_of m))) eqn:Hlen; [|reflexivity].
  apply Nat.leb_le in Hlen. cbn [andb]. apply b64_only_accepts; [|exact Hblob].
  intros E. rewrite E in Hlen. simpl in Hlen. lia.
Qed.

Lemma last_try_no_brace (s : jsstring) :
  Forall (fun c => is_brace_close c = false) s ->
  forall pos caps, last_try closing_brace pos s caps = None.
Proof.
  induction 1 as [|c s Hc _ IH]; intros pos caps; cbn [last_try].
  - reflexivity.
  - rewrite IH. unfold closing_brace, c_is. cbn [rmatch m_rest].
    unfold is_brace_close in Hc. now rewrite Hc.
Qed.

Lemma last_try_last_brace (mid post : jsstring) :
  Forall (fun c => is_brace_close c = false) post ->
  forall pos caps,
    last_try closing_brace pos (mid ++ ch "}" :: post) caps
    = Some (MState (S (pos + length mid)) post caps).
Proof.
  intros Hpost. induction mid as [|c mid IH]; intros pos caps; cbn [app last_try].
  - rewrite (last_try_no_brace post Hpost). rewrite Nat.add_0_r. reflexivity.
  - rewrite IH. cbn [length]. now rewrite Nat.add_succ_r.
Qed.

(** The matcher on [json_block_re], one step unfolded. *)
Lemma rmatch_json_block {A} (st : mstate) (k : mstate -> option A) :
  rmatch json_block_re st k
  = match m_rest st with
    | c :: t =>
        if is_brace_open c
        then iter_opt (rmatch (Chr any_char)) true (length t)
               (MState (S (m_pos st)) t (m_caps st))
               (fun st2 => rmatch (c_is "}") st2 k)
        else None
    | [] => None
    end.
Proof. reflexivity. Qed.

(** At an opening brace, [/\{[\s\S]*\}/] matches up to the last closing
    brace of the input. *)
Lemma json_block_at_brace (mid post : jsstring) (pos : nat) :
  Forall (fun c => is_brace_close c = false) post ->
  match_at json_block_re pos (ch "{" :: mid ++ ch "}" :: post)
  = Some (MResult pos (ch "{" :: mid ++ [ch "}"]) [] (S (S (pos + length mid))) post).
Proof.
  intros Hpost. unfold match_at. rewrite rmatch_json_block.
  cbn [m_rest m_pos m_caps].
  change (is_brace_open (ch "{")) with true. cbv iota.
  rewrite greedy_any by lia.
  change (fun st2 : mstate => rmatch (c_is "}") st2 (fun st : mstate => Some st))
    with closing_brace.
  rewrite (last_try_last_brace mid post Hpost). cbn [m_pos m_caps m_rest].
  f_equal. f_equal.
  replace (S (S pos + length mid) - pos) with (S (length (mid ++ [ch "}"])))
    by (rewrite length_app; cbn [length]; lia).
  cbn [firstn]. f_equal.
  replace (mid ++ ch "}" :: post) with ((mid ++ [ch "}"]) ++ post)
    by (rewrite <- app_assoc; reflexivity).
  rewrite firstn_app, firstn_all, Nat.sub_diag. cbn [firstn]. apply app_nil_r.
Qed.

Lemma json_block_not_at (c : char) (s : jsstring) (pos : nat) :
  is_brace_open c = false -> match_at json_block_re pos (c :: s) = None.
Proof.
  intros Hc. unfold match_at. rewrite rmatch_json_block. cbn [m_rest]. now rewrite Hc.
Qed.

(** [/\{[\s\S]*\}/] matches from the first opening brace of the text to its
    last closing brace, whatever lies between them. *)
Theorem json_block_span (pre mid post : jsstring) :
  Forall (fun c => is_brace_open c = false) pre ->
  Forall (fun c => is_brace_close c = false) post ->
  exec json_block_re (pre ++ ch "{" :: mid ++ ch "}" :: post)
  = Some (MResult (length pre) (ch "{" :: mid ++ [ch "}"]) []
            (S (S (length pre + length mid))) post).
Proof.
  intros Hpre Hpost. unfold exec.
  replace (length pre) with (0 + length pre) by lia. generalize 0 as pos.
  induction Hpre as [|c pre Hc Hpre IH]; intros pos; cbn [app search_from length].
  - rewrite (json_block_at_brace mid post pos Hpost). now rewrite !Nat.add_0_r.
  - rewrite (json_block_not_at c _ pos Hc). rewrite IH.
    now rewrite <- !Nat.add_succ_comm.
Qed.

(** [/-?\d+(\.\d+)?/] matches a text that starts with a digit, or with a
    minus sign and a digit. *)
Lemma number_re_shape (s : jsstring) (m : mresult) :
  exec number_re s = Some m -> signed_digits (r_text m).
Proof.
  intros H. apply search_from_text in H. destruct H as [pre [b [_ [Hrun [Hreads _]]]]].
  eapply run_signed; [| |exact Hrun|exact Hreads]; [reflexivity|].
  intros c. simpl. rewrite orb_false_r. auto.
Qed.

(** [/-?\d{1,3}(?:[,.\d]*\d)?/g]: the same shape for every token. *)
Lemma any_number_re_shape (s : jsstring) (m : mresult) :
  In m (match_all any_number_re s) -> signed_digits (r_text m).
Proof.
  intros H. apply matches_from_sound in H. destruct H as [pos [s' H]].
  apply search_from_text in H. destruct H as [pre [b [_ [Hrun [Hreads _]]]]].
  eapply run_signed; [| |exact Hrun|exact Hreads]; [reflexivity|].
  intros c. simpl. rewrite orb_false_r. auto.
Qed.

(** [/-?\d+(\.\d+)?/] only matches where there is a digit. *)
Lemma number_re_needs_digit (s : jsstring) :
  Forall (fun c => is_digit c = false) s -> exec number_re s = None.
Proof.
  intros Hs. destruct (exec number_re s) as [m|] eqn:Hm; [|reflexivity].
  exfalso.
  destruct (number_re_shape s m Hm) as [neg [d [rest [Htxt Hd]]]].
  apply search_from_text in Hm. destruct Hm as [pre [b [Hsplit _]]].
  rewrite Forall_forall in Hs.
  assert (Hin : In d s).
  { rewrite Hsplit, Htxt. apply in_or_app. right. apply in_or_app. left.
    apply in_or_app. right. now left. }
  rewrite (Hs d Hin) in Hd. discriminate.
Qed.

(* ===================================================================== *)
(** * 16. The magic signature                                          *)
(* ===================================================================== *)

(** The low bits of an octet within an aligned range. *)
Lemma land_ones_range (b base wid : N) (n : N) :
  wid = (2 ^ n)%N -> (base mod wid = 0)%N -> (base <= b < base + wid)%N ->
  N.land b (N.ones n) = (b - base)%N.
Proof.
  intros Hw Hbase H. rewrite N.land_ones, <- Hw.
  assert (Hpos : wid <> 0%N) by lia.
  apply N.Div0.mod_divides in Hbase. destruct Hbase as [q Hq].
  symmetry. apply (N.mod_unique b wid q); lia.
Qed.

Lemma land_63 (b : N) : (128 <= b <= 191)%N -> N.land b 63 = (b - 128)%N.
Proof. intros H. apply (land_ones_range b 128 64 6); [reflexivity|reflexivity|lia]. Qed.

Lemma land_31 (b : N) : (192 <= b <= 223)%N -> N.land b 31 = (b - 192)%N.
Proof. intros H. apply (land_ones_range b 192 32 5); [reflexivity|reflexivity|lia]. Qed.

Lemma land_15 (b : N) : (224 <= b <= 239)%N -> N.land b 15 = (b - 224)%N.
Proof. intros H. apply (land_ones_range b 224 16 4); [reflexivity|reflexivity|lia]. Qed.

Lemma land_7 (b : N) : (240 <= b <= 247)%N -> N.land b 7 = (b - 240)%N.
Proof. intros H. apply (land_ones_range b 240 8 3); [reflexivity|reflexivity|lia]. Qed.

Lemma utf8_lead_cases (b : octet) :
  (b <= 127 /\ utf8_lead b = ([b], utf8_start))%N
  \/ ((127 < b)%N /\ fst (utf8_lead b) = [] /\ pending_high (snd (utf8_lead b)))
  \/ ((127 < b)%N /\ utf8_lead b = ([REPLACEMENT], utf8_start)).
Proof.
  unfold utf8_lead, in_range.
  destruct (N.leb_spec b 127) as [H0|H0]; [left; split; [assumption|reflexivity]|].
  right.
  destruct (N.leb_spec 194 b) as [H1|H1], (N.leb_spec b 223) as [H2|H2]; cbn [andb];
    try lia.
  - left. split; [assumption|]. split; [reflexivity|].
    cbn [snd]. unfold pending_high. cbn [u_need u_cp u_lo u_hi].
    rewrite land_31 by lia. lia.
  - destruct (N.leb_spec 224 b) as [H3|H3]; [|lia].
    destruct (N.leb_spec b 239) as [H4|H4]; cbn [andb].
    + left. split; [assumption|]. split; [reflexivity|].
      cbn [snd]. unfold pending_high. cbn [u_need u_cp u_lo u_hi].
      rewrite land_15 by lia.
      destruct (N.eqb_spec b 224), (N.eqb_spec b 237); lia.
    + destruct (N.leb_spec 240 b) as [H5|H5]; [|lia].
      destruct (N.leb_spec b 244) as [H6|H6]; cbn [andb].
      * left. split; [assumption|]. split; [reflexivity|].
        cbn [snd]. unfold pending_high. cbn [u_need u_cp u_lo u_hi].
        rewrite land_7 by lia.
        destruct (N.eqb_spec b 240), (N.eqb_spec b 244); lia.
      * right. split; [assumption|reflexivity].
  - right. split; [assumption|].
    destruct (N.leb_spec 224 b) as [H3|H3]; [lia|]. cbn [andb].
    destruct (N.leb_spec 240 b) as [H5|H5]; [lia|]. reflexivity.
Qed.

(** From such a state, whatever comes out first is no ASCII character. *)
Lemma utf8_pending_high (bs : buffer) :
  forall st, pending_high st -> high (utf8_code_points st bs).
Proof.
  induction bs as [|b bs IH]; intros st [[Hlo Hhi] Hst].
  - simpl. destruct (u_need st); [contradiction|]. simpl. unfold REPLACEMENT. lia.
  - cbn [utf8_code_points]. unfold utf8_step.
    destruct (u_need st) as [|n] eqn:Hn; [contradiction|].
    unfold in_range.
    destruct (N.leb_spec (u_lo st) b) as [H1|H1], (N.leb_spec b (u_hi st)) as [H2|H2];
      cbn [andb].
    + rewrite land_63 by lia.
      destruct n as [|[|n]].
      * cbn [app high]. lia.
      * apply (IH (Utf8 1 _ 128 191)). split; cbn [u_lo u_hi u_need u_cp]; lia.
      * apply (IH (Utf8 (S (S n)) _ 128 191)). split; cbn [u_lo u_hi u_need u_cp]; [lia|].
        destruct n; lia.
    + destruct (utf8_lead b); cbn [app high]. unfold REPLACEMENT. lia.
    + destruct (utf8_lead b); cbn [app high]. unfold REPLACEMENT. lia.
    + destruct (utf8_lead b); cbn [app high]. unfold REPLACEMENT. lia.
Qed.

Lemma high_flat_map (l : list N) : high l -> high (flat_map utf16_units l).
Proof.
  destruct l as [|c l]; [auto|]. cbn [high flat_map]. intros H.
  unfold utf16_units. destruct (N.ltb_spec c 65536); cbn [app high]; [lia|].
  apply N.le_trans with 55296%N; [lia|apply N.le_add_r].
Qed.

(** A text that starts with an ASCII character was decoded from a buffer
    that starts with the same octet. *)
Lemma buf_toString_ascii_head (b : octet) (bs : buffer) (c : char) (t : jsstring) :
  (c < 128)%N ->
  buf_toString (b :: bs) = c :: t ->
  b = c /\ buf_toString bs = t.
Proof.
  intros Hc. unfold buf_toString. cbn [utf8_code_points utf8_step utf8_start u_need].
  destruct (utf8_lead_cases b) as [[Hb ->] | [[Hb [Hout Hst]] | [Hb ->]]].
  - cbn [app flat_map]. unfold utf16_units at 1.
    destruct (N.ltb_spec b 65536); [|lia]. cbn [app]. intros Heq. inversion Heq. auto.
  - destruct (utf8_lead b) as [out st]. cbn [fst snd] in *. subst out. cbn [app].
    intros Heq. pose proof (high_flat_map _ (utf8_pending_high bs st Hst)) as Hh.
    rewrite Heq in Hh. simpl in Hh. lia.
  - cbn [app flat_map]. intros Heq. inversion Heq. unfold REPLACEMENT in *. lia.
Qed.

(** [buf.slice(0,4).toString() === '%PDF']: the buffer begins with the four
    octets of the magic signature. *)
Theorem is_pdf_magic (b : buffer) : is_pdf b = true <-> firstn 4 b = PDF_MAGIC.
Proof.
  unfold is_pdf. rewrite str_eqb_eq.
  change (lit "%PDF") with [37; 80; 68; 70]%N. unfold PDF_MAGIC. split.
  - intros H.
    destruct b as [|b1 [|b2 [|b3 [|b4 b]]]]; try discriminate H; cbn [firstn] in *.
    + destruct (buf_toString_ascii_head b1 _ 37%N _ eq_refl H) as [_ H1].
      discriminate H1.
    + destruct (buf_toString_ascii_head b1 _ 37%N _ eq_refl H) as [_ H1].
      destruct (buf_toString_ascii_head b2 _ 80%N _ eq_refl H1) as [_ H2].
      discriminate H2.
    + destruct (buf_toString_ascii_head b1 _ 37%N _ eq_refl H) as [_ H1].
      destruct (buf_toString_ascii_head b2 _ 80%N _ eq_refl H1) as [_ H2].
      destruct (buf_toString_ascii_head b3 _ 68%N _ eq_refl H2) as [_ H3].
      discriminate H3.
    + destruct (buf_toString_ascii_head b1 _ 37%N _ eq_refl H) as [-> H1].
      destruct (buf_toString_ascii_head b2 _ 80%N _ eq_refl H1) as [-> H2].
      destruct (buf_toString_ascii_head b3 _ 68%N _ eq_refl H2) as [-> H3].
      destruct (buf_toString_ascii_head b4 _ 70%N _ eq_refl H3) as [-> _].
      reflexivity.
  - intros ->. reflexivity.
Qed.

(** A buffer that does not begin with the magic signature. *)
Lemma is_pdf_no_magic (b : buffer) : is_pdf b = false <-> firstn 4 b <> PDF_MAGIC.
Proof.
  rewrite <- is_pdf_magic. destruct (is_pdf b); split; congruence.
Qed.

(* ===================================================================== *)
(** * 17. A decimal literal is a number                                *)
(* ===================================================================== *)













(* ===================================================================== *)
(** * 18. The state across the scans                                   *)
(* ===================================================================== *)

(** A document written by [save_pdf] is read back by step 3 of the job. *)
Lemma reference_of_saved (E : Env) (prefix : string) (buf : buffer) (w : world) :
  reference_of (fst (save_pdf E prefix buf w)) (snd (save_pdf E prefix buf w))
  = InlineBytes buf.
Proof.
  unfold save_pdf, bind, temp_file, write_file, ret. cbn [fst snd].
  unfold reference_of. cbn [truthy negb].
  set (name := TEMP_DIR E ++ _).
  replace (truthy (JStr (lit "file://" ++ name))) with true
    by (symmetry; apply truthy_JStr; discriminate).
  cbn [negb]. rewrite startsWith_app, replace_first_prefix.
  cbn [w_files read_file]. now rewrite str_eqb_refl.
Qed.

Lemma save_pdf_truthy (E : Env) (prefix : string) (buf : buffer) (w : world) :
  truthy (fst (save_pdf E prefix buf w)) = true.
Proof. reflexivity. Qed.

Lemma save_pdf_log (E : Env) (prefix : string) (buf : buffer) (w : world) :
  w_decoded (snd (save_pdf E prefix buf w)) = w_decoded w
  /\ w_fetched (snd (save_pdf E prefix buf w)) = w_fetched w.
Proof. split; reflexivity. Qed.

Lemma fetch_scripts_decoded (E : Env) (base : jsstring) (srcs : list jsstring) :
  forall (c : jsstring) (w : world),
    w_decoded (snd (fetch_scripts E base srcs c w)) = w_decoded w.
Proof.
  induction srcs as [|src rest IH]; intros c w; simpl; [reflexivity|].
  destruct (resolve_url E src base); [|apply IH].
  unfold bind, fetch_text. rewrite IH. reflexivity.
Qed.

(** Building the combined text decodes nothing. *)
Lemma gather_decoded (E : Env) (a : PageArtifacts) (w : world) :
  w_decoded (snd (gather E a w)) = w_decoded w.
Proof.
  unfold gather, bind, temp_file, write_file, ret.
  match goal with
  | |- context [fetch_scripts E ?b ?s ?c ?w0] =>
      pose proof (fetch_scripts_decoded E b s c w0) as H;
      destruct (fetch_scripts E b s c w0) as [c1 w1]
  end.
  simpl in *. exact H.
Qed.

(** The combined text is built as soon as the direct search fails. *)
Lemma combined_text_built (E : Env) (a : PageArtifacts) (w : world) :
  truthy (direct_search a) = false ->
  combined_text E a w = Some (fst (gather E a w)).
Proof.
  intros Hd. unfold combined_text, find_pdf. rewrite Hd. unfold bind.
  destruct (gather E a w) as [c w1]. destruct (scan E c w1). reflexivity.
Qed.

(** When a link matches, the job leaves step 1 with its href and an
    unchanged state. *)
Lemma find_pdf_direct_link (E : Env) (a : PageArtifacts) (w : world) (l : jsstring * jsstring) :
  find (fun l => test pdf_link_re (snd l)) (links a) = Some l ->
  find_pdf E a w = ((JStr (snd l), None), w).
Proof.
  intros Hf. unfold find_pdf, direct_search. rewrite Hf.
  destruct (find_some _ _ Hf) as [_ Ht].
  apply pdf_link_nonempty in Ht.
  destruct (snd l); [congruence|reflexivity].
Qed.

(** The result of the data-URI scan when the pattern captures [payload]. *)
Lemma data_uri_scan_found (E : Env) (c : jsstring) (w : world) (m : mresult)
      (payload : jsstring) :
  exec data_pdf_re c = Some m ->
  r_group 1 m = Some payload ->
  strip_whitespace payload <> [] ->
  data_uri_scan E c w
  = save_pdf E "embedded_" (Buffer_from_base64 E (strip_whitespace payload))
      (World (w_ticks w) (w_files w) (w_fetched w) (strip_whitespace payload :: w_decoded w)).
Proof.
  intros Hm Hg Hne. unfold data_uri_scan, findDataPdfInText. rewrite Hm, Hg.
  destruct payload as [|p0 payload']; [now rewrite strip_whitespace_nil in Hne|].
  destruct (strip_whitespace (p0 :: payload')) as [|s0 s'] eqn:Hs; [congruence|].
  reflexivity.
Qed.

Lemma data_uri_scan_absent (E : Env) (c : jsstring) (w : world) :
  data_uri_absent c = true -> data_uri_scan E c w = (JNull, w).
Proof.
  unfold data_uri_absent, data_uri_scan.
  destruct (findDataPdfInText c) as [[|]|]; try discriminate; reflexivity.
Qed.

(** The scans after a data URI was found change nothing. *)
Lemma scan_after_data_uri (E : Env) (c : jsstring) (w : world) (v : jsval) (w1 : world) :
  data_uri_scan E c w = (v, w1) -> truthy v = true -> scan E c w = (v, w1).
Proof.
  intros Hd Ht. unfold scan, bind, ret. rewrite Hd. rewrite !Ht. reflexivity.
Qed.

(** Every literal that the loop tries is decoded once, whatever it holds. *)
Lemma atob_try_decoded (E : Env) (b64 : jsstring) (w : world) :
  w_decoded (snd (atob_try E b64 w)) = strip_whitespace b64 :: w_decoded w.
Proof.
  unfold atob_try, bind, decode64.
  destruct (is_pdf _); reflexivity.
Qed.


Lemma atob_try_text (E : Env) (b64 : jsstring) (w : world) :
  is_pdf (Buffer_from_base64 E (strip_whitespace b64)) = false ->
  fst (atob_try E b64 w)
  = atob_text_hit E (buf_toString (Buffer_from_base64 E (strip_whitespace b64))).
Proof. intros H. unfold atob_try, bind, decode64. rewrite H. reflexivity. Qed.

(** The literals that miss are passed over, each one decoded on the way. *)
Lemma atob_scan_skip (E : Env) (pre rest : list jsstring) :
  Forall (atob_miss E) pre ->
  forall w, exists w',
    atob_scan E (pre ++ rest) w = atob_scan E rest w'
    /\ w_decoded w' = rev (map strip_whitespace pre) ++ w_decoded w.
Proof.
  induction 1 as [|b pre [Hpdf Hmiss] Hpre IH]; intros w.
  - exists w. split; reflexivity.
  - pose proof (atob_try_decoded E b w) as Hdec.
    pose proof (atob_try_text E b w Hpdf) as Htxt.
    cbn [app atob_scan]. unfold bind at 1.
    destruct (atob_try E b w) as [hit w1]. cbn [fst snd] in *.
    rewrite Htxt, Hmiss.
    destruct (IH w1) as [w' [Hscan Hlog]].
    exists w'. split; [assumption|].
    rewrite Hlog, Hdec. cbn [map rev]. now rewrite <- app_assoc.
Qed.

(** A test that holds was made on a truthy value. *)
Lemma truthy_and_test_truthy (E : Env) (r : regex) (v : jsval) :
  truthy_and_test E r v = Some true -> truthy v = true.
Proof. unfold truthy_and_test. destruct (truthy v); [reflexivity|discriminate]. Qed.

(** The test of a string is the test of its characters. *)
Lemma string_and_test_JStr (E : Env) (r : regex) (v : jsval) :
  string_and_test E r v = true <-> exists s, v = JStr s /\ test r s = true.
Proof.
  unfold string_and_test. split.
  - destruct v; cbn [typeof_string]; try discriminate.
    unfold test_val. cbn [to_string option_map]. eauto.
  - intros [s [-> H]]. cbn [typeof_string]. unfold test_val. cbn [to_string option_map].
    exact H.
Qed.

(** What [atob_text_hit] returns is truthy. *)
Lemma atob_text_hit_truthy (E : Env) (txt : jsstring) (v : jsval) :
  atob_text_hit E txt = Some v -> truthy v = true.
Proof.
  unfold atob_text_hit.
  destruct (exec pdf_url_re txt) as [m|] eqn:Hm.
  - intros H. inversion H; subst. now apply pdf_url_match_remote in Hm.
  - destruct (extractJsonBlock txt) as [parsed|]; [|discriminate].
    destruct (truthy parsed); [|discriminate].
    destruct (truthy_and_test E pdf_ext_re (get_prop (lit "url") parsed)) as [[|]|] eqn:Hu;
      [| |discriminate].
    + intros H. injection H as <-. exact (truthy_and_test_truthy _ _ _ Hu).
    + destruct (truthy_and_test E pdf_ext_re (get_prop (lit "file") parsed)) as [[|]|] eqn:Hf;
        try discriminate.
      intros H. injection H as <-. exact (truthy_and_test_truthy _ _ _ Hf).
Qed.


(** The loop over the decode calls when every literal misses. *)
Lemma atob_scan_all_miss (E : Env) (l : list jsstring) (w : world) :
  Forall (atob_miss E) l ->
  exists w',
    atob_scan E l w = (JNull, w')
    /\ w_decoded w' = rev (map strip_whitespace l) ++ w_decoded w.
Proof.
  intros Hl. destruct (atob_scan_skip E l [] Hl w) as [w' [Hs Hlog]].
  exists w'. rewrite app_nil_r in Hs. split; [now rewrite Hs|assumption].
Qed.


(** [findLongBase64Blob] returns the first match that is long enough, and
    looks at no later one. *)
Lemma first_long_candidate_spec (minLen : nat) (ms : list mresult) (blob : jsstring) :
  first_long_candidate minLen ms = Some blob <->
  exists pre m post,
    ms = pre ++ m :: post
    /\ Forall (fun m' => long_enough minLen m' = false) pre
    /\ long_enough minLen m = true
    /\ blob = blob_of m.
Proof.
  split.
  - induction ms as [|m ms IH]; simpl; [discriminate|].
    fold (blob_of m). fold (long_enough minLen m).
    destruct (long_enough minLen m) eqn:Hm.
    + intros H. inversion H; subst. exists [], m, ms. auto.
    + intros H. destruct (IH H) as [pre [m' [post [-> [Hpre [Hm' ->]]]]]].
      exists (m :: pre), m', post. auto.
  - intros [pre [m [post [-> [Hpre [Hm ->]]]]]].
    induction Hpre as [|m' pre Hm' Hpre IH]; simpl.
    + fold (blob_of m). fold (long_enough minLen m). now rewrite Hm.
    + fold (blob_of m'). fold (long_enough minLen m'). now rewrite Hm'.
Qed.

Lemma long_blob_length (txt : jsstring) (minLen : nat) (blob : jsstring) :
  findLongBase64Blob txt minLen = Some blob -> minLen <= length blob.
Proof.
  unfold findLongBase64Blob. intros H.
  apply first_long_candidate_spec in H.
  destruct H as [pre [m [post [_ [_ [Hm ->]]]]]].
  unfold long_enough in Hm. apply andb_true_iff in Hm. destruct Hm as [Hm _].
  now apply Nat.leb_le in Hm.
Qed.

(** A long blob that is no PDF document: it is decoded, and that is all. *)
Lemma long_blob_scan_not_pdf (E : Env) (c : jsstring) (w : world) (blob : jsstring) :
  findLongBase64Blob c 300 = Some blob ->
  is_pdf (Buffer_from_base64 E blob) = false ->
  long_blob_scan E c w = (JNull, logged blob w).
Proof.
  intros Hb Hpdf. pose proof (long_blob_length c 300 blob Hb) as Hlen.
  unfold long_blob_scan. rewrite Hb.
  destruct blob as [|b0 blob']; [simpl in Hlen; lia|].
  unfold bind, decode64. rewrite Hpdf. reflexivity.
Qed.

(** What the scan does when the span of [extractJsonBlock] is JSON. *)
Lemma json_scan_url (E : Env) (c : jsstring) (parsed : jsval) (u : jsstring) :
  extractJsonBlock c = Some parsed ->
  truthy parsed = true ->
  get_prop (lit "url") parsed = JStr u ->
  test pdf_ext_re u = true ->
  json_scan E c = JStr u.
Proof.
  intros Hp Ht Hu Hm. unfold json_scan. rewrite Hp, Ht, Hu.
  replace (string_and_test E pdf_ext_re (JStr u)) with true
    by (symmetry; apply string_and_test_JStr; eauto).
  destruct u; [discriminate Hm|reflexivity].
Qed.

(* ===================================================================== *)
(** * 19. The direct link (strategy 1)                                 *)
(* ===================================================================== *)

(** C1, as the code has it: when some link's href holds [.pdf], in any
    case, followed by a question mark or by nothing, the first such href is
    the outcome of the resolution and script harvesting is never entered:
    no script is requested, no combined text is built, the state is left
    as it was.  The href is a RemoteUrl provided it does not begin with
    [file://]. *)
Theorem direct_link_short_circuits (E : Env) (a : PageArtifacts) (w : world)
        (text href : jsstring) :
  In (text, href) (links a) ->
  names_pdf_document href ->
  exists l,
    find (fun l => test pdf_link_re (snd l)) (links a) = Some l
    /\ In l (links a) /\ names_pdf_document (snd l)
    /\ snd (find_pdf E a w) = w
    /\ script_fetches E a w = []
    /\ combined_text E a w = None
    /\ (startsWith (lit "file://") (snd l) = false -> resolve E a w = RemoteUrl (snd l)).
Proof.
  intros Hin Hdoc. apply pdf_link_re_spec in Hdoc.
  destruct (find_first_match (fun l => test pdf_link_re (snd l)) (links a) (text, href) Hin Hdoc)
    as [l Hf].
  exists l. destruct (find_some _ _ Hf) as [Hl Htl].
  pose proof (find_pdf_direct_link E a w l Hf) as Hp.
  split; [assumption|]. split; [assumption|].
  split; [now apply pdf_link_re_spec|].
  split; [now rewrite Hp|].
  split; [unfold script_fetches; rewrite Hp, Nat.sub_diag; reflexivity|].
  split; [unfold combined_text; now rewrite Hp|].
  intros Hfile. unfold resolve. rewrite Hp. unfold reference_of.
  apply pdf_link_nonempty in Htl.
  destruct (snd l) as [|c s] eqn:Hs; [congruence|].
  cbn [truthy negb]. now rewrite Hfile.
Qed.

Lemma direct_link_short_circuits_witness :
  exists l,
    find (fun l => test pdf_link_re (snd l)) (links two_link_page) = Some l
    /\ In l (links two_link_page) /\ names_pdf_document (snd l)
    /\ snd (find_pdf demo_env two_link_page empty_world) = empty_world
    /\ script_fetches demo_env two_link_page empty_world = []
    /\ combined_text demo_env two_link_page empty_world = None
    /\ (startsWith (lit "file://") (snd l) = false ->
        resolve demo_env two_link_page empty_world = RemoteUrl (snd l)).
Proof.
  apply (direct_link_short_circuits demo_env two_link_page empty_world
           (lit "paper") (lit "http://quiz.example/files/paper.PDF?v=2")).
  - simpl. right. left. reflexivity.
  - exists (lit "http://quiz.example/files/paper"), (lit ".PDF"), (lit "?v=2").
    split; [reflexivity|]. split; [reflexivity|]. right. exists (lit "v=2"). reflexivity.
Defined.

(** The claim C1 as it is written fails on a [file:] link: the href holds
    [.pdf] at its end, yet the job reads it as a local file (here a missing
    one, so that the job throws) instead of a URL to download; with the
    file on disk its content is taken as the document. *)
Lemma direct_link_file_scheme :
  In (lit "report", lit "file:///etc/report.pdf") (links file_link_page)
  /\ names_pdf_document (lit "file:///etc/report.pdf")
  /\ resolve demo_env file_link_page empty_world = Failed
  /\ resolve demo_env file_link_page
       (World 0 [(lit "/etc/report.pdf", FBytes [1; 2; 3]%N)] [] [])
     = InlineBytes [1; 2; 3]%N.
Proof.
  split; [left; reflexivity|].
  split; [exists (lit "file:///etc/report"), (lit ".pdf"), []; repeat split; now left|].
  split; vm_compute; reflexivity.
Qed.

(* ===================================================================== *)
(** * 20. The data URI (strategy 2a)                                   *)
(* ===================================================================== *)

(** The outcome of the resolution when the data-URI pattern captures
    [payload] in the combined text. *)
Lemma data_uri_resolved (E : Env) (a : PageArtifacts) (w : world)
      (m : mresult) (payload : jsstring) :
  truthy (direct_search a) = false ->
  exec data_pdf_re (fst (gather E a w)) = Some m ->
  r_group 1 m = Some payload ->
  strip_whitespace payload <> [] ->
  resolve E a w = InlineBytes (Buffer_from_base64 E (strip_whitespace payload))
  /\ decodings E a w = [strip_whitespace payload].
Proof.
  intros Hd Hm Hg Hne.
  pose proof (gather_decoded E a w) as Hdec.
  unfold resolve, decodings, find_pdf. rewrite Hd. unfold bind.
  destruct (gather E a w) as [c w1]. cbn [fst snd] in *.
  pose proof (data_uri_scan_found E c w1 m payload Hm Hg Hne) as Hscan.
  set (buf := Buffer_from_base64 E (strip_whitespace payload)) in *.
  set (w2 := World _ _ _ _) in Hscan.
  pose proof (reference_of_saved E "embedded_" buf w2) as Href.
  pose proof (save_pdf_log E "embedded_" buf w2) as [Hlog _].
  destruct (save_pdf E "embedded_" buf w2) as [v w3] eqn:Hsave.
  cbn [fst snd] in *.
  assert (Htv : truthy v = true).
  { pose proof (save_pdf_truthy E "embedded_" buf w2) as Ht. now rewrite Hsave in Ht. }
  rewrite (scan_after_data_uri E c w1 v w3 Hscan Htv). unfold ret.
  split; [assumption|].
  rewrite Hlog. unfold w2. cbn [w_decoded]. rewrite Hdec. apply appended_one.
Qed.

(** C2, as the code has it: when no direct link was found and the combined
    text holds a data URI (the header [data:application/pdf;base64,] in any
    case, then base64 characters or line breaks), the pattern of
    [findDataPdfInText] captures the run of base64 characters and line
    breaks that follows the first such header; unless white-space stripping
    empties it, the outcome is InlineBytes holding the base64 decoding of
    the stripped capture, whatever these octets start with, and nothing
    else is decoded. *)
Theorem data_uri_inline_bytes (E : Env) (a : PageArtifacts) (w : world)
        (pre hdr payload post : jsstring) :
  truthy (direct_search a) = false ->
  fst (gather E a w) = pre ++ hdr ++ payload ++ post ->
  is_data_pdf_header hdr ->
  payload <> [] ->
  Forall (fun c => is_b64_or_newline c = true) payload ->
  exists m captured,
    exec data_pdf_re (fst (gather E a w)) = Some m
    /\ r_group 1 m = Some captured
    /\ captured <> []
    /\ Forall (fun c => is_b64_or_newline c = true) captured
    /\ combined_text E a w = Some (fst (gather E a w))
    /\ (strip_whitespace captured <> [] ->
        resolve E a w = InlineBytes (Buffer_from_base64 E (strip_whitespace captured))
        /\ decodings E a w = [strip_whitespace captured]).
Proof.
  intros Hd Htxt Hhdr Hne Hall.
  destruct (data_pdf_found pre hdr payload post Hhdr Hne Hall) as [m Hm].
  rewrite <- Htxt in Hm.
  destruct (data_pdf_capture _ m Hm) as [pre' [hdr' [captured [_ [_ [Hc [Hcall Hg]]]]]]].
  exists m, captured.
  split; [assumption|]. split; [assumption|]. split; [assumption|]. split; [assumption|].
  split; [now apply combined_text_built|].
  intros Hs. now apply (data_uri_resolved E a w m captured).
Qed.

Lemma data_uri_inline_bytes_witness :
  exists m captured,
    exec data_pdf_re (fst (gather demo_env data_uri_page empty_world)) = Some m
    /\ r_group 1 m = Some captured
    /\ captured <> []
    /\ Forall (fun c => is_b64_or_newline c = true) captured
    /\ combined_text demo_env data_uri_page empty_world
       = Some (fst (gather demo_env data_uri_page empty_world))
    /\ (strip_whitespace captured <> [] ->
        resolve demo_env data_uri_page empty_world
        = InlineBytes (Buffer_from_base64 demo_env (strip_whitespace captured))
        /\ decodings demo_env data_uri_page empty_world = [strip_whitespace captured]).
Proof.
  apply (data_uri_inline_bytes demo_env data_uri_page empty_world
           (lit "var doc = '") (lit "data:application/pdf;base64,") (lit "QUJD")
           (lit "';" ++ NLNL)).
  - reflexivity.
  - vm_compute. reflexivity.
  - reflexivity.
  - discriminate.
  - repeat constructor.
Defined.

(** The data URI of [data_uri_page] holds the text [ABC], which is no PDF
    document, and is the outcome all the same. *)
Example data_uri_without_magic :
  resolve demo_env data_uri_page empty_world = InlineBytes [65; 66; 67]%N
  /\ firstn 4 [65; 66; 67]%N <> PDF_MAGIC.
Proof. split; [vm_compute; reflexivity|discriminate]. Qed.

(** The claim C2 as it is written fails on a payload made of line breaks:
    the pattern captures it, its stripped form is empty, and the job takes
    the empty string for no match: the scans go on and nothing is found. *)
Lemma data_uri_blank_payload :
  truthy (direct_search blank_data_uri_page) = false
  /\ (exists m,
        exec data_pdf_re (fst (gather demo_env blank_data_uri_page empty_world)) = Some m
        /\ r_group 1 m = Some [10%N])
  /\ resolve demo_env blank_data_uri_page empty_world = NotFound
  /\ decodings demo_env blank_data_uri_page empty_world = [].
Proof.
  split; [reflexivity|].
  split.
  - eexists. split; vm_compute; reflexivity.
  - split; vm_compute; reflexivity.
Qed.

(* ===================================================================== *)
(** * 21. The runtime decode calls (strategy 2b)                       *)
(* ===================================================================== *)




(** On [caught_literal_page] the test of the [url] of the first literal
    throws, [file] is not looked at, and the loop goes on to the second
    literal, which is the document. *)
Example caught_literal_is_passed_over :
  atobMatches (fst (gather demo_env caught_literal_page empty_world))
  = [lit "eyJ1cmwiOnsidG9TdHJpbmciOjF9LCJmaWxlIjoiYS5wZGYifQ=="; lit "JVBERi0xLjQ="]
  /\ extractJsonBlock
       (buf_toString (node_base64 (lit "eyJ1cmwiOnsidG9TdHJpbmciOjF9LCJmaWxlIjoiYS5wZGYifQ==")))
     = Some (JObj [(lit "url", JObj [(lit "toString", JNum (decimal_to_number false 1 0))]);
                   (lit "file", JStr (lit "a.pdf"))])
  /\ resolve demo_env caught_literal_page empty_world = InlineBytes (lit "%PDF-1.4")
  /\ decodings demo_env caught_literal_page empty_world
     = [lit "eyJ1cmwiOnsidG9TdHJpbmciOjF9LCJmaWxlIjoiYS5wZGYifQ=="; lit "JVBERi0xLjQ="].
Proof. repeat split; vm_compute; reflexivity. Qed.


(* ===================================================================== *)
(** * 22. The long base64 blob (strategy 2c)                           *)
(* ===================================================================== *)



(** The second run of [two_blob_page] would have been a PDF document. *)
Example second_blob_is_pdf :
  firstn 4 (node_base64 (lit "JVBERi0x" ++ repeat (ch "A") 292)) = PDF_MAGIC.
Proof. vm_compute. reflexivity. Qed.

(* ===================================================================== *)
(** * 23. The JSON block (strategy 2d)                                 *)
(* ===================================================================== *)

(** The scan of the JSON block when the text holds one opening brace
    before its last closing brace and what lies between them is JSON: the
    [url] member that names a document is the outcome. *)
Lemma json_block_resolved (E : Env) (a : PageArtifacts) (w : world)
      (pre mid post : jsstring) (parsed : jsval) (u : jsstring) :
  truthy (direct_search a) = false ->
  data_uri_absent (fst (gather E a w)) = true ->
  Forall (atob_miss E) (atobMatches (fst (gather E a w))) ->
  findLongBase64Blob (fst (gather E a w)) 300 = None ->
  fst (gather E a w) = pre ++ ch "{" :: mid ++ ch "}" :: post ->
  Forall (fun c => is_brace_open c = false) pre ->
  Forall (fun c => is_brace_close c = false) post ->
  JSON_parse (ch "{" :: mid ++ [ch "}"]) = Some parsed ->
  get_prop (lit "url") parsed = JStr u ->
  test pdf_ext_re u = true ->
  startsWith (lit "file://") u = false ->
  resolve E a w = RemoteUrl u.
Proof.
  intros Hd Hno Hmiss Hb Htxt Hpre Hpost Hparse Hu Hm Hfile.
  assert (Hjson : json_scan E (fst (gather E a w)) = JStr u).
  { apply (json_scan_url E _ parsed u); try assumption.
    - unfold extractJsonBlock. rewrite Htxt, (json_block_span pre mid post Hpre Hpost).
      exact Hparse.
    - destruct parsed; try reflexivity; cbn [get_prop] in Hu; discriminate Hu. }
  unfold resolve, find_pdf. rewrite Hd. unfold bind.
  destruct (gather E a w) as [c w0]. cbn [fst snd] in *.
  destruct (atob_scan_all_miss E (atobMatches c) w0 Hmiss) as [w1 [Hs _]].
  assert (Hscan : scan E c w0 = (JStr u, w1)).
  { unfold scan. unfold bind at 1.
    rewrite (data_uri_scan_absent E c w0 Hno). cbn [truthy].
    unfold bind at 1. rewrite Hs. cbn [truthy].
    unfold bind, long_blob_scan. rewrite Hb, Hjson. reflexivity. }
  rewrite Hscan. unfold ret, reference_of.
  destruct u as [|c0 u']; [discriminate Hm|]. cbn [truthy negb]. now rewrite Hfile.
Qed.

(** C5 on [config_page]: the first top-level block of the combined text is
    valid JSON whose [url] is a document URL, yet the job finds nothing:
    the pattern of [extractJsonBlock] runs to the last closing brace of the
    text, and what it matches is no JSON. *)
Theorem json_block_runs_to_last_brace :
  first_brace_block (fst (gather demo_env config_page empty_world)) = Some config_block
  /\ JSON_parse config_block
     = Some (JObj [(lit "url", JStr (lit "http://quiz.example/doc.pdf"))])
  /\ test pdf_link_re (lit "http://quiz.example/doc.pdf") = true
  /\ option_map r_text (exec json_block_re (fst (gather demo_env config_page empty_world)))
     = Some (config_block ++ lit "; function go() { return cfg; }")
  /\ extractJsonBlock (fst (gather demo_env config_page empty_world)) = None
  /\ resolve demo_env config_page empty_world = NotFound.
Proof. repeat split; vm_compute; reflexivity. Qed.

(* ===================================================================== *)
(** * 24. The sum of the value column                                  *)
(* ===================================================================== *)

(** The outer loop passes over the lines that are no header and stops at
    the first header. *)
Lemma table_scan_header (pre : list jsstring) (h : jsstring) (rest : list jsstring) :
  Forall (fun l => is_header l = false) pre ->
  is_header h = true ->
  table_scan (pre ++ h :: rest)
  = let idx := findIndex (includes (lit "value"))
                 (map (fun x => toLowerCase (trim x)) (split col_sep_re h)) 0 in
    Build_TableScan (Some h) idx (sum_rows idx rest num_zero).
Proof.
  intros Hpre Hh. induction Hpre as [|l pre Hl Hpre IH]; cbn [app table_scan].
  - now rewrite Hh.
  - now rewrite Hl.
Qed.


(** The inner loop adds the rows up to the first line that ends the table,
    and reads nothing after it. *)
Lemma sum_rows_stops (idx : Z) (rows : list jsstring) (stop : jsstring) (rest : list jsstring) :
  Forall (fun l => ends_table l = false) rows ->
  ends_table stop = true ->
  forall sum,
    sum_rows idx (rows ++ stop :: rest) sum
    = fold_left (fun s row => add_row idx row s) rows sum.
Proof.
  intros Hrows Hstop. induction Hrows as [|l rows Hl Hrows IH]; intros sum; cbn [app sum_rows fold_left].
  - now rewrite Hstop.
  - rewrite Hl. apply IH.
Qed.

(** What a row adds, in terms of its value cell. *)
Lemma add_row_cell (idx : Z) (dataLine : jsstring) (sum : number) :
  add_row idx dataLine sum
  = match value_cell idx dataLine with
    | Some cell =>
        match exec number_re (trim (replace_all currency_re [] cell)) with
        | Some m =>
            if isNaN (parseFloat (r_text m)) then sum
            else num_add sum (parseFloat (r_text m))
        | None => sum
        end
    | None => sum
    end.
Proof.
  unfold add_row, value_cell. cbv zeta.
  set (cols := map trim (split col_sep_re dataLine)).
  destruct (0 <=? idx)%Z eqn:H0; cbn [andb]; [|reflexivity].
  apply Z.leb_le in H0.
  destruct (idx <? Z.of_nat (length cols))%Z eqn:H1.
  - apply Z.ltb_lt in H1.
    assert (Hlt : Z.to_nat idx < length cols) by lia.
    destruct (nth_error cols (Z.to_nat idx)) as [cell|] eqn:Hn;
      [|apply nth_error_None in Hn; lia].
    replace (nth (Z.to_nat idx) cols []) with cell
      by (symmetry; apply nth_error_nth; exact Hn).
    destruct (exec number_re _) as [m|]; [|reflexivity].
    destruct (isNaN (parseFloat (r_text m))); reflexivity.
  - apply Z.ltb_ge in H1.
    assert (Hge : length cols <= Z.to_nat idx) by lia.
    apply nth_error_None in Hge. now rewrite Hge.
Qed.

(** C6: on the page text made of the header [Item          Value], the rows
    [Apples        100] and [Bananas       -50.5], and the line
    [End of report], the answer is exactly 49.5.  The first line is the
    header, with the value column at index 1; the two rows are summed; the
    line [End of report] ends the table, so that no line after it is read,
    whatever it holds.  In general the header is the first line that holds
    [value], in any case, and splits into two fields or more; the rows
    after it are added up to the first line made of letters, white space
    and hyphens only that is a single field. *)
Theorem report_sum_is_49_5 (E : Env) :
  lines_of report_text = report_lines
  /\ answer E report_text = parseFloat (lit "49.5")
  /\ num_to_Q (answer E report_text) = Some (99 # 2)%Q
  /\ foundHeader (table_scan report_lines) = Some (lit "Item          Value")
  /\ valueColIndex (table_scan report_lines) = 1%Z
  /\ ends_table (lit "End of report") = true
  /\ (forall more : list jsstring,
        format_answer (Number_toString E) (runningSum (table_scan (report_lines ++ more)))
        = parseFloat (lit "49.5"))
  /\ (forall pre h rest,
        Forall (fun l => is_header l = false) pre ->
        is_header h = true ->
        foundHeader (table_scan (pre ++ h :: rest)) = Some h
        /\ runningSum (table_scan (pre ++ h :: rest))
           = sum_rows (valueColIndex (table_scan (pre ++ h :: rest))) rest num_zero)
  /\ (forall idx rows stop rest sum,
        Forall (fun l => ends_table l = false) rows ->
        ends_table stop = true ->
        sum_rows idx (rows ++ stop :: rest) sum
        = fold_left (fun s row => add_row idx row s) rows sum).
Proof.
  split; [vm_compute; reflexivity|].
  split; [vm_compute; reflexivity|].
  split; [vm_compute; reflexivity|].
  split; [vm_compute; reflexivity|].
  split; [vm_compute; reflexivity|].
  split; [vm_compute; reflexivity|].
  split; [|split].
  - intros more.
    change (report_lines ++ more)
      with ([] ++ lit "Item          Value"
               :: ([lit "Apples        100"; lit "Bananas       -50.5"]
                     ++ lit "End of report" :: more)).
    rewrite table_scan_header; [|constructor|vm_compute; reflexivity].
    cbv zeta. cbn [runningSum].
    rewrite sum_rows_stops;
      [|repeat constructor; vm_compute; reflexivity|vm_compute; reflexivity].
    vm_compute. reflexivity.
  - intros pre h rest Hpre Hh. rewrite (table_scan_header pre h rest Hpre Hh).
    split; reflexivity.
  - intros idx rows stop rest sum Hrows Hstop. now apply sum_rows_stops.
Qed.





(* ===================================================================== *)
(** * 25. The webhook                                                  *)
(* ===================================================================== *)

Lemma last_member_without (k : jsstring) (l : list (jsstring * jsval)) :
  last_member k (without k l) = None.
Proof.
  induction l as [|[k' v] l IH]; [reflexivity|].
  cbn [without filter fst]. destruct (str_eqb k k') eqn:Hk; cbn [negb].
  - exact IH.
  - cbn [last_member]. fold (without k l). now rewrite IH, Hk.
Qed.

(** [validatePayload] accepts exactly the objects whose three fields are
    truthy. *)
Lemma validatePayload_true (body : jsval) :
  validatePayload body = true <->
  (exists members, body = JObj members)
  /\ truthy (get_prop (lit "email") body) = true
  /\ truthy (get_prop (lit "secret") body) = true
  /\ truthy (get_prop (lit "url") body) = true.
Proof.
  unfold validatePayload. split.
  - destruct body; try discriminate.
    + simpl. destruct b; discriminate.
    + simpl. destruct x; discriminate.
    + simpl. destruct s; discriminate.
    + cbn [truthy typeof_object negb orb].
      destruct (truthy (get_prop (lit "email") (JObj l))); [|discriminate].
      destruct (truthy (get_prop (lit "secret") (JObj l))); [|discriminate].
      destruct (truthy (get_prop (lit "url") (JObj l))); [|discriminate].
      intros _. eauto.
  - intros [[members ->] [He [Hs Hu]]].
    cbn [truthy typeof_object negb orb]. now rewrite He, Hs, Hu.
Qed.

Lemma validatePayload_falsy_field (k : jsstring) (body : jsval) :
  In k required_fields ->
  truthy (get_prop k body) = false ->
  validatePayload body = false.
Proof.
  intros Hk Hf. destruct (validatePayload body) eqn:Hv; [|reflexivity].
  apply validatePayload_true in Hv. destruct Hv as [_ [He [Hs Hu]]].
  destruct Hk as [<- | [<- | [<- | []]]]; congruence.
Qed.

Lemma differs_from_false (v : jsval) (s : jsstring) :
  differs_from v s = false <-> v = JStr s.
Proof.
  destruct v; simpl; try (split; [discriminate|congruence]).
  rewrite negb_false_iff, str_eqb_eq. split; congruence.
Qed.



(** C10: a payload in which [email], [secret] or [url] is present with a
    falsy value (the empty string, 0, null, false) gets 400, exactly as the
    payload without that field does. *)
Theorem falsy_field_is_missing_field (env : option jsstring)
        (members : list (jsstring * jsval)) (k : jsstring) (v : jsval) :
  In k required_fields ->
  last_member k members = Some v ->
  truthy v = false ->
  webhook env (JObj members) = [Respond 400]
  /\ has_member k (JObj members) = true
  /\ has_member k (JObj (without k members)) = false
  /\ webhook env (JObj (without k members)) = webhook env (JObj members).
Proof.
  intros Hk Hm Hv.
  assert (H1 : validatePayload (JObj members) = false).
  { apply (validatePayload_falsy_field k _ Hk). cbn [get_prop]. now rewrite Hm. }
  assert (H2 : validatePayload (JObj (without k members)) = false).
  { apply (validatePayload_falsy_field k _ Hk).
    cbn [get_prop]. now rewrite last_member_without. }
  unfold webhook. rewrite H1, H2. cbn [negb has_member].
  rewrite Hm, last_member_without. auto.
Qed.

Lemma falsy_field_is_missing_field_witness :
  webhook None empty_email_payload = [Respond 400]
  /\ has_member (lit "email") empty_email_payload = true
  /\ has_member (lit "email")
       (JObj (without (lit "email")
                [(lit "email", JStr []);
                 (lit "secret", JStr (lit "replace_me_secret"));
                 (lit "url", JStr (lit "http://quiz.example/"))])) = false
  /\ webhook None
       (JObj (without (lit "email")
                [(lit "email", JStr []);
                 (lit "secret", JStr (lit "replace_me_secret"));
                 (lit "url", JStr (lit "http://quiz.example/"))]))
     = webhook None empty_email_payload.
Proof.
  apply (falsy_field_is_missing_field None _ (lit "email") (JStr [])).
  - left. reflexivity.
  - reflexivity.
  - reflexivity.
Defined.

(* ===================================================================== *)
(** * 26. The helpers of server.js on every text                       *)
(* ===================================================================== *)

(** Every match that a [g] pattern yields lies in the text searched. *)
Lemma matches_from_text (r : regex) (fuel : nat) :
  forall pos s m, In m (matches_from fuel r pos s) ->
    exists pre pos' b,
      s = pre ++ r_text m ++ r_after m
      /\ run r (MState pos' (r_text m ++ r_after m) []) b
      /\ reads (MState pos' (r_text m ++ r_after m) []) b (r_text m)
      /\ r_caps m = m_caps b.
Proof.
  induction fuel as [|fuel IH]; intros pos s m Hin; cbn [matches_from] in Hin; [contradiction|].
  destruct (search_from r pos s) as [m0|] eqn:Hs; [|contradiction].
  pose proof (search_from_text _ _ _ _ Hs) as [pre0 [b0 [Hsplit0 [Hrun0 [Hreads0 Hcaps0]]]]].
  destruct Hin as [<- | Hin].
  - exists pre0, (pos + length pre0), b0. auto.
  - assert (Hrest : forall pos1 s1, In m (matches_from fuel r pos1 s1) ->
                      (exists x, r_after m0 = x ++ s1) ->
                      exists pre pos' b,
                        s = pre ++ r_text m ++ r_after m
                        /\ run r (MState pos' (r_text m ++ r_after m) []) b
                        /\ reads (MState pos' (r_text m ++ r_after m) []) b (r_text m)
                        /\ r_caps m = m_caps b).
    { intros pos1 s1 H1 [x Hx].
      destruct (IH _ _ _ H1) as [pre [pos' [b [Hsplit [Hrun [Hreads Hcaps]]]]]].
      exists (pre0 ++ r_text m0 ++ x ++ pre), pos', b.
      split; [|auto].
      rewrite Hsplit0 at 1. rewrite Hx, Hsplit. now rewrite <- !app_assoc. }
    destruct (Nat.eqb (r_end m0) (r_index m0)).
    + destruct (r_after m0) as [|c t] eqn:Ha; [contradiction|].
      apply (Hrest _ _ Hin). now exists [c].
    + apply (Hrest _ _ Hin). now exists [].
Qed.

(** The text of a match of [long_blob_re] is its first group: a run of 200
    characters or more of the class. *)
Lemma long_blob_match (txt : jsstring) (m : mresult) :
  In m (match_all long_blob_re txt) ->
  exists pre,
    txt = pre ++ r_text m ++ r_after m
    /\ 200 <= length (r_text m)
    /\ Forall (fun c => is_b64_or_newline c = true) (r_text m)
    /\ r_group 1 m = Some (r_text m).
Proof.
  intros Hin. apply matches_from_text in Hin.
  destruct Hin as [pre [pos' [b [Hsplit [Hrun [Hreads Hcaps]]]]]].
  destruct Hrun as [m1 [[n [Hit [Hn _]]] Hb]].
  destruct (iter_reads _ (run_reads (Chr is_b64_or_newline)) _ _ _ Hit) as [g Rg].
  destruct (iter_chr _ _ _ _ _ Hit Rg) as [Hlen [Hall _]].
  assert (Rb : reads (MState pos' (r_text m ++ r_after m) []) b g).
  { subst b. destruct Rg as [Ra Rb]. split; assumption. }
  pose proof (reads_unique _ _ _ _ Hreads Rb) as Htxt.
  exists pre. split; [exact Hsplit|]. rewrite Htxt.
  split; [lia|]. split; [exact Hall|].
  unfold r_group. rewrite Hcaps, Hb. cbn [m_caps lookup_cap Nat.eqb].
  now rewrite (reads_text _ _ _ Rg).
Qed.

Lemma filter_length_le {A} (p : A -> bool) (l : list A) : length (filter p l) <= length l.
Proof.
  induction l as [|x l IH]; cbn [filter length]; [lia|].
  destruct (p x); cbn [length]; lia.
Qed.



(** X2: [findDataPdfInText] returns [null] exactly for the texts that hold
    no data-URI header (in any case) followed by a base64 character or a
    line break. *)
Theorem data_uri_null_iff (txt : jsstring) :
  findDataPdfInText txt = None <->
  ~ (exists pre hdr c post,
       txt = pre ++ hdr ++ c :: post
       /\ is_data_pdf_header hdr
       /\ is_b64_or_newline c = true).
Proof.
  assert (Hsome : forall m, exec data_pdf_re txt = Some m -> findDataPdfInText txt <> None).
  { intros m Hm. unfold findDataPdfInText. rewrite Hm.
    destruct (data_pdf_capture _ _ Hm) as [pre [hdr [payload [_ [_ [Hne [_ Hg]]]]]]].
    rewrite Hg. destruct payload; [congruence|discriminate]. }
  split.
  - intros Hnone [pre [hdr [c [post [-> [Hhdr Hc]]]]]].
    destruct (data_pdf_found pre hdr [c] post Hhdr) as [m Hm];
      [discriminate|now constructor|].
    exact (Hsome m Hm Hnone).
  - intros Hno. unfold findDataPdfInText.
    destruct (exec data_pdf_re txt) as [m|] eqn:Hm; [|reflexivity].
    exfalso. apply Hno.
    destruct (data_pdf_capture _ _ Hm) as [pre [hdr [payload [Hsplit [Hhdr [Hne [Hall _]]]]]]].
    destruct payload as [|c payload]; [congruence|]. inversion Hall; subst.
    exists pre, hdr, c, (payload ++ r_after m). auto.
Qed.

(** X3: a blob that [findLongBase64Blob] returns comes from a run of 200
    characters or more of the text (base64 characters and line breaks),
    whatever [minLen] is: it is that run without its line breaks, it is
    made of base64 characters, it is not empty and it has [minLen]
    characters or more.  A text of fewer than 200 characters has no blob. *)
Theorem long_blob_comes_from_a_run (txt : jsstring) (minLen : nat) (blob : jsstring) :
  findLongBase64Blob txt minLen = Some blob ->
  (exists pre run post,
      txt = pre ++ run ++ post
      /\ 200 <= length run
      /\ Forall (fun c => is_b64_or_newline c = true) run
      /\ blob = filter (fun c => negb (is_space c)) run)
  /\ Forall (fun c => is_b64_char c = true) blob
  /\ blob <> []
  /\ minLen <= length blob
  /\ 200 <= length txt.
Proof.
  unfold findLongBase64Blob. intros H.
  apply first_long_candidate_spec in H.
  destruct H as [ms1 [m [ms2 [Hms [_ [Hlong ->]]]]]].
  assert (Hin : In m (match_all long_blob_re txt)).
  { rewrite Hms. apply in_or_app. right. now left. }
  destruct (long_blob_match _ _ Hin) as [pre [Hsplit [Hlen [Hall Hg]]]].
  destruct (long_enough_is_length txt minLen m Hin) as [Hb64 _].
  unfold long_enough in Hlong. apply andb_true_iff in Hlong. destruct Hlong as [Hmin Htest].
  apply Nat.leb_le in Hmin.
  assert (Hblob : blob_of m = filter (fun c => negb (is_space c)) (r_text m)).
  { unfold blob_of. rewrite Hg. apply strip_whitespace_filter. }
  split; [|split; [|split; [|split]]].
  - exists pre, (r_text m), (r_after m). auto.
  - exact Hb64.
  - intros Hnil. rewrite Hnil in Htest. discriminate Htest.
  - exact Hmin.
  - rewrite Hsplit, !length_app. lia.
Qed.

Lemma long_blob_comes_from_a_run_witness :
  (exists pre run post,
      lit "k='" ++ repeat (ch "A") 100 ++ [10%N] ++ repeat (ch "B") 100 ++ lit "';"
      = pre ++ run ++ post
      /\ 200 <= length run
      /\ Forall (fun c => is_b64_or_newline c = true) run
      /\ repeat (ch "A") 100 ++ repeat (ch "B") 100
         = filter (fun c => negb (is_space c)) run)
  /\ Forall (fun c => is_b64_char c = true) (repeat (ch "A") 100 ++ repeat (ch "B") 100)
  /\ repeat (ch "A") 100 ++ repeat (ch "B") 100 <> []
  /\ 150 <= length (repeat (ch "A") 100 ++ repeat (ch "B") 100)
  /\ 200 <= length (lit "k='" ++ repeat (ch "A") 100 ++ [10%N] ++ repeat (ch "B") 100 ++ lit "';").
Proof.
  apply (long_blob_comes_from_a_run
           (lit "k='" ++ repeat (ch "A") 100 ++ [10%N] ++ repeat (ch "B") 100 ++ lit "';")
           150 (repeat (ch "A") 100 ++ repeat (ch "B") 100)).
  vm_compute. reflexivity.
Defined.

(** [json_members], one step unfolded. *)
Lemma json_members_eq (f : nat) (s : jsstring) (acc : list (jsstring * jsval)) (first : bool) :
  json_members (S f) s acc first
  = match s with
    | c :: t =>
        if first && char_eqb c (ch "}") then Some (JObj [], t)
        else if char_eqb c DQUOTE then
          match json_string t [] with
          | Some (key, s1) =>
              match skip_ws s1 with
              | d :: u =>
                  if char_eqb d (ch ":") then
                    match json_value f u with
                    | Some (v, s2) =>
                        match skip_ws s2 with
                        | e :: w =>
                            if char_eqb e (ch ",") then
                              json_members f (skip_ws w) ((key, v) :: acc) false
                            else if char_eqb e (ch "}") then
                              Some (JObj (rev ((key, v) :: acc)), w)
                            else None
                        | [] => None
                        end
                    | None => None
                    end
                  else None
              | [] => None
              end
          | None => None
          end
        else None
    | [] => None
    end.
Proof. reflexivity. Qed.

(** What [json_members] returns is an object. *)
Lemma json_members_object (f : nat) :
  forall s acc first v rest,
    json_members f s acc first = Some (v, rest) -> exists members, v = JObj members.
Proof.
  induction f as [|f IH]; intros s acc first v rest H; [discriminate H|].
  rewrite json_members_eq in H.
  destruct s as [|c t]; [discriminate|].
  destruct (first && char_eqb c (ch "}")); [injection H as <- _; eauto|].
  destruct (char_eqb c DQUOTE); [|discriminate].
  destruct (json_string t []) as [[key s1]|]; [|discriminate].
  destruct (skip_ws s1) as [|d u]; [discriminate|].
  destruct (char_eqb d (ch ":")); [|discriminate].
  destruct (json_value f u) as [[v0 s2]|]; [|discriminate].
  destruct (skip_ws s2) as [|e w]; [discriminate|].
  destruct (char_eqb e (ch ",")); [exact (IH _ _ _ _ _ H)|].
  destruct (char_eqb e (ch "}")); [injection H as <- _; eauto|discriminate].
Qed.

(** A text that starts with an opening brace parses to an object, if it
    parses. *)
Lemma JSON_parse_brace (t : jsstring) (v : jsval) :
  JSON_parse (ch "{" :: t) = Some v -> exists members, v = JObj members.
Proof.
  unfold JSON_parse. intros H.
  destruct (json_value _ _) as [[v0 rest]|] eqn:Hv; [|discriminate].
  destruct (skip_ws rest); [|discriminate]. injection H as <-.
  replace (2 * length (ch "{" :: t) + 2) with (S (2 * length t + 3)) in Hv
    by (cbn [length]; lia).
  cbn [json_value] in Hv.
  change (skip_ws (ch "{" :: t)) with (ch "{" :: t) in Hv. cbv iota in Hv.
  change (char_eqb (ch "{") (ch "{")) with true in Hv. cbv iota in Hv.
  exact (json_members_object _ _ _ _ _ _ Hv).
Qed.

(** The text of a match of [json_block_re] starts with an opening brace. *)
Lemma json_block_text (txt : jsstring) (m : mresult) :
  exec json_block_re txt = Some m -> exists t, r_text m = ch "{" :: t.
Proof.
  intros H. apply exec_first in H.
  destruct (r_text m) as [|c t]; [discriminate H|].
  change (char_eqb (ch "{") c || false = true) in H.
  rewrite orb_false_r in H. apply N.eqb_eq in H. subst c. eauto.
Qed.

(** X4: what [extractJsonBlock] returns is always an object, never an
    array, a string, a number, a boolean or [null]: the member reads and
    the test [if (parsed)] that follow it are never made on anything else. *)
Theorem json_block_is_an_object (txt : jsstring) (parsed : jsval) :
  extractJsonBlock txt = Some parsed ->
  (exists members, parsed = JObj members)
  /\ truthy parsed = true
  /\ typeof_object parsed = true.
Proof.
  unfold extractJsonBlock. intros H.
  destruct (exec json_block_re txt) as [m|] eqn:Hm; [|discriminate].
  destruct (json_block_text _ _ Hm) as [t Ht]. rewrite Ht in H.
  destruct (JSON_parse_brace _ _ H) as [members ->]. eauto.
Qed.

Lemma json_block_is_an_object_witness :
  (exists members, JObj [(lit "a", JArr [JBool true])] = JObj members)
  /\ truthy (JObj [(lit "a", JArr [JBool true])]) = true
  /\ typeof_object (JObj [(lit "a", JArr [JBool true])]) = true.
Proof.
  apply (json_block_is_an_object
           (lit "[1, {" ++ [DQUOTE] ++ lit "a" ++ [DQUOTE] ++ lit ": [true]} ]")
           (JObj [(lit "a", JArr [JBool true])])).
  vm_compute. reflexivity.
Defined.

(** No match of [json_block_re] before the first opening brace. *)
Lemma json_block_skips (pre s : jsstring) :
  Forall (fun c => is_brace_open c = false) pre ->
  forall pos, search_from json_block_re pos (pre ++ s)
              = search_from json_block_re (pos + length pre) s.
Proof.
  induction 1 as [|c pre Hc _ IH]; intros pos; cbn [app length].
  - now rewrite Nat.add_0_r.
  - cbn [search_from]. rewrite (json_block_not_at c _ pos Hc). rewrite IH.
    now rewrite Nat.add_succ_comm.
Qed.

(** X5: [extractJsonBlock] returns [null] for a text without an opening
    brace, and for a text that has no closing brace after its first
    opening brace. *)
Theorem json_block_needs_braces (txt : jsstring) :
  (Forall (fun c => is_brace_open c = false) txt -> extractJsonBlock txt = None)
  /\ (forall pre post,
        txt = pre ++ ch "{" :: post ->
        Forall (fun c => is_brace_open c = false) pre ->
        Forall (fun c => is_brace_close c = false) post ->
        extractJsonBlock txt = None).
Proof.
  split.
  - intros Hno. unfold extractJsonBlock, exec.
    rewrite <- (app_nil_r txt). rewrite (json_block_skips txt [] Hno). reflexivity.
  - intros pre post -> Hpre Hpost. unfold extractJsonBlock, exec.
    rewrite (json_block_skips pre _ Hpre). cbn [search_from].
    assert (Hat : forall pos, match_at json_block_re pos (ch "{" :: post) = None).
    { intros pos. unfold match_at. rewrite rmatch_json_block. cbn [m_rest m_pos m_caps].
      change (is_brace_open (ch "{")) with true. cbv iota.
      rewrite greedy_any by lia.
      change (fun st2 : mstate => rmatch (c_is "}") st2 (fun st : mstate => Some st))
        with closing_brace.
      now rewrite (last_try_no_brace post Hpost). }
    rewrite Hat.
    assert (Hrest : forall pos, search_from json_block_re pos post = None).
    { clear Hat Hpre. induction post as [|c post IH]; intros pos; [reflexivity|].
      inversion Hpost; subst. cbn [search_from].
      destruct (is_brace_open c) eqn:Hc.
      - unfold is_brace_open in Hc. apply N.eqb_eq in Hc. subst c.
        unfold match_at. rewrite rmatch_json_block. cbn [m_rest m_pos m_caps].
        change (is_brace_open (ch "{")) with true. cbv iota.
        rewrite greedy_any by lia.
        change (fun st2 : mstate => rmatch (c_is "}") st2 (fun st : mstate => Some st))
          with closing_brace.
        rewrite (last_try_no_brace post H2). now apply IH.
      - rewrite (json_block_not_at c _ pos Hc). now apply IH. }
    now rewrite Hrest.
Qed.

Lemma run_seq_reads (r1 r2 : regex) (a b : mstate) (txt : jsstring) :
  run (Seq r1 r2) a b -> reads a b txt ->
  exists m t1 t2,
    txt = t1 ++ t2 /\ run r1 a m /\ reads a m t1 /\ run r2 m b /\ reads m b t2.
Proof.
  intros [m [H1 H2]] Hr.
  destruct (run_reads _ _ _ H1) as [t1 R1].
  destruct (run_reads _ _ _ H2) as [t2 R2].
  exists m, t1, t2. repeat split; try assumption; try apply R1; try apply R2.
  exact (reads_unique _ _ _ _ Hr (reads_trans _ _ _ _ _ R1 R2)).
Qed.

Lemma run_class_reads (g : bool) (mn : nat) (mx : option nat) (p : char -> bool)
      (a b : mstate) (txt : jsstring) :
  run (Quant g mn mx (Chr p)) a b -> reads a b txt ->
  Forall (fun c => p c = true) txt /\ mn <= length txt /\ m_caps b = m_caps a.
Proof.
  intros [n [Hit [Hn _]]] Hr.
  destruct (iter_chr _ _ _ _ _ Hit Hr) as [Hlen [Hall Hcaps]].
  repeat split; [assumption|lia|assumption].
Qed.

Lemma run_chr_reads (p : char -> bool) (a b : mstate) (txt : jsstring) :
  run (Chr p) a b -> reads a b txt ->
  exists c, txt = [c] /\ p c = true /\ m_caps b = m_caps a.
Proof.
  intros [c [t [Hrest [Hc ->]]]] Hr. exists c. repeat split; [|assumption].
  apply (reads_unique _ _ _ _ Hr). split; simpl; [assumption|lia].
Qed.

Lemma run_group_reads (i : nat) (r : regex) (a b : mstate) (txt : jsstring) :
  run (Group i r) a b -> reads a b txt ->
  exists m, run r a m /\ reads a m txt /\ m_caps b = (i, txt) :: m_caps m.
Proof.
  intros [m [H ->]] Hr. exists m.
  assert (R : reads a m txt) by (destruct Hr as [R1 R2]; split; assumption).
  repeat split; try assumption; try apply R.
  cbn [m_caps]. now rewrite (reads_text _ _ _ R).
Qed.

(** What a literal reads. *)
Lemma run_lit (l : list ascii) :
  forall a b txt,
    run (seq_of (map c_is l)) a b -> reads a b txt ->
    txt = map ch l /\ m_caps b = m_caps a.
Proof.
  induction l as [|x l IH]; intros a b txt Hrun Hreads.
  - cbn in Hrun. subst b. apply reads_same in Hreads. subst. auto.
  - assert (Hone : forall a b txt, run (c_is x) a b -> reads a b txt ->
                     txt = [ch x] /\ m_caps b = m_caps a).
    { intros a0 b0 txt0 H0 R0.
      destruct (run_chr_reads _ _ _ _ H0 R0) as [c [-> [Hc Hcaps]]].
      apply N.eqb_eq in Hc. now subst c. }
    destruct l as [|y l'].
    + cbn [map seq_of] in *. now apply Hone.
    + change (seq_of (map c_is (x :: y :: l')))
        with (Seq (c_is x) (seq_of (map c_is (y :: l')))) in Hrun.
      destruct (run_seq_reads _ _ _ _ _ Hrun Hreads) as [m [t1 [t2 [-> [H1 [R1 [H2 R2]]]]]]].
      destruct (Hone _ _ _ H1 R1) as [-> C1].
      destruct (IH _ _ _ H2 R2) as [-> C2].
      split; [reflexivity|congruence].
Qed.

(** What a quoted literal reads: the delimiter, a text, the delimiter. *)
Lemma run_quoted (q : char) (a b : mstate) (txt : jsstring) :
  run (quoted q) a b -> reads a b txt ->
  exists inner, txt = q :: inner ++ [q] /\ m_caps b = m_caps a.
Proof.
  intros Hrun Hreads. unfold quoted in Hrun.
  destruct (run_seq_reads _ _ _ _ _ Hrun Hreads) as [m1 [t1 [t2 [-> [H1 [R1 [H2 R2]]]]]]].
  destruct (run_seq_reads _ _ _ _ _ H2 R2) as [m2 [t3 [t4 [-> [H3 [R3 [H4 R4]]]]]]].
  destruct (run_chr_reads _ _ _ _ H1 R1) as [c1 [-> [Hc1 C1]]].
  destruct (run_class_reads _ _ _ _ _ _ _ H3 R3) as [_ [_ C3]].
  destruct (run_chr_reads _ _ _ _ H4 R4) as [c4 [-> [Hc4 C4]]].
  apply N.eqb_eq in Hc1, Hc4. subst c1 c4.
  exists t3. split; [reflexivity|congruence].
Qed.

Lemma slice_quoted (q : char) (inner : jsstring) :
  slice_1_m1 (q :: inner ++ [q]) = inner.
Proof.
  unfold slice_1_m1. cbn [length skipn]. rewrite length_app. cbn [length].
  replace (S (length inner + 1) - 2) with (length inner + 0) by lia.
  rewrite firstn_app_2. cbn [firstn]. apply app_nil_r.
Qed.

Lemma ends_with_quoted (q : char) (inner : jsstring) :
  ends_with_char q (q :: inner ++ [q]) = true.
Proof.
  unfold ends_with_char. cbn [rev]. rewrite rev_app_distr. cbn [rev app].
  apply char_eqb_refl.
Qed.

(** The literal of a match of [atob_re], once its delimiters are stripped. *)
Lemma atob_inner_quoted (m : mresult) (q : char) (inner : jsstring) :
  is_quote q ->
  r_group 1 m = Some (q :: inner ++ [q]) ->
  atob_inner m = inner.
Proof.
  intros Hq Hg. unfold atob_inner. rewrite Hg.
  assert (Hd : startsWith [q] (q :: inner ++ [q]) && ends_with_char q (q :: inner ++ [q]) = true).
  { cbn [startsWith]. rewrite char_eqb_refl, ends_with_quoted. reflexivity. }
  destruct Hq as [-> | [-> | ->]].
  - rewrite Hd. cbn [orb]. apply slice_quoted.
  - rewrite Hd, orb_true_r. cbn [orb]. apply slice_quoted.
  - rewrite Hd, !orb_true_r. apply slice_quoted.
Qed.

(** X6: every literal that the job collects for decoding is the text
    found in the combined text between two equal delimiters (backticks,
    quotation marks or apostrophes), the first one after [atob(] and
    optional white space, the second one before optional white space and
    a closing parenthesis; the delimiters are not part of the literal. *)
Theorem atob_literal_is_delimited (combinedText inner : jsstring) :
  In inner (atobMatches combinedText) ->
  exists pre ws1 q ws2 post,
    combinedText
    = pre ++ lit "atob(" ++ ws1 ++ q :: inner ++ q :: ws2 ++ ch ")" :: post
    /\ is_quote q
    /\ Forall (fun c => is_space c = true) ws1
    /\ Forall (fun c => is_space c = true) ws2.
Proof.
  unfold atobMatches. intros Hin. apply in_map_iff in Hin.
  destruct Hin as [m [<- Hin]].
  apply matches_from_text in Hin.
  destruct Hin as [pre [pos' [b [Hsplit [Hrun [Hreads Hcaps]]]]]].
  unfold atob_re in Hrun. cbn [seq_of] in Hrun.
  destruct (run_seq_reads _ _ _ _ _ Hrun Hreads) as [m1 [t1 [u1 [E1 [H1 [R1 [K1 S1]]]]]]].
  destruct (run_seq_reads _ _ _ _ _ K1 S1) as [m2 [t2 [u2 [-> [H2 [R2 [K2 S2]]]]]]].
  destruct (run_seq_reads _ _ _ _ _ K2 S2) as [m3 [t3 [u3 [-> [H3 [R3 [K3 S3]]]]]]].
  destruct (run_seq_reads _ _ _ _ _ K3 S3) as [m4 [t4 [u4 [-> [H4 [R4 [K4 S4]]]]]]].
  destruct (run_lit _ _ _ _ H1 R1) as [-> C1].
  destruct (run_class_reads _ _ _ _ _ _ _ H2 R2) as [Hws1 [_ C2]].
  destruct (run_group_reads _ _ _ _ _ H3 R3) as [m5 [H5 [R5 C3]]].
  destruct (run_class_reads _ _ _ _ _ _ _ H4 R4) as [Hws2 [_ C4]].
  destruct (run_chr_reads _ _ _ _ K4 S4) as [c [-> [Hc C5]]].
  apply N.eqb_eq in Hc. subst c.
  assert (Hq : exists q x, is_quote q /\ t3 = q :: x ++ [q]).
  { destruct H5 as [H5 | [H5 | H5]];
      destruct (run_quoted _ _ _ _ H5 R5) as [x [Hx _]];
      [exists BACKTICK, x | exists DQUOTE, x | exists SQUOTE, x];
      (split; [unfold is_quote; auto | exact Hx]). }
  destruct Hq as [q [x [Hq ->]]].
  assert (Hg : r_group 1 m = Some (q :: x ++ [q])).
  { unfold r_group. rewrite Hcaps, C5, C4, C3. cbn [lookup_cap Nat.eqb]. reflexivity. }
  rewrite (atob_inner_quoted m q x Hq Hg).
  exists pre, t2, q, t4, (r_after m). split; [|auto].
  rewrite Hsplit at 1. rewrite E1. unfold lit, ch.
  repeat (rewrite <- ?app_assoc; cbn [app]). reflexivity.
Qed.

Lemma atob_literal_is_delimited_witness :
  exists pre ws1 q ws2 post,
    lit "f(atob( 'QUJD' ), atob(`x`))"
    = pre ++ lit "atob(" ++ ws1 ++ q :: lit "QUJD" ++ q :: ws2 ++ ch ")" :: post
    /\ is_quote q
    /\ Forall (fun c => is_space c = true) ws1
    /\ Forall (fun c => is_space c = true) ws2.
Proof.
  apply (atob_literal_is_delimited (lit "f(atob( 'QUJD' ), atob(`x`))") (lit "QUJD")).
  vm_compute. auto.
Defined.

(* ===================================================================== *)
(** * 27. Lines and pages                                              *)
(* ===================================================================== *)

(** A match of a pattern that is not nullable reads one character at
    least. *)
Lemma match_at_progress (r : regex) (q : nat) (s : jsstring) (m : mresult) :
  nullable r = false ->
  match_at r q s = Some m ->
  s = r_text m ++ r_after m /\ r_end m = q + length (r_text m) /\ r_text m <> [].
Proof.
  intros Hnull Hm. apply match_at_sound in Hm.
  destruct Hm as [b [Hrun [Hreads [_ [_ [Hend Hafter]]]]]].
  pose proof (run_first _ _ _ _ Hrun Hreads) as Hfirst.
  destruct Hreads as [Hrest Hpos]. cbn [m_rest m_pos] in *.
  rewrite Hafter, Hend. repeat split; [assumption|assumption|].
  intros Hnil. rewrite Hnil in Hfirst. cbn in Hfirst. congruence.
Qed.

(** The characters of the pieces of [s.split(re)] are characters of [s]. *)
Lemma split_from_chars (r : regex) (fuel : nat) :
  forall p q piece s x c,
    In x (split_from fuel r p q piece s) -> In c x -> In c piece \/ In c s.
Proof.
  induction fuel as [|fuel IH]; intros p q piece s x c Hx Hc; cbn [split_from] in Hx.
  - destruct Hx as [<- | []]. apply in_app_or in Hc.
    destruct Hc as [Hc | Hc]; [left; now apply in_rev|now right].
  - destruct s as [|c0 s'].
    + destruct Hx as [<- | []]. left. now apply in_rev.
    + assert (Hstep : In x (split_from fuel r p (S q) (c0 :: piece) s') ->
                      In c piece \/ In c (c0 :: s')).
      { intros H. destruct (IH _ _ _ _ _ _ H Hc) as [[<- | H1] | H1];
          [right; now left|now left|right; now right]. }
      destruct (match_at r q (c0 :: s')) as [m|] eqn:Hm; [|now apply Hstep].
      destruct (Nat.eqb (r_end m) p); [now apply Hstep|].
      destruct Hx as [<- | Hx]; [left; now apply in_rev|].
      destruct (IH _ _ _ _ _ _ Hx Hc) as [[] | H1].
      right. apply match_at_sound in Hm.
      destruct Hm as [b [_ [[Hrest _] [_ [_ [_ Hafter]]]]]]. cbn [m_rest] in Hrest.
      rewrite Hrest. apply in_or_app. right. now rewrite <- Hafter.
Qed.

Lemma split_chars (r : regex) (s x : jsstring) (c : char) :
  In x (split r s) -> In c x -> In c s.
Proof.
  unfold split. destruct s as [|c0 s'].
  - destruct (match_at r 0 []); [intros []|]. intros [<- | []] [].
  - intros Hx Hc. destruct (split_from_chars _ _ _ _ _ _ _ _ Hx Hc) as [[] | H]. exact H.
Qed.

(** No piece of [s.split(re)] holds a character at which the pattern
    always matches. *)
Lemma split_from_avoids (r : regex) (P : char -> Prop) :
  nullable r = false ->
  (forall q c s, P c -> match_at r q (c :: s) <> None) ->
  forall fuel p q piece s,
    length s < fuel -> p <= q -> Forall (fun c => ~ P c) piece ->
    Forall (Forall (fun c => ~ P c)) (split_from fuel r p q piece s).
Proof.
  intros Hnull HP. induction fuel as [|fuel IH]; intros p q piece s Hlen Hpq Hpiece; [lia|].
  cbn [split_from]. destruct s as [|c s'].
  - constructor; [|constructor]. now apply Forall_rev.
  - cbn [length] in Hlen.
    destruct (match_at r q (c :: s')) as [m|] eqn:Hm.
    + destruct (match_at_progress _ _ _ _ Hnull Hm) as [Hs [Hend Hne]].
      assert (Hgt : q < r_end m).
      { rewrite Hend. destruct (r_text m); [congruence|cbn [length]; lia]. }
      replace (Nat.eqb (r_end m) p) with false by (symmetry; apply Nat.eqb_neq; lia).
      constructor; [now apply Forall_rev|].
      apply IH; [|lia|constructor].
      apply (f_equal (@length char)) in Hs. rewrite length_app in Hs. cbn [length] in Hs.
      destruct (r_text m); [congruence|cbn [length] in Hs; lia].
    + apply IH; [lia|lia|]. constructor; [|assumption].
      intros Hc. exact (HP q c s' Hc Hm).
Qed.

(** [/\r?\n/] matches at every line feed. *)
Lemma newline_at_line_feed (q : nat) (s : jsstring) :
  match_at newline_re q (LF :: s) <> None.
Proof. unfold match_at, newline_re, LF. cbn. discriminate. Qed.

Lemma drop_while_head (p : char -> bool) (s : jsstring) (c : char) (t : jsstring) :
  drop_while p s = c :: t -> p c = false.
Proof.
  induction s as [|x s IH]; cbn [drop_while]; [discriminate|].
  destruct (p x) eqn:Hx; [exact IH|]. intros H. injection H as <- _. exact Hx.
Qed.

Lemma drop_while_fixed (p : char -> bool) (s : jsstring) :
  match s with [] => True | c :: _ => p c = false end -> drop_while p s = s.
Proof. destruct s as [|c s]; [reflexivity|]. cbn [drop_while]. now intros ->. Qed.

Lemma drop_while_suffix (p : char -> bool) (s : jsstring) :
  exists pre, s = pre ++ drop_while p s.
Proof.
  induction s as [|c s [pre IH]]; [now exists []|]. cbn [drop_while].
  destruct (p c); [|now exists []]. exists (c :: pre). cbn [app]. now rewrite <- IH.
Qed.

(** [trim] leaves a trimmed text as it is. *)
Lemma trim_idempotent (s : jsstring) : trim (trim s) = trim s.
Proof.
  unfold trim.
  set (x := drop_while is_space s).
  set (y := drop_while is_space (rev x)).
  assert (Hy : drop_while is_space y = y).
  { apply drop_while_fixed. destruct y as [|c t] eqn:E; [exact I|].
    exact (drop_while_head _ _ _ _ E). }
  assert (Hx : drop_while is_space (rev y) = rev y).
  { apply drop_while_fixed. destruct (rev y) as [|c t] eqn:E; [exact I|].
    destruct (drop_while_suffix is_space (rev x)) as [sp Hsp]. fold y in Hsp.
    apply (f_equal (@rev char)) in Hsp. rewrite rev_involutive, rev_app_distr, E in Hsp.
    cbn [app] in Hsp. unfold x in Hsp. exact (drop_while_head _ _ _ _ Hsp). }
  rewrite Hx, rev_involutive, Hy. reflexivity.
Qed.

(** X7: every line that the table scan reads is a piece of the page
    without line feed, is not empty, and has no white space at either
    end. *)
Theorem lines_are_trimmed (page2Text line : jsstring) :
  In line (lines_of page2Text) ->
  line <> []
  /\ ~ In LF line
  /\ trim line = line
  /\ (forall c, In c line -> In c page2Text).
Proof.
  unfold lines_of. intros Hin. apply filter_In in Hin. destruct Hin as [Hin Htruthy].
  apply in_map_iff in Hin. destruct Hin as [piece [<- Hpiece]].
  split; [now apply truthy_JStr|].
  split; [|split].
  - intros Hlf. apply In_trim in Hlf.
    assert (Hall : Forall (Forall (fun c => ~ c = LF)) (split newline_re page2Text)).
    { unfold split. destruct page2Text as [|c0 s'].
      - destruct (match_at newline_re 0 []); repeat constructor.
      - apply (split_from_avoids newline_re (fun c => c = LF));
          [reflexivity| |cbn [length]; lia|lia|constructor].
        intros q c s ->. apply newline_at_line_feed. }
    rewrite Forall_forall in Hall. specialize (Hall _ Hpiece).
    rewrite Forall_forall in Hall. exact (Hall _ Hlf eq_refl).
  - apply trim_idempotent.
  - intros c Hc. apply In_trim in Hc. exact (split_chars _ _ _ _ Hpiece Hc).
Qed.

Lemma lines_are_trimmed_witness :
  lit "a  b" <> []
  /\ ~ In LF (lit "a  b")
  /\ trim (lit "a  b") = lit "a  b"
  /\ (forall c, In c (lit "a  b") ->
      In c (lit "  a  b " ++ [13; 10]%N ++ lit "   " ++ [10]%N ++ lit "c")).
Proof.
  apply (lines_are_trimmed (lit "  a  b " ++ [13; 10]%N ++ lit "   " ++ [10]%N ++ lit "c")
           (lit "a  b")).
  vm_compute. auto.
Defined.

Lemma split_char_no_sep (sep : char) (s : jsstring) :
  ~ In sep s -> split_char sep s = [s].
Proof.
  induction s as [|c s IH]; intros Hno; cbn [split_char]; [reflexivity|].
  destruct (char_eqb c sep) eqn:Hc.
  - apply N.eqb_eq in Hc. subst c. exfalso. apply Hno. now left.
  - rewrite IH; [reflexivity|]. intros H. apply Hno. now right.
Qed.

Lemma split_char_at (sep : char) (p rest : jsstring) :
  ~ In sep p -> split_char sep (p ++ sep :: rest) = p :: split_char sep rest.
Proof.
  induction p as [|c p IH]; intros Hno; cbn [app split_char].
  - now rewrite char_eqb_refl.
  - destruct (char_eqb c sep) eqn:Hc.
    + apply N.eqb_eq in Hc. subst c. exfalso. apply Hno. now left.
    + rewrite IH; [reflexivity|]. intros H. apply Hno. now right.
Qed.

Lemma split_char_pieces (sep : char) (s : jsstring) :
  Forall (fun x => ~ In sep x) (split_char sep s).
Proof.
  induction s as [|c s IH]; cbn [split_char].
  - constructor; [intros []|constructor].
  - destruct (char_eqb c sep) eqn:Hc.
    + constructor; [intros []|exact IH].
    + destruct (split_char sep s) as [|x l]; inversion IH; subst.
      * constructor; [|constructor]. intros [-> | []]. now rewrite char_eqb_refl in Hc.
      * constructor; [|assumption]. intros [-> | H]; [now rewrite char_eqb_refl in Hc|auto].
Qed.

(** X8: the second page of a document is the text between its first and
    its second form feed (or the end of the text); it holds no form feed,
    and it is empty when the text has no form feed at all. *)
Theorem second_page_is_between_form_feeds (allText : jsstring) :
  ~ In FF (page2_of allText)
  /\ (~ In FF allText -> page2_of allText = [])
  /\ (forall p1 p2 rest,
        allText = p1 ++ FF :: p2 ++ rest ->
        ~ In FF p1 -> ~ In FF p2 ->
        rest = [] \/ (exists t, rest = FF :: t) ->
        page2_of allText = p2).
Proof.
  unfold page2_of. split; [|split].
  - pose proof (split_char_pieces FF allText) as H.
    change 12%N with FF.
    destruct (split_char FF allText) as [|x [|y l]]; [intros []|intros []|].
    inversion H as [|? ? _ H2]; subst. inversion H2; subst. assumption.
  - intros Hno. change 12%N with FF. now rewrite split_char_no_sep.
  - intros p1 p2 rest -> H1 H2 Hrest. change 12%N with FF.
    rewrite split_char_at by assumption.
    destruct Hrest as [-> | [t ->]].
    + rewrite app_nil_r, split_char_no_sep by assumption. reflexivity.
    + rewrite split_char_at by assumption. reflexivity.
Qed.

(** A row without a digit adds nothing to the sum. *)
Lemma add_row_no_digit (idx : Z) (dataLine : jsstring) (sum : number) :
  Forall (fun c => is_digit c = false) dataLine ->
  add_row idx dataLine sum = sum.
Proof.
  intros Hno. rewrite add_row_cell. unfold value_cell.
  destruct (0 <=? idx)%Z; [|reflexivity].
  destruct (nth_error _ _) as [cell|] eqn:Hcell; [|reflexivity].
  apply nth_error_In in Hcell. apply in_map_iff in Hcell.
  destruct Hcell as [piece [<- Hpiece]].
  rewrite number_re_needs_digit; [reflexivity|].
  rewrite Forall_forall in *. intros c Hc.
  apply In_trim in Hc. rewrite strip_currency in Hc. apply filter_In in Hc.
  destruct Hc as [Hc _]. apply In_trim in Hc.
  apply Hno. exact (split_chars _ _ _ _ Hpiece Hc).
Qed.

Lemma sum_rows_no_digit (idx : Z) (rows : list jsstring) :
  Forall (Forall (fun c => is_digit c = false)) rows ->
  forall sum, sum_rows idx rows sum = sum.
Proof.
  induction 1 as [|row rows Hrow _ IH]; intros sum; cbn [sum_rows]; [reflexivity|].
  destruct (ends_table row); [reflexivity|].
  rewrite IH. now apply add_row_no_digit.
Qed.

Lemma table_scan_no_digit (lines : list jsstring) :
  Forall (Forall (fun c => is_digit c = false)) lines ->
  runningSum (table_scan lines) = num_zero.
Proof.
  induction 1 as [|line lines _ Hlines IH]; cbn [table_scan]; [reflexivity|].
  destruct (is_header line); [|exact IH].
  cbn [runningSum]. now apply sum_rows_no_digit.
Qed.

(** The fallback finds no token in a text without a digit. *)
Lemma no_token_without_digit (page2Text : jsstring) :
  Forall (fun c => is_digit c = false) page2Text ->
  match_all any_number_re page2Text = [].
Proof.
  intros Hno. destruct (match_all any_number_re page2Text) as [|m l] eqn:Hm; [reflexivity|].
  exfalso.
  assert (Hin : In m (match_all any_number_re page2Text)) by (rewrite Hm; now left).
  destruct (any_number_re_shape _ _ Hin) as [neg [d [rest [Htxt Hd]]]].
  unfold match_all in Hin. apply matches_from_text in Hin.
  destruct Hin as [pre [pos' [b [Hsplit _]]]].
  rewrite Forall_forall in Hno.
  assert (Hd' : In d page2Text).
  { rewrite Hsplit, Htxt. apply in_or_app. right. apply in_or_app. left.
    apply in_or_app. right. now left. }
  rewrite (Hno d Hd') in Hd. discriminate.
Qed.

Lemma page_sum_no_digit (page2Text : jsstring) :
  Forall (fun c => is_digit c = false) page2Text ->
  page_sum page2Text = num_zero.
Proof.
  intros Hno. unfold page_sum.
  destruct (foundHeader (table_scan (lines_of page2Text))).
  - apply table_scan_no_digit. rewrite Forall_forall. intros line Hline.
    rewrite Forall_forall in *. intros c Hc. apply Hno.
    unfold lines_of in Hline. apply filter_In in Hline. destruct Hline as [Hline _].
    apply in_map_iff in Hline. destruct Hline as [piece [<- Hpiece]].
    apply In_trim in Hc. exact (split_chars _ _ _ _ Hpiece Hc).
  - unfold fallback_sum. now rewrite no_token_without_digit.
Qed.

Lemma answer_of_zero (E : Env) (page2Text : jsstring) :
  page_sum page2Text = num_zero -> answer E page2Text = num_zero.
Proof. unfold answer. intros ->. reflexivity. Qed.

(** X9: a second page that holds no digit gives the answer 0, whether it
    has a header line or not: a row without a digit adds nothing, and the
    fallback finds no token. *)
Theorem page_without_digits_answers_zero (E : Env) (page2Text : jsstring) :
  Forall (fun c => is_digit c = false) page2Text ->
  page_sum page2Text = num_zero
  /\ answer E page2Text = num_zero
  /\ match_all any_number_re page2Text = []
  /\ (forall idx row sum, In row (lines_of page2Text) -> add_row idx row sum = sum).
Proof.
  intros Hno. split; [|split; [|split]].
  - now apply page_sum_no_digit.
  - apply answer_of_zero. now apply page_sum_no_digit.
  - now apply no_token_without_digit.
  - intros idx row sum Hrow. apply add_row_no_digit.
    rewrite Forall_forall in *. intros c Hc. apply Hno.
    unfold lines_of in Hrow. apply filter_In in Hrow. destruct Hrow as [Hrow _].
    apply in_map_iff in Hrow. destruct Hrow as [piece [<- Hpiece]].
    apply In_trim in Hc. exact (split_chars _ _ _ _ Hpiece Hc).
Qed.

Lemma page_without_digits_answers_zero_witness :
  page_sum (lit "Item   Value" ++ [10%N] ++ lit "Pears   n/a") = num_zero
  /\ answer demo_env (lit "Item   Value" ++ [10%N] ++ lit "Pears   n/a") = num_zero
  /\ match_all any_number_re (lit "Item   Value" ++ [10%N] ++ lit "Pears   n/a") = []
  /\ (forall idx row sum,
        In row (lines_of (lit "Item   Value" ++ [10%N] ++ lit "Pears   n/a")) ->
        add_row idx row sum = sum).
Proof.
  apply (page_without_digits_answers_zero demo_env
           (lit "Item   Value" ++ [10%N] ++ lit "Pears   n/a")).
  vm_compute. repeat constructor.
Defined.

(** X10: a document whose text has no form feed has no second page: the
    job then reads an empty page, finds no line in it, and its answer
    is 0. *)
Theorem document_of_one_page_answers_zero (E : Env) (allText : jsstring) :
  ~ In FF allText ->
  page2_of allText = []
  /\ lines_of (page2_of allText) = []
  /\ answer E (page2_of allText) = num_zero.
Proof.
  intros Hno.
  assert (Hp : page2_of allText = []).
  { unfold page2_of. change 12%N with FF. now rewrite split_char_no_sep. }
  rewrite Hp. repeat split; try reflexivity.
Qed.

Lemma document_of_one_page_answers_zero_witness :
  page2_of (lit "Total 12") = []
  /\ lines_of (page2_of (lit "Total 12")) = []
  /\ answer demo_env (page2_of (lit "Total 12")) = num_zero.
Proof.
  apply (document_of_one_page_answers_zero demo_env (lit "Total 12")).
  vm_compute. intros H. repeat (destruct H as [H | H]; [discriminate H|]). exact H.
Defined.

(* ===================================================================== *)
(** * 28. The requests and the decodings of the resolution             *)
(* ===================================================================== *)

Lemma find_none {A} (p : A -> bool) (l : list A) :
  Forall (fun x => p x = false) l -> find p l = None.
Proof. induction 1 as [|x l Hx _ IH]; cbn [find]; [reflexivity|]. now rewrite Hx. Qed.

Lemma find_some_first {A} (p : A -> bool) (l : list A) (x : A) :
  find p l = Some x ->
  exists pre post, l = pre ++ x :: post /\ p x = true /\ Forall (fun y => p y = false) pre.
Proof.
  induction l as [|y l IH]; cbn [find]; [discriminate|].
  destruct (p y) eqn:Hy.
  - intros H. injection H as <-. exists [], l. auto.
  - intros H. destruct (IH H) as [pre [post [-> [Hx Hpre]]]].
    exists (y :: pre), post. auto.
Qed.

(** A lower-case letter and its upper-case form are both characters of a
    URL. *)
Lemma url_char_of_upper (c : char) : is_url_char (ascii_upper c) = true -> is_url_char c = true.
Proof.
  unfold ascii_upper. destruct (is_lower c) eqn:Hl; [intros _|auto].
  unfold is_lower, in_range in Hl. apply andb_true_iff in Hl. destruct Hl as [H1 H2].
  apply N.leb_le in H1, H2.
  destruct (is_url_char c) eqn:Hu; [reflexivity|exfalso].
  unfold is_url_char in Hu. apply negb_false_iff in Hu.
  unfold is_space, in_range, char_eqb, SQUOTE, DQUOTE in Hu.
  rewrite !orb_true_iff, !andb_true_iff, !N.leb_le, !N.eqb_eq in Hu. lia.
Qed.

Lemma same_ci_Forall (P : char -> Prop) (e w : jsstring) :
  (forall c, P (ascii_upper c) -> P c) ->
  same_ci e w -> Forall P (map ascii_upper w) -> Forall P e.
Proof.
  unfold same_ci. intros HP He Hw. rewrite <- He in Hw. clear He.
  induction e as [|c e IH]; [constructor|].
  cbn [map] in Hw. inversion Hw; subst. constructor; [now apply HP|now apply IH].
Qed.

Lemma same_ci_url_chars (e : jsstring) (w : string) :
  same_ci e (lit w) ->
  forallb is_url_char (map ascii_upper (lit w)) = true ->
  Forall (fun c => is_url_char c = true) e.
Proof.
  intros He Hw. apply (same_ci_Forall _ e (lit w)); [apply url_char_of_upper|exact He|].
  rewrite forallb_forall in Hw. rewrite Forall_forall. exact Hw.
Qed.

Lemma same_ci_app (a b x y : jsstring) : same_ci a x -> same_ci b y -> same_ci (a ++ b) (x ++ y).
Proof. unfold same_ci. intros Ha Hb. now rewrite !map_app, Ha, Hb. Qed.

(** What the start of a URL pattern reads: [http], an optional [s], [://]. *)
Lemma run_scheme (r : regex) (a b : mstate) (txt : jsstring) :
  run (Seq (r_lit_ci "http") (Seq (opt (c_ci "s")) (Seq (r_lit_ci "://") r))) a b ->
  reads a b txt ->
  exists scheme rest m,
    txt = scheme ++ rest
    /\ (same_ci scheme (lit "http://") \/ same_ci scheme (lit "https://"))
    /\ Forall (fun c => is_url_char c = true) scheme
    /\ run r m b /\ reads m b rest.
Proof.
  intros Hrun Hreads.
  destruct (run_seq_reads _ _ _ _ _ Hrun Hreads) as [m1 [t1 [u1 [-> [H1 [R1 [K1 S1]]]]]]].
  destruct (run_seq_reads _ _ _ _ _ K1 S1) as [m2 [t2 [u2 [-> [H2 [R2 [K2 S2]]]]]]].
  destruct (run_seq_reads _ _ _ _ _ K2 S2) as [m3 [t3 [u3 [-> [H3 [R3 [K3 S3]]]]]]].
  destruct (run_lit_ci _ _ _ _ H1 R1) as [E1 _].
  destruct (run_lit_ci _ _ _ _ H3 R3) as [E3 _].
  change (map ch (list_ascii_of_string "http")) with (lit "http") in E1.
  change (map ch (list_ascii_of_string "://")) with (lit "://") in E3.
  pose proof (same_ci_url_chars _ _ E1 eq_refl) as U1.
  pose proof (same_ci_url_chars _ _ E3 eq_refl) as U3.
  exists (t1 ++ t2 ++ t3), u3, m3.
  split; [now rewrite <- !app_assoc|].
  destruct (run_opt_chr _ _ _ _ H2 R2) as [-> | [c [-> Hc]]].
  - split; [left; exact (same_ci_app _ _ _ _ E1 E3)|].
    split; [|auto]. apply Forall_app. auto.
  - assert (E2 : same_ci [c] (lit "s")).
    { unfold same_ci. cbn [map]. apply N.eqb_eq in Hc. now rewrite Hc. }
    split; [right; exact (same_ci_app _ _ _ _ E1 (same_ci_app _ _ _ _ E2 E3))|].
    split; [|auto]. apply Forall_app. split; [assumption|].
    apply Forall_app. split; [|assumption]. exact (same_ci_url_chars _ _ E2 eq_refl).
Qed.

(** What [pdf_url_re] matches. *)
Lemma pdf_url_shape (s : jsstring) (m : mresult) :
  exec pdf_url_re s = Some m ->
  has_http_scheme (r_text m)
  /\ Forall (fun c => is_url_char c = true) (r_text m)
  /\ holds_ci ".pdf" (r_text m).
Proof.
  intros H. apply search_from_text in H.
  destruct H as [pre [b [_ [Hrun [Hreads _]]]]].
  unfold pdf_url_re in Hrun. cbn [seq_of] in Hrun.
  destruct (run_scheme _ _ _ _ Hrun Hreads) as [scheme [rest [m3 [-> [Hs [Us [K3 S3]]]]]]].
  destruct (run_seq_reads _ _ _ _ _ K3 S3) as [m4 [t4 [u4 [-> [H4 [R4 [K4 S4]]]]]]].
  destruct (run_seq_reads _ _ _ _ _ K4 S4) as [m5 [t5 [u5 [-> [H5 [R5 [K5 S5]]]]]]].
  destruct (run_class_reads _ _ _ _ _ _ _ H4 R4) as [U4 _].
  destruct (run_lit_ci _ _ _ _ H5 R5) as [E5 _].
  change (map ch (list_ascii_of_string ".pdf")) with (lit ".pdf") in E5.
  destruct (run_class_reads _ _ _ _ _ _ _ K5 S5) as [U6 _].
  split; [exists scheme, (t4 ++ t5 ++ u5); auto|].
  split.
  - repeat (apply Forall_app; split); try assumption.
    exact (same_ci_url_chars _ _ E5 eq_refl).
  - exists (scheme ++ t4), t5, u5. split; [now rewrite <- !app_assoc|exact E5].
Qed.

(** X11: when no link of the page names a PDF document, the first URL of
    the body text that does is the reference: it starts with [http://] or
    [https://], holds no white space and no quote, and is downloaded as a
    remote URL; nothing is written, fetched or decoded on the way. *)
Theorem body_text_url_is_remote (E : Env) (a : PageArtifacts) (w : world) (m : mresult) :
  Forall (fun l => test pdf_link_re (snd l) = false) (links a) ->
  exec pdf_url_re (bodyText a) = Some m ->
  resolve E a w = RemoteUrl (r_text m)
  /\ snd (find_pdf E a w) = w
  /\ combined_text E a w = None
  /\ has_http_scheme (r_text m)
  /\ Forall (fun c => is_url_char c = true) (r_text m)
  /\ holds_ci ".pdf" (r_text m).
Proof.
  intros Hlinks Hm.
  destruct (pdf_url_match_remote _ _ Hm) as [Htruthy Hfile].
  assert (Hd : direct_search a = JStr (r_text m)).
  { unfold direct_search. now rewrite (find_none _ _ Hlinks), Hm. }
  assert (Hf : find_pdf E a w = (JStr (r_text m), None, w)).
  { unfold find_pdf. now rewrite Hd, Htruthy. }
  split; [|split; [|split]].
  - unfold resolve. rewrite Hf. unfold reference_of. now rewrite Htruthy, Hfile.
  - now rewrite Hf.
  - unfold combined_text. now rewrite Hf.
  - exact (pdf_url_shape _ _ Hm).
Qed.

Lemma body_text_url_is_remote_witness :
  resolve demo_env text_url_page empty_world
  = RemoteUrl (r_text (MResult 10 (lit "HTTPS://quiz.example/files/q.pdf?x=1") [] 46
                         (lit " today")))
  /\ snd (find_pdf demo_env text_url_page empty_world) = empty_world
  /\ combined_text demo_env text_url_page empty_world = None
  /\ has_http_scheme
       (r_text (MResult 10 (lit "HTTPS://quiz.example/files/q.pdf?x=1") [] 46 (lit " today")))
  /\ Forall (fun c => is_url_char c = true)
       (r_text (MResult 10 (lit "HTTPS://quiz.example/files/q.pdf?x=1") [] 46 (lit " today")))
  /\ holds_ci ".pdf"
       (r_text (MResult 10 (lit "HTTPS://quiz.example/files/q.pdf?x=1") [] 46 (lit " today"))).
Proof.
  apply (body_text_url_is_remote demo_env text_url_page empty_world
           (MResult 10 (lit "HTTPS://quiz.example/files/q.pdf?x=1") [] 46 (lit " today"))).
  - repeat constructor.
  - vm_compute. reflexivity.
Defined.

Lemma fetch_scripts_fetched (E : Env) (base : jsstring) (srcs : list jsstring) :
  forall (c : jsstring) (w : world),
    w_fetched (snd (fetch_scripts E base srcs c w))
    = rev (resolved_sources E base srcs) ++ w_fetched w.
Proof.
  induction srcs as [|src rest IH]; intros c w; cbn [fetch_scripts resolved_sources flat_map].
  - reflexivity.
  - destruct (resolve_url E src base) as [resolved|].
    + unfold bind, fetch_text. rewrite IH. cbn [w_fetched app rev].
      fold (resolved_sources E base rest). now rewrite <- app_assoc.
    + rewrite IH. reflexivity.
Qed.

(** The text after the loop over the sources: the text before it, then
    every script that could be fetched, each after two line feeds. *)
Lemma fetch_scripts_text (E : Env) (base : jsstring) (srcs : list jsstring) :
  forall (c : jsstring) (w : world),
    fst (fetch_scripts E base srcs c w)
    = c ++ concat (map (fun t => NLNL ++ t)
                     (script_texts E (w_fetched w) (resolved_sources E base srcs))).
Proof.
  induction srcs as [|src rest IH]; intros c w;
    cbn [fetch_scripts resolved_sources flat_map].
  - cbn [script_texts map concat]. now rewrite app_nil_r.
  - fold (resolved_sources E base rest).
    destruct (resolve_url E src base) as [resolved|]; cbn [app]; [|apply IH].
    unfold bind, fetch_text. cbn [script_texts]. rewrite IH. cbn [w_fetched].
    destruct (fetch_script E (w_fetched w) resolved) as [t|]; [|reflexivity].
    cbn [map concat]. now rewrite <- !app_assoc.
Qed.

Lemma script_texts_length (E : Env) (urls : list jsstring) :
  forall log, length (script_texts E log urls) <= length urls.
Proof.
  induction urls as [|u rest IH]; intros log; cbn [script_texts length]; [lia|].
  specialize (IH (u :: log)). destruct (fetch_script E log u); cbn [length]; lia.
Qed.

Lemma resolved_sources_length (E : Env) (base : jsstring) (srcs : list jsstring) :
  length (resolved_sources E base srcs) <= length srcs.
Proof.
  induction srcs as [|src rest IH]; cbn [resolved_sources flat_map length]; [lia|].
  fold (resolved_sources E base rest).
  destruct (resolve_url E src base); cbn [app length]; lia.
Qed.

Lemma gather_fetched (E : Env) (a : PageArtifacts) (w : world) :
  w_fetched (snd (gather E a w))
  = rev (resolved_sources E (baseUrl a)
           (filter (fun s => truthy (JStr s)) (externalScriptSources a)))
    ++ w_fetched w.
Proof.
  unfold gather, bind, temp_file, write_file, ret.
  destruct (fetch_scripts E (baseUrl a) _ _ _) as [c w1] eqn:Hf.
  cbn [snd w_fetched].
  change w1 with (snd (c, w1)). rewrite <- Hf. now rewrite fetch_scripts_fetched.
Qed.

Lemma atob_try_fetched (E : Env) (b64 : jsstring) (w : world) :
  w_fetched (snd (atob_try E b64 w)) = w_fetched w.
Proof.
  unfold atob_try, bind, decode64.
  destruct (is_pdf _).
  - destruct (save_pdf E "decoded_atob_" _ _) as [v w1] eqn:Hs. cbn [snd ret].
    change w1 with (snd (v, w1)). rewrite <- Hs.
    now rewrite (proj2 (save_pdf_log E _ _ _)).
  - reflexivity.
Qed.

Lemma atob_scan_fetched (E : Env) (l : list jsstring) :
  forall w, w_fetched (snd (atob_scan E l w)) = w_fetched w.
Proof.
  induction l as [|b64 rest IH]; intros w; cbn [atob_scan]; [reflexivity|].
  unfold bind. destruct (atob_try E b64 w) as [hit w1] eqn:Ht.
  assert (H1 : w_fetched w1 = w_fetched w).
  { change w1 with (snd (hit, w1)). rewrite <- Ht. apply atob_try_fetched. }
  destruct hit; [exact H1|]. now rewrite IH.
Qed.

Lemma data_uri_scan_fetched (E : Env) (c : jsstring) (w : world) :
  w_fetched (snd (data_uri_scan E c w)) = w_fetched w.
Proof.
  unfold data_uri_scan. destruct (findDataPdfInText c) as [[|x s]|]; reflexivity.
Qed.

Lemma long_blob_scan_fetched (E : Env) (c : jsstring) (w : world) :
  w_fetched (snd (long_blob_scan E c w)) = w_fetched w.
Proof.
  unfold long_blob_scan. destruct (findLongBase64Blob c 300) as [[|x s]|]; try reflexivity.
  unfold bind, decode64. destruct (is_pdf _); reflexivity.
Qed.

(** The scans 2a to 2d request nothing. *)
Lemma scan_fetched (E : Env) (c : jsstring) (w : world) :
  w_fetched (snd (scan E c w)) = w_fetched w.
Proof.
  unfold scan, bind.
  destruct (data_uri_scan E c w) as [v1 w1] eqn:H1.
  assert (F1 : w_fetched w1 = w_fetched w).
  { change w1 with (snd (v1, w1)). rewrite <- H1. apply data_uri_scan_fetched. }
  destruct ((if truthy v1 then ret v1 else atob_scan E (atobMatches c)) w1) as [v2 w2] eqn:H2.
  assert (F2 : w_fetched w2 = w_fetched w).
  { rewrite <- F1. change w2 with (snd (v2, w2)). rewrite <- H2.
    destruct (truthy v1); [reflexivity|apply atob_scan_fetched]. }
  destruct ((if truthy v2 then ret v2 else long_blob_scan E c) w2) as [v3 w3] eqn:H3.
  cbn [ret snd]. rewrite <- F2. change w3 with (snd (v3, w3)). rewrite <- H3.
  destruct (truthy v2); [reflexivity|apply long_blob_scan_fetched].
Qed.

(** X12: when the direct search finds nothing, the job requests every
    external script whose source is not empty and can be resolved against
    the URL of the page, once each and in document order, whether or not
    an earlier request failed; the scans that follow request nothing.  The
    text they search is made of the inline scripts, then the text of every
    requested script that could be fetched, in the order of the requests
    and each after two line feeds, then the body text. *)
Theorem scripts_are_fetched_in_order (E : Env) (a : PageArtifacts) (w : world) :
  truthy (direct_search a) = false ->
  script_fetches E a w
  = resolved_sources E (baseUrl a)
      (filter (fun s => truthy (JStr s)) (externalScriptSources a))
  /\ combined_text E a w
     = Some (join NLNL (inlineScripts a)
             ++ concat (map (fun t => NLNL ++ t)
                          (script_texts E (w_fetched w) (script_fetches E a w)))
             ++ NLNL ++ bodyText a)
  /\ length (script_texts E (w_fetched w) (script_fetches E a w))
     <= length (externalScriptSources a).
Proof.
  intros Hd.
  assert (Hf : script_fetches E a w
               = resolved_sources E (baseUrl a)
                   (filter (fun s => truthy (JStr s)) (externalScriptSources a))).
  { unfold script_fetches, find_pdf. rewrite Hd. unfold bind.
    destruct (gather E a w) as [c w1] eqn:Hg.
    destruct (scan E c w1) as [v w2] eqn:Hs. cbn [ret].
    assert (F : w_fetched w2
                = rev (resolved_sources E (baseUrl a)
                         (filter (fun s => truthy (JStr s)) (externalScriptSources a)))
                  ++ w_fetched w).
    { change w2 with (snd (v, w2)). rewrite <- Hs, scan_fetched.
      change w1 with (snd (c, w1)). rewrite <- Hg. apply gather_fetched. }
    rewrite F. apply appended_many. }
  split; [exact Hf|]. rewrite Hf. split.
  - rewrite (combined_text_built E a w Hd).
    unfold gather, bind, temp_file, write_file, ret.
    pose proof (fetch_scripts_text E (baseUrl a)
                  (filter (fun s => truthy (JStr s)) (externalScriptSources a))
                  (join NLNL (inlineScripts a))
                  (World (S (w_ticks w))
                     ((TEMP_DIR E ++ lit "/" ++ lit "page_"
                         ++ Z_to_string (Z.of_N (Date_now E (w_ticks w))) ++ lit ".html",
                       FText (pageContent a)) :: w_files w)
                     (w_fetched w) (w_decoded w))) as Htxt.
    cbn [w_ticks w_files w_fetched w_decoded fst snd] in *.
    destruct (fetch_scripts E (baseUrl a) _ _ _) as [c w1] eqn:Hfs.
    cbn [fst] in *. rewrite Htxt. now rewrite <- !app_assoc.
  - pose proof (script_texts_length E
                  (resolved_sources E (baseUrl a)
                     (filter (fun s => truthy (JStr s)) (externalScriptSources a)))
                  (w_fetched w)) as H1.
    pose proof (resolved_sources_length E (baseUrl a)
                  (filter (fun s => truthy (JStr s)) (externalScriptSources a))) as H2.
    pose proof (filter_length_le (fun s => truthy (JStr s)) (externalScriptSources a)). lia.
Qed.

Lemma scripts_are_fetched_in_order_witness :
  script_fetches scripts_env scripts_page empty_world
  = resolved_sources scripts_env (baseUrl scripts_page)
      (filter (fun s => truthy (JStr s)) (externalScriptSources scripts_page))
  /\ combined_text scripts_env scripts_page empty_world
     = Some (join NLNL (inlineScripts scripts_page)
             ++ concat (map (fun t => NLNL ++ t)
                          (script_texts scripts_env (w_fetched empty_world)
                             (script_fetches scripts_env scripts_page empty_world)))
             ++ NLNL ++ bodyText scripts_page)
  /\ length (script_texts scripts_env (w_fetched empty_world)
               (script_fetches scripts_env scripts_page empty_world))
     <= length (externalScriptSources scripts_page).
Proof.
  apply (scripts_are_fetched_in_order scripts_env scripts_page empty_world).
  vm_compute. reflexivity.
Defined.

(** On [scripts_page] two scripts are requested and the one that answers
    is searched, between the inline scripts and the body text. *)
Example scripts_page_combined_text :
  script_fetches scripts_env scripts_page empty_world
  = [lit "http://quiz.example/a.js"; lit "http://quiz.example/lib/b.js"]
  /\ combined_text scripts_env scripts_page empty_world
     = Some (lit "var a = 1;" ++ NLNL ++ lit "var b = 2;" ++ NLNL ++ lit "var c = 3;"
             ++ NLNL ++ lit "Quiz").
Proof. split; vm_compute; reflexivity. Qed.

(** X13: the reference that scan 2d takes from the JSON block of the
    combined text is [null] or a string that is not empty and holds
    [.pdf], in any case: step 3 never receives a value that is not a
    string from this scan. *)
Theorem json_scan_yields_a_string (E : Env) (combinedText : jsstring) :
  json_scan E combinedText = JNull
  \/ exists u,
       json_scan E combinedText = JStr u
       /\ u <> []
       /\ holds_ci ".pdf" u
       /\ (exists parsed,
             extractJsonBlock combinedText = Some parsed
             /\ (get_prop (lit "url") parsed = JStr u
                 \/ get_prop (lit "file") parsed = JStr u)).
Proof.
  unfold json_scan.
  destruct (extractJsonBlock combinedText) as [parsed|]; [|now left].
  destruct (truthy parsed); [|now left].
  assert (Hstr : forall v, truthy v && string_and_test E pdf_ext_re v = true ->
                   exists u, v = JStr u /\ u <> [] /\ holds_ci ".pdf" u).
  { intros v H. apply andb_true_iff in H. destruct H as [Ht Htest].
    apply string_and_test_JStr in Htest. destruct Htest as [s [-> Htest]].
    exists s. split; [reflexivity|].
    split; [now apply truthy_JStr|].
    apply pdf_ext_re_spec in Htest. destruct Htest as [pre [e [post [-> He]]]].
    exists pre, e, post. split; [reflexivity|exact He]. }
  destruct (truthy (get_prop (lit "url") parsed)
            && string_and_test E pdf_ext_re (get_prop (lit "url") parsed)) eqn:Hu.
  - destruct (Hstr _ Hu) as [u [Eu [Hne Hpdf]]]. right. exists u. rewrite Eu.
    repeat split; try assumption. exists parsed. auto.
  - destruct (truthy (get_prop (lit "file") parsed)
              && string_and_test E pdf_ext_re (get_prop (lit "file") parsed)) eqn:Hf; [|now left].
    destruct (Hstr _ Hf) as [u [Eu [Hne Hpdf]]]. right. exists u. rewrite Eu.
    repeat split; try assumption. exists parsed. auto.
Qed.

Lemma atob_try_hit_truthy (E : Env) (b64 : jsstring) (w : world) (v : jsval) :
  fst (atob_try E b64 w) = Some v -> truthy v = true.
Proof.
  unfold atob_try, bind, decode64. destruct (is_pdf _).
  - cbn [fst ret]. intros H. injection H as <-. reflexivity.
  - cbn [fst ret]. apply atob_text_hit_truthy.
Qed.

(** The loop over the literals decodes a prefix of them, in order, each
    once; all of them when it finds nothing. *)
Lemma atob_scan_prefix (E : Env) (l : list jsstring) :
  forall w, exists n,
    n <= length l
    /\ w_decoded (snd (atob_scan E l w)) = rev (map strip_whitespace (firstn n l)) ++ w_decoded w
    /\ (truthy (fst (atob_scan E l w)) = false -> n = length l).
Proof.
  induction l as [|b64 rest IH]; intros w; cbn [atob_scan].
  - exists 0. repeat split; auto.
  - unfold bind.
    pose proof (atob_try_decoded E b64 w) as Hdec.
    pose proof (atob_try_hit_truthy E b64 w) as Hhit.
    destruct (atob_try E b64 w) as [hit w1]. cbn [fst snd] in *.
    destruct hit as [v|].
    + exists 1. cbn [ret fst snd firstn map rev app length].
      split; [lia|]. split; [exact Hdec|].
      rewrite (Hhit v eq_refl). discriminate.
    + destruct (IH w1) as [n [Hn [Hlog Hall]]].
      exists (S n). cbn [firstn map rev length].
      split; [lia|]. split; [|intros H; now rewrite (Hall H)].
      rewrite Hlog, Hdec. now rewrite <- app_assoc.
Qed.

(** What the scans 2a to 2d decode. *)
Lemma scan_decoded (E : Env) (c : jsstring) (w1 : world) :
  (exists payload,
      findDataPdfInText c = Some payload /\ payload <> []
      /\ w_decoded (snd (scan E c w1)) = rev [payload] ++ w_decoded w1)
  \/ (data_uri_absent c = true
      /\ exists n,
           n <= length (atobMatches c)
           /\ (w_decoded (snd (scan E c w1))
               = rev (map strip_whitespace (firstn n (atobMatches c))) ++ w_decoded w1
               \/ exists blob,
                    findLongBase64Blob c 300 = Some blob
                    /\ w_decoded (snd (scan E c w1))
                       = rev (map strip_whitespace (atobMatches c) ++ [blob]) ++ w_decoded w1)).
Proof.
  destruct (findDataPdfInText c) as [[|x s]|] eqn:Hf.
  2:{ left. exists (x :: s). split; [reflexivity|]. split; [discriminate|].
      assert (Hscan : scan E c w1 = data_uri_scan E c w1).
      { assert (Ht : truthy (fst (data_uri_scan E c w1)) = true)
          by (unfold data_uri_scan; rewrite Hf; reflexivity).
        destruct (data_uri_scan E c w1) as [v w2] eqn:Hs.
        now apply scan_after_data_uri. }
      rewrite Hscan. unfold data_uri_scan. rewrite Hf. reflexivity. }
  all: right; (split; [unfold data_uri_absent; now rewrite Hf|]).
  all: assert (Hscan : data_uri_scan E c w1 = (JNull, w1))
         by (unfold data_uri_scan; now rewrite Hf).
  all: unfold scan, bind; rewrite Hscan; cbn [truthy].
  all: destruct (atob_scan_prefix E (atobMatches c) w1) as [n [Hn [Hlog Hall]]].
  all: destruct (atob_scan E (atobMatches c) w1) as [v2 w2]; cbn [fst snd] in *.
  all: exists n; (split; [exact Hn|]).
  all: destruct (truthy v2) eqn:Hv2; [left; exact Hlog|].
  all: rewrite (Hall eq_refl) in *; rewrite firstn_all in *.
  all: unfold long_blob_scan.
  all: destruct (findLongBase64Blob c 300) as [[|y blob]|] eqn:Hb;
         [left; exact Hlog| |left; exact Hlog].
  all: right; exists (y :: blob); (split; [reflexivity|]).
  all: unfold bind, decode64; rewrite rev_app_distr; cbn [rev app].
  all: destruct (is_pdf _); cbn [ret snd w_decoded]; now rewrite <- Hlog.
Qed.

(** X14: when the direct search finds nothing, the base64 texts that the
    job decodes are either the payload of the data URI alone, or, without
    a data URI, a prefix of the literals of the decode calls, in the order
    of the text and each once, followed, only when all the literals were
    tried, by the long blob at most. *)
Theorem decodings_follow_the_text (E : Env) (a : PageArtifacts) (w : world) :
  truthy (direct_search a) = false ->
  let c := fst (gather E a w) in
  (exists payload,
      findDataPdfInText c = Some payload /\ payload <> []
      /\ decodings E a w = [payload])
  \/ (data_uri_absent c = true
      /\ exists n,
           n <= length (atobMatches c)
           /\ (decodings E a w = map strip_whitespace (firstn n (atobMatches c))
               \/ exists blob,
                    findLongBase64Blob c 300 = Some blob
                    /\ decodings E a w = map strip_whitespace (atobMatches c) ++ [blob])).
Proof.
  intros Hd. cbv zeta.
  pose proof (gather_decoded E a w) as Hg.
  assert (Hfind : snd (find_pdf E a w) = snd (scan E (fst (gather E a w)) (snd (gather E a w)))).
  { unfold find_pdf. rewrite Hd. unfold bind.
    destruct (gather E a w) as [c w1]. cbn [fst snd].
    destruct (scan E c w1) as [v w2]. reflexivity. }
  assert (Hdec : forall l, w_decoded (snd (find_pdf E a w)) = rev l ++ w_decoded w ->
                           decodings E a w = l).
  { intros l Hl. unfold decodings.
    destruct (find_pdf E a w) as [r w']. cbn [snd] in Hl. rewrite Hl. apply appended_many. }
  rewrite Hfind in Hdec. rewrite <- Hg in Hdec.
  destruct (scan_decoded E (fst (gather E a w)) (snd (gather E a w)))
    as [[payload [Hf [Hne Hlog]]] | [Habs [n [Hn [Hlog | [blob [Hb Hlog]]]]]]].
  - left. exists payload. auto.
  - right. split; [exact Habs|]. exists n. split; [exact Hn|]. left. auto.
  - right. split; [exact Habs|]. exists n. split; [exact Hn|]. right. exists blob. auto.
Qed.

Lemma decodings_follow_the_text_witness :
  let c := fst (gather demo_env three_calls_page empty_world) in
  (exists payload,
      findDataPdfInText c = Some payload /\ payload <> []
      /\ decodings demo_env three_calls_page empty_world = [payload])
  \/ (data_uri_absent c = true
      /\ exists n,
           n <= length (atobMatches c)
           /\ (decodings demo_env three_calls_page empty_world
               = map strip_whitespace (firstn n (atobMatches c))
               \/ exists blob,
                    findLongBase64Blob c 300 = Some blob
                    /\ decodings demo_env three_calls_page empty_world
                       = map strip_whitespace (atobMatches c) ++ [blob])).
Proof.
  apply (decodings_follow_the_text demo_env three_calls_page empty_world).
  vm_compute. reflexivity.
Defined.

(* ===================================================================== *)
(** * 29. The submit URL                                               *)
(* ===================================================================== *)

Lemma holds_ci_nonempty (w : string) (txt : jsstring) :
  lit w <> [] -> holds_ci w txt -> txt <> [].
Proof.
  intros Hw [pre [e [post [-> He]]]] Hnil.
  apply app_eq_nil in Hnil. destruct Hnil as [_ Hnil].
  apply app_eq_nil in Hnil. destruct Hnil as [-> _].
  unfold same_ci in He. cbn [map] in He.
  destruct (lit w); [congruence|discriminate].
Qed.

Lemma test_submit_re (txt : jsstring) : test submit_re txt = true <-> holds_ci "submit" txt.
Proof. apply lit_ci_spec. Qed.

Lemma test_submit_re_false (txt : jsstring) :
  test submit_re txt = false <-> ~ holds_ci "submit" txt.
Proof.
  rewrite <- test_submit_re. destruct (test submit_re txt); split; congruence.
Qed.

(** What [submit_url_re] matches. *)
Lemma submit_url_shape (s : jsstring) (m : mresult) :
  exec submit_url_re s = Some m ->
  has_http_scheme (r_text m)
  /\ Forall (fun c => is_url_char c = true) (r_text m)
  /\ holds_ci "submit" (r_text m)
  /\ exists pre, s = pre ++ r_text m ++ r_after m.
Proof.
  intros H. apply search_from_text in H.
  destruct H as [pre [b [Hsplit [Hrun [Hreads _]]]]].
  remember (r_text m) as txt eqn:Etxt. clear Etxt.
  unfold submit_url_re in Hrun. cbn [seq_of] in Hrun.
  destruct (run_scheme _ _ _ _ Hrun Hreads) as [scheme [rest [m3 [-> [Hs [Us [K3 S3]]]]]]].
  destruct (run_seq_reads _ _ _ _ _ K3 S3) as [m4 [t4 [u4 [-> [H4 [R4 [K4 S4]]]]]]].
  destruct (run_seq_reads _ _ _ _ _ K4 S4) as [m5 [t5 [u5 [-> [H5 [R5 [K5 S5]]]]]]].
  destruct (run_seq_reads _ _ _ _ _ K5 S5) as [m6 [t6 [u6 [-> [H6 [R6 [K6 S6]]]]]]].
  destruct (run_seq_reads _ _ _ _ _ K6 S6) as [m7 [t7 [u7 [-> [H7 [R7 [K7 S7]]]]]]].
  destruct (run_class_reads _ _ _ _ _ _ _ H4 R4) as [U4 _].
  destruct (run_chr_reads _ _ _ _ H5 R5) as [c5 [-> [Hc5 _]]].
  apply N.eqb_eq in Hc5. subst c5.
  destruct (run_class_reads _ _ _ _ _ _ _ H6 R6) as [U6 _].
  destruct (run_lit_ci _ _ _ _ H7 R7) as [E7 _].
  change (map ch (list_ascii_of_string "submit")) with (lit "submit") in E7.
  destruct (run_class_reads _ _ _ _ _ _ _ K7 S7) as [U8 _].
  split; [exists scheme, (t4 ++ [ch "/"] ++ t6 ++ t7 ++ u7); auto|].
  split; [|split].
  - repeat (apply Forall_app; split); try assumption.
    + repeat constructor.
    + exact (same_ci_url_chars _ _ E7 eq_refl).
  - exists (scheme ++ t4 ++ [ch "/"] ++ t6), t7, u7.
    split; [now rewrite <- !app_assoc|exact E7].
  - exists pre. exact Hsplit.
Qed.

(** X15: the submit URL that the job finds on the page is [null] or a
    string that holds [submit], in any case: the href of a link, the
    action of a form, or a URL of the body text that starts with
    [http://] or [https://] and holds no white space and no quote.  It is
    [null] when neither a link, a form nor the body text holds [submit]. *)
Theorem submit_url_holds_submit (a : PageArtifacts) (actions : list jsstring) :
  (find_submit a actions = JNull
   \/ exists u,
        find_submit a actions = JStr u
        /\ u <> []
        /\ holds_ci "submit" u
        /\ ((exists text, In (text, u) (links a))
            \/ In u actions
            \/ (has_http_scheme u
                /\ Forall (fun c => is_url_char c = true) u
                /\ exists pre post, bodyText a = pre ++ u ++ post)))
  /\ (Forall (fun l => ~ holds_ci "submit" (snd l)) (links a) ->
      Forall (fun f => ~ holds_ci "submit" f) actions ->
      ~ holds_ci "submit" (bodyText a) ->
      find_submit a actions = JNull).
Proof.
  assert (Hne : forall u, holds_ci "submit" u -> u <> [])
    by (intros u; apply holds_ci_nonempty; discriminate).
  split.
  - unfold find_submit.
    destruct (find (fun l => test submit_re (snd l)) (links a)) as [[text u]|] eqn:Hl.
    { right. exists u. apply find_some in Hl. destruct Hl as [Hin Ht]. cbn [snd] in *.
      apply test_submit_re in Ht. repeat split; auto. left. now exists text. }
    destruct (find (test submit_re) actions) as [u|] eqn:Hf.
    { right. exists u. apply find_some in Hf. destruct Hf as [Hin Ht].
      apply test_submit_re in Ht. repeat split; auto. }
    destruct (exec submit_url_re (bodyText a)) as [m|] eqn:Hm; [|now left].
    right. exists (r_text m).
    destruct (submit_url_shape _ _ Hm) as [Hs [Hu [Hh [pre Hsplit]]]].
    repeat split; auto. right. right. repeat split; auto.
    exists pre, (r_after m). exact Hsplit.
  - intros Hlinks Hforms Hbody. unfold find_submit.
    rewrite find_none.
    2:{ rewrite Forall_forall in *. intros l Hl. apply test_submit_re_false. now apply Hlinks. }
    rewrite find_none.
    2:{ rewrite Forall_forall in *. intros f Hf. apply test_submit_re_false. now apply Hforms. }
    destruct (exec submit_url_re (bodyText a)) as [m|] eqn:Hm; [|reflexivity].
    exfalso. apply Hbody.
    destruct (submit_url_shape _ _ Hm) as [_ [_ [[p [e [q [Ht He]]]] [pre Hsplit]]]].
    exists (pre ++ p), e, (q ++ r_after m). split; [|exact He].
    rewrite Hsplit, Ht. now rewrite <- !app_assoc.
Qed.

(** X16: the order of the search: the href of the first link that holds
    [submit] is taken whatever the forms and the body text hold; without
    such a link, the action of the first form that holds [submit] is
    taken whatever the body text holds. *)
Theorem submit_link_before_form_before_text (a : PageArtifacts) (actions : list jsstring) :
  (forall pre l post,
      links a = pre ++ l :: post ->
      Forall (fun x => ~ holds_ci "submit" (snd x)) pre ->
      holds_ci "submit" (snd l) ->
      find_submit a actions = JStr (snd l))
  /\ (forall pre f post,
        Forall (fun x => ~ holds_ci "submit" (snd x)) (links a) ->
        actions = pre ++ f :: post ->
        Forall (fun x => ~ holds_ci "submit" x) pre ->
        holds_ci "submit" f ->
        find_submit a actions = JStr f).
Proof.
  assert (Hfind : forall {A} (p : A -> bool) pre x post,
             Forall (fun y => p y = false) pre -> p x = true ->
             find p (pre ++ x :: post) = Some x).
  { intros A p pre x post Hpre Hx. induction Hpre as [|y pre Hy _ IH]; cbn [app find].
    - now rewrite Hx.
    - now rewrite Hy. }
  split.
  - intros pre l post Hl Hpre Hsub. unfold find_submit. rewrite Hl.
    rewrite Hfind; [reflexivity| |now apply test_submit_re].
    rewrite Forall_forall in *. intros x Hx. apply test_submit_re_false. now apply Hpre.
  - intros pre f post Hlinks -> Hpre Hsub. unfold find_submit.
    rewrite find_none.
    2:{ rewrite Forall_forall in *. intros l Hl. apply test_submit_re_false. now apply Hlinks. }
    rewrite Hfind; [reflexivity| |now apply test_submit_re].
    rewrite Forall_forall in *. intros x Hx. apply test_submit_re_false. now apply Hpre.
Qed.

(* ===================================================================== *)
(** * 30. The whole job                                                *)
(* ===================================================================== *)

(** A submit URL found on the page is not replaced by one of the JSON
    block, and the test that could throw is not made. *)
Lemma json_submit_keeps (E : Env) (s : jsval) (c : jsstring) :
  truthy s = true -> json_submit E s c = Some s.
Proof.
  intros Hs. unfold json_submit.
  destruct (extractJsonBlock c) as [parsed|]; [|reflexivity].
  destruct (truthy parsed); [|reflexivity].
  rewrite Hs. cbn [negb andb]. cbv zeta. rewrite Hs. reflexivity.
Qed.

(** When the update of the submit URL throws. *)
Lemma json_submit_throws (E : Env) (s : jsval) (c : jsstring) :
  json_submit E s c = None ->
  truthy s = false
  /\ exists parsed,
       extractJsonBlock c = Some parsed
       /\ truthy (get_prop (lit "submit_url") parsed) = false
       /\ truthy (get_prop (lit "url") parsed) = true
       /\ to_string (Number_toString E) (get_prop (lit "url") parsed) = None.
Proof.
  unfold json_submit.
  destruct (extractJsonBlock c) as [parsed|]; [|discriminate].
  destruct (truthy parsed); [|discriminate].
  cbv zeta. destruct (truthy s) eqn:Hs; cbn [negb andb].
  - rewrite Hs. discriminate.
  - destruct (truthy (get_prop (lit "submit_url") parsed)) eqn:Hsu.
    + rewrite Hsu. discriminate.
    + rewrite Hs. cbn [negb]. unfold truthy_and_test, test_val.
      destruct (truthy (get_prop (lit "url") parsed)) eqn:Hu; [|discriminate].
      destruct (to_string (Number_toString E) (get_prop (lit "url") parsed)) eqn:Hts;
        cbn [option_map]; [destruct (test submit_re _); discriminate|].
      intros _. split; [reflexivity|]. exists parsed. auto.
Qed.

(** The scans with both variables leave the state that [scan] leaves, and
    the reference that it finds. *)
Lemma scan_submit_scan (E : Env) (s : jsval) (c : jsstring) (w : world) :
  snd (scan_submit E s c w) = snd (scan E c w)
  /\ forall pdfUrl s',
       fst (scan_submit E s c w) = Some (pdfUrl, s') -> pdfUrl = fst (scan E c w).
Proof.
  unfold scan_submit, scan, bind.
  destruct (data_uri_scan E c w) as [v1 w1].
  destruct ((if truthy v1 then ret v1 else atob_scan E (atobMatches c)) w1) as [v2 w2].
  destruct ((if truthy v2 then ret v2 else long_blob_scan E c) w2) as [v3 w3].
  cbn [ret fst snd]. split; [reflexivity|].
  intros pdfUrl s'. destruct (truthy v3).
  - intros H. now injection H as <- _.
  - destruct (json_submit E s c); [|discriminate]. intros H. now injection H as <- _.
Qed.

Lemma find_pdf_submit_find_pdf (E : Env) (a : PageArtifacts) (s : jsval) (w : world) :
  snd (find_pdf_submit E a s w) = snd (find_pdf E a w)
  /\ forall pdfUrl s',
       fst (find_pdf_submit E a s w) = Some (pdfUrl, s') ->
       pdfUrl = fst (fst (find_pdf E a w)).
Proof.
  unfold find_pdf_submit, find_pdf.
  destruct (truthy (direct_search a)).
  - cbn [ret fst snd]. split; [reflexivity|]. intros pdfUrl s' H. now injection H as <- _.
  - unfold bind. destruct (gather E a w) as [c w1].
    destruct (scan_submit_scan E s c w1) as [H1 H2].
    destruct (scan E c w1) as [v w2]. cbn [ret fst snd] in *. auto.
Qed.

Lemma find_pdf_submit_keeps (E : Env) (a : PageArtifacts) (s : jsval) (w : world) :
  truthy s = true ->
  fst (find_pdf_submit E a s w) = Some (fst (fst (find_pdf E a w)), s).
Proof.
  intros Hs. unfold find_pdf_submit, find_pdf.
  destruct (truthy (direct_search a)); [reflexivity|].
  unfold bind. destruct (gather E a w) as [c w1].
  unfold scan_submit, scan, bind.
  destruct (data_uri_scan E c w1) as [v1 w2].
  destruct ((if truthy v1 then ret v1 else atob_scan E (atobMatches c)) w2) as [v2 w3].
  destruct ((if truthy v2 then ret v2 else long_blob_scan E c) w3) as [v3 w4].
  cbn [ret fst snd]. destruct (truthy v3); [reflexivity|].
  now rewrite (json_submit_keeps E s c Hs).
Qed.

(** Steps 1 and 2 throw in scan 2d only, on a JSON block whose [url] has
    no conversion to a string, and only when no submit URL was found. *)
Lemma find_pdf_submit_throws (E : Env) (a : PageArtifacts) (s : jsval) (w : world) :
  fst (find_pdf_submit E a s w) = None ->
  truthy s = false
  /\ truthy (direct_search a) = false
  /\ exists parsed,
       extractJsonBlock (fst (gather E a w)) = Some parsed
       /\ truthy (get_prop (lit "submit_url") parsed) = false
       /\ truthy (get_prop (lit "url") parsed) = true
       /\ to_string (Number_toString E) (get_prop (lit "url") parsed) = None.
Proof.
  unfold find_pdf_submit.
  destruct (truthy (direct_search a)); [discriminate|].
  unfold bind. destruct (gather E a w) as [c w1]. cbn [fst].
  unfold scan_submit, bind.
  destruct (data_uri_scan E c w1) as [v1 w2].
  destruct ((if truthy v1 then ret v1 else atob_scan E (atobMatches c)) w2) as [v2 w3].
  destruct ((if truthy v2 then ret v2 else long_blob_scan E c) w3) as [v3 w4].
  cbn [ret fst snd]. destruct (truthy v3); [discriminate|].
  destruct (json_submit E s c) eqn:Hj; [discriminate|]. intros _.
  destruct (json_submit_throws E s c Hj) as [Hs Hp]. auto.
Qed.

(** [run_job], with the reference written as [resolve] gives it. *)
Lemma run_job_resolved (E : Env) (net : Services) (payload : jsval) (a : PageArtifacts)
      (actions : list jsstring) (w : world) :
  let found := find_pdf_submit E a (find_submit a actions) (snd (tick w)) in
  run_job E net payload a actions w
  = match fst found with
    | None => ([], Caught, snd found)
    | Some (_, submitUrl) =>
        match resolve E a (snd (tick w)) with
        | NotFound =>
            (if truthy submitUrl
             then [POST submitUrl (submit_body payload (JStr DEMO_ANSWER))]
             else [],
             Returned, snd found)
        | Failed => ([], Caught, snd found)
        | InlineBytes b => parse_and_submit E net payload submitUrl b (snd found)
        | RemoteUrl u =>
            match fetch_pdf net u with
            | Body b => parse_and_submit E net payload submitUrl b (snd found)
            | NotOk => ([], Returned, snd found)
            | Rejected => ([], Caught, snd found)
            end
        end
    end.
Proof.
  cbv zeta. unfold run_job, bind, resolve.
  destruct (tick w) as [u w0]. cbn [snd].
  destruct (find_pdf_submit_find_pdf E a (find_submit a actions) w0) as [H1 H2].
  destruct (find_pdf_submit E a (find_submit a actions) w0) as [[[pdfUrl submitUrl]|] w1];
    [|reflexivity].
  specialize (H2 pdfUrl submitUrl eq_refl).
  destruct (find_pdf E a w0) as [[pdfUrl' c] w1']. cbn [fst snd] in *. subst. reflexivity.
Qed.

Lemma parse_and_submit_posts (E : Env) (net : Services) (payload submitUrl : jsval)
      (b : buffer) (w : world) :
  fst (parse_and_submit E net payload submitUrl b w)
  = match pdf_text net b with
    | None => ([], Caught)
    | Some allText =>
        (if truthy submitUrl
         then [POST submitUrl (submit_body payload (JNum (answer E (page2_of allText))))]
         else [],
         Finished (answer E (page2_of allText)))
    end.
Proof.
  unfold parse_and_submit, bind, temp_file, write_file.
  destruct (pdf_text net b); reflexivity.
Qed.

(** The endings of the job, one by one: what it posts and how it ends. *)
Lemma run_job_cases (E : Env) (net : Services) (payload : jsval) (a : PageArtifacts)
      (actions : list jsstring) (w : world) :
  let found := fst (find_pdf_submit E a (find_submit a actions) (snd (tick w))) in
  let res := resolve E a (snd (tick w)) in
  let out := fst (run_job E net payload a actions w) in
  (found = None /\ out = ([], Caught))
  \/ exists pdfUrl submitUrl,
       found = Some (pdfUrl, submitUrl)
       /\ ((res = NotFound
            /\ out = (if truthy submitUrl
                      then [POST submitUrl (submit_body payload (JStr DEMO_ANSWER))]
                      else [],
                      Returned))
           \/ (res = Failed /\ out = ([], Caught))
           \/ (exists u, res = RemoteUrl u /\ fetch_pdf net u = NotOk /\ out = ([], Returned))
           \/ (exists u, res = RemoteUrl u /\ fetch_pdf net u = Rejected /\ out = ([], Caught))
           \/ exists b,
                (res = InlineBytes b
                 \/ exists u, res = RemoteUrl u /\ fetch_pdf net u = Body b)
                /\ ((pdf_text net b = None /\ out = ([], Caught))
                    \/ exists allText,
                         pdf_text net b = Some allText
                         /\ out = (if truthy submitUrl
                                   then [POST submitUrl
                                           (submit_body payload
                                              (JNum (answer E (page2_of allText))))]
                                   else [],
                                   Finished (answer E (page2_of allText))))).
Proof.
  cbv zeta. rewrite run_job_resolved. cbv zeta.
  destruct (fst (find_pdf_submit E a (find_submit a actions) (snd (tick w))))
    as [[pdfUrl submitUrl]|]; [|left; split; reflexivity].
  right. exists pdfUrl, submitUrl. split; [reflexivity|].
  assert (Hparse : forall b w1,
            (pdf_text net b = None
             /\ fst (parse_and_submit E net payload submitUrl b w1) = ([], Caught))
            \/ exists allText,
                 pdf_text net b = Some allText
                 /\ fst (parse_and_submit E net payload submitUrl b w1)
                    = (if truthy submitUrl
                       then [POST submitUrl
                               (submit_body payload (JNum (answer E (page2_of allText))))]
                       else [],
                       Finished (answer E (page2_of allText)))).
  { intros b w1. rewrite parse_and_submit_posts.
    destruct (pdf_text net b) as [allText|]; [right; exists allText|left]; split; reflexivity. }
  destruct (resolve E a (snd (tick w))) as [u|b| |].
  - destruct (fetch_pdf net u) as [b| |] eqn:Hf.
    + do 4 right. exists b. split; [right; exists u; split; [reflexivity|exact Hf]|].
      apply Hparse.
    + do 2 right. left. exists u. repeat split; assumption.
    + do 3 right. left. exists u. repeat split; assumption.
  - do 4 right. exists b. split; [left; reflexivity|]. apply Hparse.
  - left. split; reflexivity.
  - right. left. split; reflexivity.
Qed.

Ltac job_cases H :=
  destruct H as
    [[Hfound Hout]
    |[pdfUrl [submitUrl [Hfound
       [[Hres Hout]
       |[[Hres Hout]
        |[[u [Hres [Hfetch Hout]]]
         |[[u [Hres [Hfetch Hout]]]
          |[b [Hres [[Htext Hout]|[allText [Htext Hout]]]]]]]]]]]]].

(** X17: whatever the page, the network and the parser do, the job posts
    one request at most.  The request goes to the submit URL that the job
    has found, which is truthy; its body has the email, the secret and
    the URL of the payload, and its answer is either the demo answer or
    the number with which the job finishes.  Nothing is posted when an
    exception ends the job. *)
Theorem job_posts_at_most_once (E : Env) (net : Services) (payload : jsval)
        (a : PageArtifacts) (actions : list jsstring) (w : world) :
  let posts := fst (fst (run_job E net payload a actions w)) in
  let ending := snd (fst (run_job E net payload a actions w)) in
  length posts <= 1
  /\ (forall to body,
        In (POST to body) posts ->
        (exists pdfUrl,
            fst (find_pdf_submit E a (find_submit a actions) (snd (tick w)))
            = Some (pdfUrl, to))
        /\ truthy to = true
        /\ get_prop (lit "email") body = get_prop (lit "email") payload
        /\ get_prop (lit "secret") body = get_prop (lit "secret") payload
        /\ get_prop (lit "url") body = get_prop (lit "url") payload
        /\ ((get_prop (lit "answer") body = JStr DEMO_ANSWER /\ ending = Returned)
            \/ exists x, get_prop (lit "answer") body = JNum x /\ ending = Finished x))
  /\ (ending = Caught -> posts = []).
Proof.
  cbv zeta. pose proof (run_job_cases E net payload a actions w) as H. cbv zeta in H.
  job_cases H; rewrite Hout; cbn [fst snd].
  1, 3, 4, 5, 6: (split; [cbn; lia|]; split; [intros to body []|reflexivity]).
  - destruct (truthy submitUrl) eqn:Ht; cbn [length].
    + split; [lia|]. split; [|discriminate].
      intros to body [H | []]. injection H as <- <-.
      split; [exists pdfUrl; exact Hfound|].
      repeat split; try assumption. left. split; reflexivity.
    + split; [lia|]. split; [intros to body []|reflexivity].
  - destruct (truthy submitUrl) eqn:Ht; cbn [length].
    + split; [lia|]. split; [|discriminate].
      intros to body [H | []]. injection H as <- <-.
      split; [exists pdfUrl; exact Hfound|].
      repeat split; try assumption. right. eexists. split; reflexivity.
    + split; [lia|]. split; [intros to body []|discriminate].
Qed.

(** X18: when no reference to a document is found, the job does not stop
    silently if it has a submit URL: it posts the demo answer there, once,
    with the email, the secret and the URL of the payload, computes
    nothing and returns.  A submit URL that the page names is the one
    used.  Without a submit URL the job posts nothing.  When the update
    of the submit URL from the JSON block throws, which needs a page that
    names no submit URL, the job ends in its outer catch and posts
    nothing. *)
Theorem no_reference_posts_the_demo_answer (E : Env) (net : Services) (payload : jsval)
        (a : PageArtifacts) (actions : list jsstring) (w : world) :
  resolve E a (snd (tick w)) = NotFound ->
  (truthy (find_submit a actions) = true ->
   fst (run_job E net payload a actions w)
   = ([POST (find_submit a actions)
         (JObj [(lit "email", get_prop (lit "email") payload);
                (lit "secret", get_prop (lit "secret") payload);
                (lit "url", get_prop (lit "url") payload);
                (lit "answer", JStr (lit "demo-answer-from-server"))])],
      Returned))
  /\ (forall pdfUrl submitUrl,
        fst (find_pdf_submit E a (find_submit a actions) (snd (tick w)))
        = Some (pdfUrl, submitUrl) ->
        fst (run_job E net payload a actions w)
        = (if truthy submitUrl
           then [POST submitUrl
                   (JObj [(lit "email", get_prop (lit "email") payload);
                          (lit "secret", get_prop (lit "secret") payload);
                          (lit "url", get_prop (lit "url") payload);
                          (lit "answer", JStr (lit "demo-answer-from-server"))])]
           else [],
           Returned))
  /\ (fst (find_pdf_submit E a (find_submit a actions) (snd (tick w))) = None ->
      truthy (find_submit a actions) = false
      /\ fst (run_job E net payload a actions w) = ([], Caught)).
Proof.
  intros Hnone.
  assert (Hsome : forall pdfUrl submitUrl,
            fst (find_pdf_submit E a (find_submit a actions) (snd (tick w)))
            = Some (pdfUrl, submitUrl) ->
            fst (run_job E net payload a actions w)
            = (if truthy submitUrl
               then [POST submitUrl (submit_body payload (JStr DEMO_ANSWER))]
               else [],
               Returned)).
  { intros p s Hf. rewrite run_job_resolved. cbv zeta. rewrite Hf, Hnone. reflexivity. }
  split; [|split].
  - intros Ht.
    rewrite (Hsome _ _ (find_pdf_submit_keeps E a _ (snd (tick w)) Ht)), Ht. reflexivity.
  - exact Hsome.
  - intros Hf. split.
    + exact (proj1 (find_pdf_submit_throws E a _ _ Hf)).
    + rewrite run_job_resolved. cbv zeta. now rewrite Hf.
Qed.

Lemma no_reference_posts_the_demo_answer_witness :
  (truthy (find_submit config_page demo_actions) = true ->
   fst (run_job demo_env demo_net demo_payload config_page demo_actions empty_world)
   = ([POST (find_submit config_page demo_actions)
         (JObj [(lit "email", get_prop (lit "email") demo_payload);
                (lit "secret", get_prop (lit "secret") demo_payload);
                (lit "url", get_prop (lit "url") demo_payload);
                (lit "answer", JStr (lit "demo-answer-from-server"))])],
      Returned))
  /\ (forall pdfUrl submitUrl,
        fst (find_pdf_submit demo_env config_page (find_submit config_page demo_actions)
               (snd (tick empty_world)))
        = Some (pdfUrl, submitUrl) ->
        fst (run_job demo_env demo_net demo_payload config_page demo_actions empty_world)
        = (if truthy submitUrl
           then [POST submitUrl
                   (JObj [(lit "email", get_prop (lit "email") demo_payload);
                          (lit "secret", get_prop (lit "secret") demo_payload);
                          (lit "url", get_prop (lit "url") demo_payload);
                          (lit "answer", JStr (lit "demo-answer-from-server"))])]
           else [],
           Returned))
  /\ (fst (find_pdf_submit demo_env config_page (find_submit config_page demo_actions)
             (snd (tick empty_world))) = None ->
      truthy (find_submit config_page demo_actions) = false
      /\ fst (run_job demo_env demo_net demo_payload config_page demo_actions empty_world)
         = ([], Caught)).
Proof.
  apply (no_reference_posts_the_demo_answer demo_env demo_net demo_payload config_page
           demo_actions empty_world).
  vm_compute. reflexivity.
Defined.

(** X19: when the reference is resolved to a document (bytes kept in a
    file of the job, or a URL whose download succeeds) and the parser
    gives its text, the job finishes with the answer computed from the
    second page, unless it was ended before by the exception of scan 2d.
    If the page names a submit URL, there is no such exception: the
    answer is posted to that URL, once, and a submit URL of the JSON block
    is not used.  If the job has no submit URL after its scans, the
    answer is computed and posted nowhere. *)
Theorem computed_answer_is_posted (E : Env) (net : Services) (payload : jsval)
        (a : PageArtifacts) (actions : list jsstring) (w : world)
        (b : buffer) (allText : jsstring) :
  resolve E a (snd (tick w)) = InlineBytes b
  \/ (exists u, resolve E a (snd (tick w)) = RemoteUrl u /\ fetch_pdf net u = Body b) ->
  pdf_text net b = Some allText ->
  (truthy (find_submit a actions) = true ->
   fst (run_job E net payload a actions w)
   = ([POST (find_submit a actions)
         (JObj [(lit "email", get_prop (lit "email") payload);
                (lit "secret", get_prop (lit "secret") payload);
                (lit "url", get_prop (lit "url") payload);
                (lit "answer", JNum (answer E (page2_of allText)))])],
      Finished (answer E (page2_of allText))))
  /\ (forall pdfUrl submitUrl,
        fst (find_pdf_submit E a (find_submit a actions) (snd (tick w)))
        = Some (pdfUrl, submitUrl) ->
        snd (fst (run_job E net payload a actions w))
        = Finished (answer E (page2_of allText))
        /\ (truthy submitUrl = false ->
            fst (fst (run_job E net payload a actions w)) = []))
  /\ (fst (find_pdf_submit E a (find_submit a actions) (snd (tick w))) = None ->
      truthy (find_submit a actions) = false
      /\ fst (run_job E net payload a actions w) = ([], Caught)).
Proof.
  intros Hres Htext.
  assert (Hsome : forall pdfUrl submitUrl,
            fst (find_pdf_submit E a (find_submit a actions) (snd (tick w)))
            = Some (pdfUrl, submitUrl) ->
            fst (run_job E net payload a actions w)
            = (if truthy submitUrl
               then [POST submitUrl
                       (submit_body payload (JNum (answer E (page2_of allText))))]
               else [],
               Finished (answer E (page2_of allText)))).
  { intros p s Hf. rewrite run_job_resolved. cbv zeta. rewrite Hf.
    destruct Hres as [-> | [u [-> ->]]]; now rewrite parse_and_submit_posts, Htext. }
  split; [|split].
  - intros Ht.
    rewrite (Hsome _ _ (find_pdf_submit_keeps E a _ (snd (tick w)) Ht)), Ht. reflexivity.
  - intros p s Hf. rewrite (Hsome p s Hf). cbn [fst snd]. split; [reflexivity|].
    now intros ->.
  - intros Hf. split.
    + exact (proj1 (find_pdf_submit_throws E a _ _ Hf)).
    + rewrite run_job_resolved. cbv zeta. now rewrite Hf.
Qed.

Lemma computed_answer_is_posted_witness :
  (truthy (find_submit data_uri_page demo_actions) = true ->
   fst (run_job demo_env demo_net demo_payload data_uri_page demo_actions empty_world)
   = ([POST (find_submit data_uri_page demo_actions)
         (JObj [(lit "email", get_prop (lit "email") demo_payload);
                (lit "secret", get_prop (lit "secret") demo_payload);
                (lit "url", get_prop (lit "url") demo_payload);
                (lit "answer", JNum (answer demo_env (page2_of (lit "ABC"))))])],
      Finished (answer demo_env (page2_of (lit "ABC")))))
  /\ (forall pdfUrl submitUrl,
        fst (find_pdf_submit demo_env data_uri_page (find_submit data_uri_page demo_actions)
               (snd (tick empty_world)))
        = Some (pdfUrl, submitUrl) ->
        snd (fst (run_job demo_env demo_net demo_payload data_uri_page demo_actions
                    empty_world))
        = Finished (answer demo_env (page2_of (lit "ABC")))
        /\ (truthy submitUrl = false ->
            fst (fst (run_job demo_env demo_net demo_payload data_uri_page demo_actions
                        empty_world)) = []))
  /\ (fst (find_pdf_submit demo_env data_uri_page (find_submit data_uri_page demo_actions)
             (snd (tick empty_world))) = None ->
      truthy (find_submit data_uri_page demo_actions) = false
      /\ fst (run_job demo_env demo_net demo_payload data_uri_page demo_actions empty_world)
         = ([], Caught)).
Proof.
  apply (computed_answer_is_posted demo_env demo_net demo_payload data_uri_page demo_actions
           empty_world [65; 66; 67]%N (lit "ABC")).
  - left. vm_compute. reflexivity.
  - vm_compute. reflexivity.
Defined.

(** X20: an answer is posted only for what the job has found.  The demo
    answer is posted only when no reference to a document was found; a
    number is posted only when the document was obtained (read from the
    file of the job, or downloaded with an ok status) and the parser gave
    its text, and it is the answer computed from the second page of that
    text; the job finishes only with such an answer.  So nothing is
    posted, not even the demo answer, when the document cannot be obtained
    or read, whatever submit URL the job has: the download answers with a
    status that is not ok, the download or the parser throws, or the
    reference cannot be read. *)
Theorem unreadable_document_posts_nothing (E : Env) (net : Services) (payload : jsval)
        (a : PageArtifacts) (actions : list jsstring) (w : world) :
  let posts := fst (fst (run_job E net payload a actions w)) in
  let ending := snd (fst (run_job E net payload a actions w)) in
  let res := resolve E a (snd (tick w)) in
  (forall to body,
      In (POST to body) posts ->
      (res = NotFound /\ get_prop (lit "answer") body = JStr DEMO_ANSWER)
      \/ exists b allText,
           (res = InlineBytes b \/ exists u, res = RemoteUrl u /\ fetch_pdf net u = Body b)
           /\ pdf_text net b = Some allText
           /\ get_prop (lit "answer") body = JNum (answer E (page2_of allText)))
  /\ (forall x,
        ending = Finished x ->
        exists b allText,
          (res = InlineBytes b \/ exists u, res = RemoteUrl u /\ fetch_pdf net u = Body b)
          /\ pdf_text net b = Some allText
          /\ x = answer E (page2_of allText))
  /\ (res = Failed -> posts = [] /\ ending = Caught)
  /\ (forall u, res = RemoteUrl u ->
        (fetch_pdf net u = NotOk ->
         posts = []
         /\ ending = match fst (find_pdf_submit E a (find_submit a actions) (snd (tick w))) with
                     | Some _ => Returned
                     | None => Caught
                     end)
        /\ (fetch_pdf net u = Rejected -> posts = [] /\ ending = Caught)
        /\ (forall b, fetch_pdf net u = Body b -> pdf_text net b = None ->
            posts = [] /\ ending = Caught))
  /\ (forall b, res = InlineBytes b -> pdf_text net b = None ->
      posts = [] /\ ending = Caught).
Proof.
  cbv zeta. pose proof (run_job_cases E net payload a actions w) as H. cbv zeta in H.
  assert (Hdoc : forall b b',
            resolve E a (snd (tick w)) = InlineBytes b
            \/ (exists u, resolve E a (snd (tick w)) = RemoteUrl u /\ fetch_pdf net u = Body b) ->
            resolve E a (snd (tick w)) = InlineBytes b'
            \/ (exists u, resolve E a (snd (tick w)) = RemoteUrl u
                          /\ fetch_pdf net u = Body b') ->
            b = b').
  { intros b b' [H1 | [u [H1 F1]]] [H2 | [u' [H2 F2]]]; rewrite H1 in H2;
      try discriminate H2; injection H2 as <-; [reflexivity|].
    rewrite F1 in F2. now injection F2. }
  assert (Hok : forall b u,
            resolve E a (snd (tick w)) = InlineBytes b
            \/ (exists u', resolve E a (snd (tick w)) = RemoteUrl u'
                           /\ fetch_pdf net u' = Body b) ->
            resolve E a (snd (tick w)) = RemoteUrl u ->
            fetch_pdf net u <> NotOk /\ fetch_pdf net u <> Rejected).
  { intros b u [H1 | [u' [H1 F1]]] H2; rewrite H1 in H2; [discriminate H2|].
    injection H2 as <-. rewrite F1. split; discriminate. }
  job_cases H; rewrite Hout, Hfound; cbn [fst snd].
  - (* the exception of scan 2d *)
    split; [intros to body []|]. split; [discriminate|].
    split; [auto|]. split; [|auto]. intros u _. repeat split; auto.
  - (* no reference *)
    split.
    { destruct (truthy submitUrl); [|intros to body []].
      intros to body [H | []]. injection H as <- <-. left. split; [exact Hres|reflexivity]. }
    split; [discriminate|]. rewrite Hres.
    split; [discriminate|]. split; [discriminate|discriminate].
  - (* the reference cannot be read *)
    split; [intros to body []|]. split; [discriminate|].
    split; [auto|]. rewrite Hres. split; discriminate.
  - (* status not ok *)
    split; [intros to body []|]. split; [discriminate|]. rewrite Hres.
    split; [discriminate|]. split; [|discriminate].
    intros u' Hu. injection Hu as <-. rewrite Hfetch.
    split; [auto|]. split; [discriminate|discriminate].
  - (* the download throws *)
    split; [intros to body []|]. split; [discriminate|]. rewrite Hres.
    split; [discriminate|]. split; [|discriminate].
    intros u' Hu. injection Hu as <-. rewrite Hfetch.
    split; [discriminate|]. split; [auto|discriminate].
  - (* the parser throws *)
    split; [intros to body []|]. split; [discriminate|].
    split; [auto|]. split; [|auto]. intros u' Hu.
    split; [|auto]. intros Hn. now destruct (Hok b u' Hres Hu).
  - (* the document is read *)
    split.
    { destruct (truthy submitUrl); [|intros to body []].
      intros to body [H | []]. injection H as <- <-. right. exists b, allText.
      split; [exact Hres|]. split; [exact Htext|reflexivity]. }
    split.
    { intros x Hx. injection Hx as <-. exists b, allText. auto. }
    split.
    { intros Hf. destruct Hres as [Hres | [u [Hres _]]]; rewrite Hres in Hf; discriminate Hf. }
    split.
    + intros u' Hu. destruct (Hok b u' Hres Hu) as [Hn1 Hn2]. split; [|split].
      * intros Hn. now destruct Hn1.
      * intros Hn. now destruct Hn2.
      * intros b' Hb' Hnone.
        assert (b = b') by (apply Hdoc; [exact Hres|right; exists u'; auto]).
        subst b'. rewrite Htext in Hnone. discriminate Hnone.
    + intros b' Hb' Hnone.
      assert (b = b') by (apply Hdoc; [exact Hres|left; exact Hb']).
      subst b'. rewrite Htext in Hnone. discriminate Hnone.
Qed.

Lemma wrote_nothing (E : Env) (w w' : world) : w_files w' = w_files w -> wrote_temp_files E w w'.
Proof. intros H. exists []. split; [exact H|constructor]. Qed.

Lemma wrote_then (E : Env) (w1 w2 w3 : world) :
  wrote_temp_files E w1 w2 -> wrote_temp_files E w2 w3 -> wrote_temp_files E w1 w3.
Proof.
  intros [n1 [H1 F1]] [n2 [H2 F2]]. exists (n2 ++ n1).
  split; [now rewrite H2, H1, app_assoc|]. apply Forall_app. auto.
Qed.

Lemma temp_file_in_temp_dir (E : Env) (prefix suffix : string) (w : world) :
  in_temp_dir E (fst (temp_file E prefix suffix w)).
Proof.
  unfold in_temp_dir, temp_file. cbn [fst]. rewrite app_assoc. apply startsWith_app.
Qed.

(** A file written under a name that [temp_file] gives. *)
Lemma wrote_one (E : Env) (prefix suffix : string) (d : file_data) (w w' : world) :
  w_files w' = (fst (temp_file E prefix suffix w), d) :: w_files w ->
  wrote_temp_files E w w'.
Proof.
  intros H. exists [(fst (temp_file E prefix suffix w), d)]. split; [exact H|].
  constructor; [apply temp_file_in_temp_dir|constructor].
Qed.

Lemma save_pdf_wrote (E : Env) (prefix : string) (buf : buffer) (w : world) :
  wrote_temp_files E w (snd (save_pdf E prefix buf w)).
Proof. apply (wrote_one E prefix ".pdf" (FBytes buf)). reflexivity. Qed.

Lemma data_uri_scan_wrote (E : Env) (c : jsstring) (w : world) :
  wrote_temp_files E w (snd (data_uri_scan E c w)).
Proof.
  unfold data_uri_scan. destruct (findDataPdfInText c) as [[|x s]|];
    try (apply wrote_nothing; reflexivity).
  unfold bind, decode64.
  apply (wrote_one E "embedded_" ".pdf" (FBytes (Buffer_from_base64 E (x :: s)))). reflexivity.
Qed.

Lemma atob_try_wrote (E : Env) (b64 : jsstring) (w : world) :
  wrote_temp_files E w (snd (atob_try E b64 w)).
Proof.
  unfold atob_try, bind, decode64. destruct (is_pdf _).
  - apply (wrote_one E "decoded_atob_" ".pdf"
             (FBytes (Buffer_from_base64 E (strip_whitespace b64)))). reflexivity.
  - apply (wrote_one E "decoded_atob_text_" ".txt"
             (FText (buf_toString (Buffer_from_base64 E (strip_whitespace b64))))). reflexivity.
Qed.

Lemma atob_scan_wrote (E : Env) (l : list jsstring) :
  forall w, wrote_temp_files E w (snd (atob_scan E l w)).
Proof.
  induction l as [|b64 rest IH]; intros w; cbn [atob_scan].
  - apply wrote_nothing. reflexivity.
  - unfold bind. pose proof (atob_try_wrote E b64 w) as H1.
    destruct (atob_try E b64 w) as [hit w1]. cbn [snd] in H1.
    destruct hit; [exact H1|]. exact (wrote_then _ _ _ _ H1 (IH w1)).
Qed.

Lemma long_blob_scan_wrote (E : Env) (c : jsstring) (w : world) :
  wrote_temp_files E w (snd (long_blob_scan E c w)).
Proof.
  unfold long_blob_scan. destruct (findLongBase64Blob c 300) as [[|x s]|];
    try (apply wrote_nothing; reflexivity).
  unfold bind, decode64. destruct (is_pdf _).
  - apply (wrote_one E "long_b64_" ".pdf" (FBytes (Buffer_from_base64 E (x :: s)))). reflexivity.
  - apply wrote_nothing. reflexivity.
Qed.

Lemma scan_submit_wrote (E : Env) (s : jsval) (c : jsstring) (w : world) :
  wrote_temp_files E w (snd (scan_submit E s c w)).
Proof.
  unfold scan_submit, bind.
  pose proof (data_uri_scan_wrote E c w) as H1.
  destruct (data_uri_scan E c w) as [v1 w1]. cbn [snd] in H1.
  assert (H2 : wrote_temp_files E w1
                 (snd ((if truthy v1 then ret v1 else atob_scan E (atobMatches c)) w1))).
  { destruct (truthy v1); [apply wrote_nothing; reflexivity|apply atob_scan_wrote]. }
  destruct ((if truthy v1 then ret v1 else atob_scan E (atobMatches c)) w1) as [v2 w2].
  cbn [snd] in H2.
  assert (H3 : wrote_temp_files E w2
                 (snd ((if truthy v2 then ret v2 else long_blob_scan E c) w2))).
  { destruct (truthy v2); [apply wrote_nothing; reflexivity|apply long_blob_scan_wrote]. }
  destruct ((if truthy v2 then ret v2 else long_blob_scan E c) w2) as [v3 w3].
  cbn [snd ret] in *. exact (wrote_then _ _ _ _ H1 (wrote_then _ _ _ _ H2 H3)).
Qed.

Lemma fetch_scripts_files (E : Env) (base : jsstring) (srcs : list jsstring) :
  forall (c : jsstring) (w : world),
    w_files (snd (fetch_scripts E base srcs c w)) = w_files w.
Proof.
  induction srcs as [|src rest IH]; intros c w; cbn [fetch_scripts]; [reflexivity|].
  destruct (resolve_url E src base); [|apply IH].
  unfold bind, fetch_text. rewrite IH. reflexivity.
Qed.

Lemma gather_wrote (E : Env) (a : PageArtifacts) (w : world) :
  wrote_temp_files E w (snd (gather E a w)).
Proof.
  unfold gather, bind, write_file, ret.
  set (w0 := snd (temp_file E "page_" ".html" w)).
  set (n0 := fst (temp_file E "page_" ".html" w)).
  change (temp_file E "page_" ".html" w) with (n0, w0). cbv iota.
  pose proof (fetch_scripts_files E (baseUrl a)
                (filter (fun s => truthy (JStr s)) (externalScriptSources a))
                (join NLNL (inlineScripts a))
                (World (w_ticks w0) ((n0, FText (pageContent a)) :: w_files w0)
                   (w_fetched w0) (w_decoded w0))) as Hf.
  destruct (fetch_scripts E (baseUrl a) _ _ _) as [c w1]. cbn [snd w_files] in Hf.
  apply (wrote_then E w (World (w_ticks w0) ((n0, FText (pageContent a)) :: w_files w0)
                          (w_fetched w0) (w_decoded w0))).
  - apply (wrote_one E "page_" ".html" (FText (pageContent a))). reflexivity.
  - apply (wrote_then E _ w1); [apply wrote_nothing; exact Hf|].
    apply (wrote_one E "scripts_combined_" ".txt" (FText (c ++ NLNL ++ bodyText a))).
    reflexivity.
Qed.

Lemma find_pdf_submit_wrote (E : Env) (a : PageArtifacts) (s : jsval) (w : world) :
  wrote_temp_files E w (snd (find_pdf_submit E a s w)).
Proof.
  unfold find_pdf_submit. destruct (truthy (direct_search a)).
  - apply wrote_nothing. reflexivity.
  - unfold bind. pose proof (gather_wrote E a w) as H1.
    destruct (gather E a w) as [c w1]. cbn [snd] in H1.
    exact (wrote_then _ _ _ _ H1 (scan_submit_wrote E s c w1)).
Qed.

Lemma parse_and_submit_wrote (E : Env) (net : Services) (payload submitUrl : jsval)
      (b : buffer) (w : world) :
  wrote_temp_files E w (snd (parse_and_submit E net payload submitUrl b w)).
Proof.
  unfold parse_and_submit, bind, write_file.
  destruct (pdf_text net b); apply (wrote_one E "quiz_saved_" ".pdf" (FBytes b)); reflexivity.
Qed.

Lemma read_file_outside (E : Env) (name : jsstring)
      (new old : list (jsstring * file_data)) :
  startsWith (TEMP_DIR E ++ lit "/") name = false ->
  Forall (fun f => in_temp_dir E (fst f)) new ->
  read_file name (new ++ old) = read_file name old.
Proof.
  intros Hout. induction 1 as [|[n d] new Hn _ IH]; cbn [app read_file]; [reflexivity|].
  destruct (str_eqb n name) eqn:Heq; [|exact IH].
  apply str_eqb_eq in Heq. subst n. unfold in_temp_dir in Hn. cbn [fst] in Hn. congruence.
Qed.

(** X21: whatever the page, the network and the parser do, every file
    that the job writes has a name in its temporary directory; a file
    with a name outside that directory reads after the job as it did
    before. *)
Theorem job_writes_only_temp_files (E : Env) (net : Services) (payload : jsval)
        (a : PageArtifacts) (actions : list jsstring) (w : world) :
  (exists new,
      w_files (snd (run_job E net payload a actions w)) = new ++ w_files w
      /\ Forall (fun f => startsWith (TEMP_DIR E ++ lit "/") (fst f) = true) new)
  /\ (forall name,
        startsWith (TEMP_DIR E ++ lit "/") name = false ->
        read_file name (w_files (snd (run_job E net payload a actions w)))
        = read_file name (w_files w)).
Proof.
  assert (Hw : wrote_temp_files E w (snd (run_job E net payload a actions w))).
  { rewrite run_job_resolved. cbv zeta.
    pose proof (find_pdf_submit_wrote E a (find_submit a actions) (snd (tick w))) as H1.
    set (found := find_pdf_submit E a (find_submit a actions) (snd (tick w))) in *.
    assert (H0 : wrote_temp_files E w (snd found))
      by (apply (wrote_then E w (snd (tick w))); [apply wrote_nothing; reflexivity|exact H1]).
    assert (Hp : forall s b, wrote_temp_files E w
                   (snd (parse_and_submit E net payload s b (snd found))))
      by (intros s b; exact (wrote_then _ _ _ _ H0 (parse_and_submit_wrote E net _ _ b _))).
    destruct (fst found) as [[pdfUrl submitUrl]|]; [|exact H0].
    destruct (resolve E a (snd (tick w))) as [u|b| |]; cbn [snd]; auto.
    destruct (fetch_pdf net u); cbn [snd]; auto. }
  split; [exact Hw|].
  intros name Hout. destruct Hw as [new [Hfiles Hnew]]. rewrite Hfiles.
  now apply (read_file_outside E).
Qed.

(** A job is started only on a payload that is valid and has the secret of
    the server. *)
Lemma webhook_started (env : option jsstring) (body payload : jsval) :
  In (StartJob payload) (webhook env body) ->
  payload = body
  /\ validatePayload body = true
  /\ get_prop (lit "secret") body = JStr (APP_SECRET env).
Proof.
  unfold webhook. destruct (validatePayload body) eqn:Hv; cbn [negb].
  - destruct (differs_from _ _) eqn:Hd.
    + intros [H | []]. discriminate H.
    + intros [H | [H | []]]; [discriminate H|]. injection H as <-.
      apply differs_from_false in Hd. auto.
  - intros [H | []]. discriminate H.
Qed.

(** X22: every request that a job started by the webhook posts carries
    the secret of the server, whatever URL it is posted to: the href of a
    link, the action of a form, a URL of the body text or a member of a
    JSON block of the page.  Its email and its URL are those of the
    payload, and are truthy. *)
Theorem posted_secret_is_the_server_secret (env : option jsstring) (body payload : jsval)
        (E : Env) (net : Services) (a : PageArtifacts) (actions : list jsstring)
        (w : world) (to posted : jsval) :
  In (StartJob payload) (webhook env body) ->
  In (POST to posted) (fst (fst (run_job E net payload a actions w))) ->
  get_prop (lit "secret") posted = JStr (APP_SECRET env)
  /\ APP_SECRET env <> []
  /\ get_prop (lit "email") posted = get_prop (lit "email") body
  /\ truthy (get_prop (lit "email") posted) = true
  /\ get_prop (lit "url") posted = get_prop (lit "url") body
  /\ truthy (get_prop (lit "url") posted) = true
  /\ truthy to = true.
Proof.
  intros Hstart Hpost.
  destruct (webhook_started _ _ _ Hstart) as [-> [Hvalid Hsecret]].
  apply validatePayload_true in Hvalid. destruct Hvalid as [_ [Hemail [Hs Hurl]]].
  assert (Hbody : truthy to = true
                  /\ exists answer, posted = submit_body body answer).
  { pose proof (run_job_cases E net body a actions w) as H. cbv zeta in H.
    job_cases H; rewrite Hout in Hpost; cbn [fst] in Hpost;
      try (destruct Hpost; fail);
      (destruct (truthy submitUrl) eqn:Ht; [|destruct Hpost]);
      destruct Hpost as [H | []]; injection H as <- <-; eauto. }
  destruct Hbody as [Hto [answer ->]].
  change (get_prop (lit "secret") (submit_body body answer)) with (get_prop (lit "secret") body).
  change (get_prop (lit "email") (submit_body body answer)) with (get_prop (lit "email") body).
  change (get_prop (lit "url") (submit_body body answer)) with (get_prop (lit "url") body).
  repeat split; try assumption.
  rewrite Hsecret in Hs. now apply truthy_JStr.
Qed.

Lemma posted_secret_is_the_server_secret_witness :
  get_prop (lit "secret")
    (submit_body demo_payload (JStr DEMO_ANSWER)) = JStr (APP_SECRET None)
  /\ APP_SECRET None <> []
  /\ get_prop (lit "email") (submit_body demo_payload (JStr DEMO_ANSWER))
     = get_prop (lit "email") demo_payload
  /\ truthy (get_prop (lit "email") (submit_body demo_payload (JStr DEMO_ANSWER))) = true
  /\ get_prop (lit "url") (submit_body demo_payload (JStr DEMO_ANSWER))
     = get_prop (lit "url") demo_payload
  /\ truthy (get_prop (lit "url") (submit_body demo_payload (JStr DEMO_ANSWER))) = true
  /\ truthy (JStr (lit "http://quiz.example/submit")) = true.
Proof.
  apply (posted_secret_is_the_server_secret None demo_payload demo_payload demo_env demo_net
           config_page demo_actions empty_world
           (JStr (lit "http://quiz.example/submit"))
           (submit_body demo_payload (JStr DEMO_ANSWER))).
  - vm_compute. auto.
  - vm_compute. auto.
Defined.

(** The submit URL is left as the page gives it when a reference is found
    before scan 2d. *)
Lemma find_pdf_submit_early (E : Env) (a : PageArtifacts) (s : jsval) (w : world) :
  truthy (direct_search a) = true
  \/ data_uri_absent (fst (gather E a w)) = false ->
  fst (find_pdf_submit E a s w) = Some (fst (fst (find_pdf E a w)), s).
Proof.
  intros Hearly. unfold find_pdf_submit, find_pdf.
  destruct (truthy (direct_search a)) eqn:Hd; [reflexivity|].
  destruct Hearly as [H | Huri]; [discriminate H|].
  unfold bind. destruct (gather E a w) as [c w1]. cbn [fst] in Huri.
  unfold scan_submit, scan, bind.
  assert (Ht : truthy (fst (data_uri_scan E c w1)) = true).
  { unfold data_uri_scan. unfold data_uri_absent in Huri.
    destruct (findDataPdfInText c) as [[|x p]|]; try discriminate Huri. reflexivity. }
  destruct (data_uri_scan E c w1) as [v1 w2]. cbn [fst] in Ht. rewrite Ht.
  cbn [ret]. rewrite Ht. cbn [ret fst snd]. rewrite Ht. reflexivity.
Qed.

(** X23: a submit URL named only in the JSON block of the page is read by
    scan 2d alone.  When the page itself names no submit URL and the
    reference is found earlier (by the direct search, or as a data URI),
    the job posts nothing, whatever the JSON block holds, even when the
    document is read and the answer computed. *)
Theorem json_submit_url_needs_scan_2d (E : Env) (net : Services) (payload : jsval)
        (a : PageArtifacts) (actions : list jsstring) (w : world) :
  truthy (find_submit a actions) = false ->
  truthy (direct_search a) = true
  \/ data_uri_absent (fst (gather E a (snd (tick w)))) = false ->
  fst (find_pdf_submit E a (find_submit a actions) (snd (tick w)))
  = Some (fst (fst (find_pdf E a (snd (tick w)))), find_submit a actions)
  /\ fst (fst (run_job E net payload a actions w)) = []
  /\ (forall b allText,
        resolve E a (snd (tick w)) = InlineBytes b ->
        pdf_text net b = Some allText ->
        fst (run_job E net payload a actions w)
        = ([], Finished (answer E (page2_of allText)))).
Proof.
  intros Hnone Hearly.
  pose proof (find_pdf_submit_early E a (find_submit a actions) (snd (tick w)) Hearly) as Hs.
  split; [exact Hs|].
  rewrite run_job_resolved. cbv zeta. rewrite Hs, Hnone. split.
  - destruct (resolve E a (snd (tick w))) as [u|b| |]; cbn [fst]; try reflexivity.
    + destruct (fetch_pdf net u); cbn [fst]; try reflexivity.
      rewrite parse_and_submit_posts, Hnone. destruct (pdf_text net b); reflexivity.
    + rewrite parse_and_submit_posts, Hnone. destruct (pdf_text net b); reflexivity.
  - intros b allText -> Htext. now rewrite parse_and_submit_posts, Htext, Hnone.
Qed.

Lemma json_submit_url_needs_scan_2d_witness :
  fst (find_pdf_submit demo_env submit_in_json_page (find_submit submit_in_json_page [])
         (snd (tick empty_world)))
  = Some (fst (fst (find_pdf demo_env submit_in_json_page (snd (tick empty_world)))),
          find_submit submit_in_json_page [])
  /\ fst (fst (run_job demo_env demo_net demo_payload submit_in_json_page [] empty_world)) = []
  /\ (forall b allText,
        resolve demo_env submit_in_json_page (snd (tick empty_world)) = InlineBytes b ->
        pdf_text demo_net b = Some allText ->
        fst (run_job demo_env demo_net demo_payload submit_in_json_page [] empty_world)
        = ([], Finished (answer demo_env (page2_of allText)))).
Proof.
  apply (json_submit_url_needs_scan_2d demo_env demo_net demo_payload submit_in_json_page []
           empty_world).
  - vm_compute. reflexivity.
  - right. vm_compute. reflexivity.
Defined.

(* ===================================================================== *)
(** * 31. The header and the cells of the table                        *)
(* ===================================================================== *)

(** The first piece of a split starts with the piece in progress. *)
Lemma split_from_head (r : regex) (fuel : nat) :
  forall p q piece s, exists y tl, split_from fuel r p q piece s = (rev piece ++ y) :: tl.
Proof.
  induction fuel as [|fuel IH]; intros p q piece s; cbn [split_from].
  - eauto.
  - destruct s as [|c s']; [exists [], []; now rewrite app_nil_r|].
    assert (Hstep : exists y tl,
               split_from fuel r p (S q) (c :: piece) s' = (rev piece ++ y) :: tl).
    { destruct (IH p (S q) (c :: piece) s') as [y [tl H]].
      exists (c :: y), tl. rewrite H. cbn [rev]. now rewrite <- app_assoc. }
    destruct (match_at r q (c :: s')) as [m|]; [|exact Hstep].
    destruct (Nat.eqb (r_end m) p); [exact Hstep|].
    exists [], (split_from fuel r (r_end m) (r_end m) [] (r_after m)). now rewrite app_nil_r.
Qed.

Section SplitKeepsWords.
Variable r : regex.
Variable P : char -> Prop.
Hypothesis r_not_nullable : nullable r = false.
Hypothesis r_reads_P : forall q s m, match_at r q s = Some m -> Forall P (r_text m).

(** No match starts at a character outside [P]. *)
Lemma no_match_at (q : nat) (c : char) (s : jsstring) :
  ~ P c -> match_at r q (c :: s) = None.
Proof.
  intros Hc. destruct (match_at r q (c :: s)) as [m|] eqn:Hm; [exfalso|reflexivity].
  destruct (match_at_progress _ _ _ _ r_not_nullable Hm) as [Hs [_ Hne]].
  pose proof (r_reads_P _ _ _ Hm) as Hall.
  destruct (r_text m) as [|c' t]; [congruence|].
  cbn [app] in Hs. injection Hs as <- _. inversion Hall; subst. contradiction.
Qed.

(** The split walks through a word without a character of [P]. *)
Lemma split_from_walk (e : jsstring) :
  Forall (fun c => ~ P c) e ->
  forall fuel p q piece post,
    length e <= fuel ->
    split_from fuel r p q piece (e ++ post)
    = split_from (fuel - length e) r p (q + length e) (rev e ++ piece) post.
Proof.
  induction 1 as [|c e Hc _ IH]; intros fuel p q piece post Hlen.
  - cbn [app length rev]. now rewrite Nat.sub_0_r, Nat.add_0_r.
  - cbn [length] in Hlen. destruct fuel as [|fuel]; [lia|].
    cbn [app split_from]. rewrite (no_match_at q c _ Hc).
    rewrite IH by lia. cbn [length rev]. rewrite <- app_assoc. cbn [app].
    now rewrite Nat.sub_succ, Nat.add_succ_comm.
Qed.

Lemma prefix_before_word (t after s1 e post : jsstring) :
  t ++ after = s1 ++ e ++ post ->
  Forall P t ->
  match e with [] => False | c :: _ => ~ P c end ->
  exists s1', s1 = t ++ s1' /\ after = s1' ++ e ++ post.
Proof.
  revert s1. induction t as [|x t IH]; intros s1 Heq Hall He.
  - exists s1. auto.
  - inversion Hall as [|? ? Hx Ht]; subst.
    destruct s1 as [|y s1].
    + destruct e as [|c e]; [contradiction|]. cbn [app] in Heq. injection Heq as -> _.
      contradiction.
    + cbn [app] in Heq. injection Heq as -> Heq.
      destruct (IH _ Heq Ht He) as [s1' [-> Hafter]]. exists s1'. auto.
Qed.

(** A word without a character of [P] is kept whole in one piece. *)
Lemma split_from_keeps (e post : jsstring) :
  e <> [] -> Forall (fun c => ~ P c) e ->
  forall fuel s1 p q piece,
    length (s1 ++ e ++ post) < fuel ->
    exists x a b, In x (split_from fuel r p q piece (s1 ++ e ++ post)) /\ x = a ++ e ++ b.
Proof.
  intros Hne He. induction fuel as [|fuel IH]; intros s1 p q piece Hlen; [lia|].
  destruct s1 as [|c s1'].
  - cbn [app] in *. rewrite split_from_walk by (try assumption; rewrite length_app in Hlen; lia).
    destruct (split_from_head r (S fuel - length e) p (q + length e) (rev e ++ piece) post)
      as [y [tl Hhead]].
    rewrite Hhead. exists (rev (rev e ++ piece) ++ y), (rev piece), y.
    split; [now left|]. rewrite rev_app_distr, rev_involutive. now rewrite <- app_assoc.
  - cbn [app length] in Hlen. cbn [app split_from].
    assert (Hstep : exists x a b,
               In x (split_from fuel r p (S q) (c :: piece) (s1' ++ e ++ post))
               /\ x = a ++ e ++ b) by (apply IH; lia).
    destruct (match_at r q (c :: s1' ++ e ++ post)) as [m|] eqn:Hm; [|exact Hstep].
    destruct (Nat.eqb (r_end m) p); [exact Hstep|].
    destruct (match_at_progress _ _ _ _ r_not_nullable Hm) as [Hs [_ Htxt]].
    pose proof (r_reads_P _ _ _ Hm) as Hall.
    assert (Hhead : match e with [] => False | c0 :: _ => ~ P c0 end).
    { destruct e as [|c0 e']; [congruence|]. now inversion He. }
    destruct (prefix_before_word (r_text m) (r_after m) (c :: s1') e post (eq_sym Hs) Hall Hhead)
      as [s1'' [Hs1 Hafter]].
    rewrite Hafter.
    destruct (IH s1'' (r_end m) (r_end m) []) as [x [a [b [Hin Hx]]]].
    { apply (f_equal (@length char)) in Hs1. rewrite length_app in Hs1. cbn [length] in Hs1.
      rewrite !length_app in *.
      destruct (r_text m); [congruence|cbn [length] in Hs1; lia]. }
    exists x, a, b. split; [now right|exact Hx].
Qed.
End SplitKeepsWords.

Lemma col_sep_reads_spaces (q : nat) (s : jsstring) (m : mresult) :
  match_at col_sep_re q s = Some m -> Forall (fun c => is_space c = true) (r_text m).
Proof.
  intros Hm. apply match_at_sound in Hm. destruct Hm as [b [Hrun [Hreads _]]].
  exact (proj1 (run_class_reads _ _ _ _ _ _ _ Hrun Hreads)).
Qed.

Lemma not_space_of_upper (c : char) : is_space (ascii_upper c) = false -> is_space c = false.
Proof.
  unfold ascii_upper. destruct (is_lower c) eqn:Hl; [intros _|auto].
  unfold is_lower, in_range in Hl. apply andb_true_iff in Hl. destruct Hl as [H1 H2].
  apply N.leb_le in H1, H2.
  destruct (is_space c) eqn:Hs; [exfalso|reflexivity].
  unfold is_space, in_range in Hs.
  rewrite !orb_true_iff, !andb_true_iff, !N.leb_le, !N.eqb_eq in Hs. lia.
Qed.

Lemma lower_of_upper (c k : char) :
  ascii_upper c = k -> is_upper k = true -> ascii_lower c = (k + 32)%N.
Proof.
  unfold ascii_upper, ascii_lower, is_lower, is_upper, in_range.
  intros Hk Hup. apply andb_true_iff in Hup. destruct Hup as [U1 U2].
  apply N.leb_le in U1, U2.
  destruct ((97 <=? c)%N && (c <=? 122)%N) eqn:Hl.
  - apply andb_true_iff in Hl. destruct Hl as [L1 L2]. apply N.leb_le in L1, L2.
    replace ((65 <=? c)%N && (c <=? 90)%N) with false; [lia|].
    symmetry. apply andb_false_iff. right. apply N.leb_gt. lia.
  - subst k. replace ((65 <=? c)%N && (c <=? 90)%N) with true; [reflexivity|].
    symmetry. apply andb_true_iff. split; now apply N.leb_le.
Qed.

(** A text equal to [value] up to case is [value] in lower case, and holds
    no white space. *)
Lemma value_word (e : jsstring) :
  same_ci e (lit "value") ->
  toLowerCase e = lit "value" /\ e <> [] /\ Forall (fun c => is_space c <> true) e.
Proof.
  intros He. split; [|split].
  - unfold same_ci in He.
    destruct e as [|c1 [|c2 [|c3 [|c4 [|c5 [|c6 e]]]]]]; try discriminate He.
    cbn [map] in He. injection He as H1 H2 H3 H4 H5.
    unfold toLowerCase. cbn [map].
    rewrite (lower_of_upper c1 _ H1 eq_refl), (lower_of_upper c2 _ H2 eq_refl),
      (lower_of_upper c3 _ H3 eq_refl), (lower_of_upper c4 _ H4 eq_refl),
      (lower_of_upper c5 _ H5 eq_refl).
    reflexivity.
  - intros ->. discriminate He.
  - apply (same_ci_Forall (fun c => is_space c <> true) e (lit "value")); [|exact He|].
    + intros c Hc. pose proof (not_space_of_upper c) as H.
      destruct (is_space (ascii_upper c)); [congruence|]. rewrite H; [discriminate|reflexivity].
    + repeat constructor; discriminate.
Qed.

Lemma drop_while_keeps (a e b : jsstring) :
  match e with [] => False | c :: _ => is_space c <> true end ->
  exists a', drop_while is_space (a ++ e ++ b) = a' ++ e ++ b.
Proof.
  intros He. induction a as [|c a [a' IH]]; cbn [app].
  - exists []. destruct e as [|c e]; [contradiction|]. cbn [app drop_while].
    destruct (is_space c); [congruence|reflexivity].
  - cbn [drop_while]. destruct (is_space c); [now exists a'|now exists (c :: a)].
Qed.

(** [trim] keeps a word without white space. *)
Lemma trim_keeps (a e b : jsstring) :
  e <> [] -> Forall (fun c => is_space c <> true) e ->
  exists a' b', trim (a ++ e ++ b) = a' ++ e ++ b'.
Proof.
  intros Hne He. unfold trim.
  assert (H1 : match e with [] => False | c :: _ => is_space c <> true end).
  { destruct e as [|c e']; [congruence|]. now inversion He. }
  destruct (drop_while_keeps a e b H1) as [a' ->].
  rewrite !rev_app_distr, <- app_assoc.
  assert (H2 : match rev e with [] => False | c :: _ => is_space c <> true end).
  { destruct (rev e) as [|c t] eqn:Hr.
    - apply (f_equal (@rev char)) in Hr. rewrite rev_involutive in Hr. now subst.
    - apply Forall_rev in He. rewrite Hr in He. now inversion He. }
  destruct (drop_while_keeps (rev b) (rev e) (rev a') H2) as [b' ->].
  exists a', (rev b'). rewrite !rev_app_distr, !rev_involutive, <- app_assoc. reflexivity.
Qed.

Lemma includes_app (p x y : jsstring) : includes p (x ++ p ++ y) = true.
Proof.
  unfold includes.
  assert (H : forall i, indexOf p (x ++ p ++ y) i <> None).
  { induction x as [|c x IH]; intros i.
    - cbn [app]. destruct p as [|c p]; [destruct y; discriminate|].
      cbn [indexOf app]. change (c :: p ++ y) with ((c :: p) ++ y).
      rewrite startsWith_app. discriminate.
    - cbn [app indexOf]. destruct (startsWith p (c :: x ++ p ++ y)); [discriminate|apply IH]. }
  specialize (H 0). destruct (indexOf p (x ++ p ++ y) 0); congruence.
Qed.

Lemma findIndex_found {A} (p : A -> bool) (l : list A) :
  (exists x, In x l /\ p x = true) ->
  forall i, (i <= findIndex p l i < i + Z.of_nat (length l))%Z.
Proof.
  induction l as [|y l IH]; intros [x [Hin Hx]] i; [contradiction|].
  cbn [findIndex length]. destruct (p y) eqn:Hy; [lia|].
  destruct Hin as [-> | Hin]; [congruence|].
  specialize (IH (ex_intro _ x (conj Hin Hx)) (i + 1)%Z). lia.
Qed.

(** The cells of a line that holds [value] include one that holds it. *)
Lemma value_cell_exists (line : jsstring) :
  test value_re line = true ->
  exists h, In h (map (fun h => toLowerCase (trim h)) (split col_sep_re line))
            /\ includes (lit "value") h = true.
Proof.
  intros Ht. apply value_re_spec in Ht. destruct Ht as [pre [e [post [-> He]]]].
  destruct (value_word e He) as [Hlow [Hne Hns]].
  assert (Hsplit : exists x a b,
             In x (split col_sep_re (pre ++ e ++ post)) /\ x = a ++ e ++ b).
  { unfold split. destruct (pre ++ e ++ post) as [|c0 s0] eqn:Hline.
    - apply app_eq_nil in Hline. destruct Hline as [_ Hline].
      apply app_eq_nil in Hline. destruct Hline as [Hline _]. congruence.
    - rewrite <- Hline.
      apply (split_from_keeps col_sep_re (fun c => is_space c = true) eq_refl
               col_sep_reads_spaces e post Hne Hns). lia. }
  destruct Hsplit as [x [a [b [Hin ->]]]].
  destruct (trim_keeps a e b Hne Hns) as [a' [b' Htrim]].
  exists (toLowerCase (trim (a ++ e ++ b))). split.
  - apply in_map_iff. eauto.
  - rewrite Htrim. unfold toLowerCase. rewrite !map_app.
    fold (toLowerCase e). rewrite Hlow. apply includes_app.
Qed.

Lemma findIndex_range {A} (p : A -> bool) (l : list A) :
  forall i, (findIndex p l i = -1 \/ i <= findIndex p l i)%Z.
Proof.
  induction l as [|y l IH]; intros i; cbn [findIndex]; [now left|].
  destruct (p y); [right; lia|]. destruct (IH (i + 1)%Z); [now left|right; lia].
Qed.

Lemma findIndex_nth {A} (p : A -> bool) (l : list A) :
  forall i, (0 <= i)%Z -> (i <= findIndex p l i)%Z ->
    exists x, nth_error l (Z.to_nat (findIndex p l i - i)) = Some x /\ p x = true.
Proof.
  induction l as [|y l IH]; intros i Hi Hf; cbn [findIndex] in *; [lia|].
  destruct (p y) eqn:Hy.
  - exists y. rewrite Z.sub_diag. auto.
  - assert (Hr : (i + 1 <= findIndex p l (i + 1))%Z)
      by (destruct (findIndex_range p l (i + 1)%Z); lia).
    destruct (IH (i + 1)%Z ltac:(lia) Hr) as [x [Hnth Hx]]. exists x. split; [|exact Hx].
    replace (Z.to_nat (findIndex p l (i + 1) - i))
      with (S (Z.to_nat (findIndex p l (i + 1) - (i + 1)))) by lia.
    exact Hnth.
Qed.

(** X24: a header line always has a value column: when the table scan
    finds a header, the index that it computes names one of the cells of
    the header, so that the test [valueColIndex >= 0] of the row loop
    never fails. *)
Theorem header_has_a_value_column (pre : list jsstring) (h : jsstring) (rest : list jsstring) :
  Forall (fun l => is_header l = false) pre ->
  is_header h = true ->
  foundHeader (table_scan (pre ++ h :: rest)) = Some h
  /\ (0 <= valueColIndex (table_scan (pre ++ h :: rest))
      < Z.of_nat (length (split col_sep_re h)))%Z
  /\ 2 <= length (split col_sep_re h)
  /\ exists cell,
       nth_error (split col_sep_re h)
         (Z.to_nat (valueColIndex (table_scan (pre ++ h :: rest)))) = Some cell
       /\ includes (lit "value") (toLowerCase (trim cell)) = true.
Proof.
  intros Hpre Hh. rewrite (table_scan_header pre h rest Hpre Hh). cbv zeta.
  cbn [foundHeader valueColIndex].
  unfold is_header in Hh. apply andb_true_iff in Hh. destruct Hh as [Hval Hlen].
  apply Nat.leb_le in Hlen.
  pose proof (findIndex_found (includes (lit "value"))
                (map (fun x => toLowerCase (trim x)) (split col_sep_re h))
                (value_cell_exists h Hval) 0%Z) as Hidx.
  rewrite length_map in Hidx.
  split; [reflexivity|]. split; [lia|]. split; [exact Hlen|].
  destruct (findIndex_nth (includes (lit "value"))
              (map (fun x => toLowerCase (trim x)) (split col_sep_re h)) 0%Z)
    as [x [Hnth Hx]]; [lia|lia|].
  rewrite Z.sub_0_r, nth_error_map in Hnth.
  destruct (nth_error (split col_sep_re h) _) as [cell|]; [|discriminate].
  injection Hnth as <-. exists cell. auto.
Qed.

Lemma header_has_a_value_column_witness :
  foundHeader (table_scan ([lit "Quarterly report"] ++ lit "Item   Unit VALUE" :: []))
  = Some (lit "Item   Unit VALUE")
  /\ (0 <= valueColIndex (table_scan ([lit "Quarterly report"] ++ lit "Item   Unit VALUE" :: []))
      < Z.of_nat (length (split col_sep_re (lit "Item   Unit VALUE"))))%Z
  /\ 2 <= length (split col_sep_re (lit "Item   Unit VALUE"))
  /\ exists cell,
       nth_error (split col_sep_re (lit "Item   Unit VALUE"))
         (Z.to_nat (valueColIndex
                      (table_scan ([lit "Quarterly report"] ++ lit "Item   Unit VALUE" :: []))))
       = Some cell
       /\ includes (lit "value") (toLowerCase (trim cell)) = true.
Proof.
  apply (header_has_a_value_column [lit "Quarterly report"] (lit "Item   Unit VALUE") []).
  - repeat constructor.
  - vm_compute. reflexivity.
Defined.







(** What [prose_re] accepts: a whole line of letters, white space and
    hyphens. *)
Lemma prose_line (line : jsstring) :
  test prose_re line = true ->
  line <> []
  /\ Forall (fun c => is_alpha c || is_space c || char_eqb c (ch "-") = true) line.
Proof.
  unfold test. destruct (exec prose_re line) as [m|] eqn:Hm; [intros _|discriminate].
  apply search_from_text in Hm.
  destruct Hm as [pre [b [Hsplit [Hrun [Hreads _]]]]].
  remember (r_text m) as txt eqn:Etxt. clear Etxt.
  unfold prose_re in Hrun.
  destruct (run_seq_reads _ _ _ _ _ Hrun Hreads) as [m1 [t1 [u1 [-> [[Hpos <-] [R1 [K1 S1]]]]]]].
  apply reads_same in R1. subst t1. cbn [app] in *.
  destruct (run_seq_reads _ _ _ _ _ K1 S1) as [m2 [t2 [u2 [-> [H2 [R2 [[Hend <-] S2]]]]]]].
  apply reads_same in S2. subst u2. rewrite app_nil_r in *.
  destruct (run_class_reads _ _ _ _ _ _ _ H2 R2) as [Hall [Hlen _]].
  cbn [m_pos] in Hpos. destruct pre; [|discriminate Hpos]. cbn [app] in Hsplit.
  destruct R2 as [Hrest _]. cbn [m_rest] in Hrest. rewrite Hend in Hrest.
  apply app_inv_head in Hrest. rewrite Hrest, app_nil_r in Hsplit. subst line.
  split; [|exact Hall]. intros ->. cbn [length] in Hlen. lia.
Qed.

(** X26: a line that ends the table holds no digit: the line at which the
    row loop stops would have added nothing to the sum, and a row that
    holds a digit is never taken for the end of the table. *)
Theorem stop_line_holds_no_number (dataLine : jsstring) :
  (ends_table dataLine = true ->
   Forall (fun c => is_digit c = false) dataLine
   /\ exec number_re dataLine = None
   /\ forall idx sum, add_row idx dataLine sum = sum)
  /\ (forall d, In d dataLine -> is_digit d = true -> ends_table dataLine = false)
  /\ (forall d idx rest sum,
        In d dataLine -> is_digit d = true ->
        sum_rows idx (dataLine :: rest) sum
        = sum_rows idx rest (add_row idx dataLine sum)).
Proof.
  assert (Hno : ends_table dataLine = true -> Forall (fun c => is_digit c = false) dataLine).
  { unfold ends_table. intros H. apply andb_true_iff in H. destruct H as [H _].
    destruct (prose_line _ H) as [_ Hall].
    rewrite Forall_forall in *. intros c Hc. specialize (Hall c Hc).
    destruct (is_digit c) eqn:Hd; [exfalso|reflexivity].
    unfold is_digit, in_range in Hd. apply andb_true_iff in Hd. destruct Hd as [D1 D2].
    apply N.leb_le in D1, D2.
    unfold is_alpha, is_upper, is_lower, is_space, in_range, char_eqb in Hall.
    change (ch "-") with 45%N in Hall.
    rewrite !orb_true_iff, !andb_true_iff, !N.leb_le, !N.eqb_eq in Hall. lia. }
  assert (Hdigit : forall d, In d dataLine -> is_digit d = true -> ends_table dataLine = false).
  { intros d Hin Hd. destruct (ends_table dataLine) eqn:He; [exfalso|reflexivity].
    specialize (Hno eq_refl). rewrite Forall_forall in Hno.
    rewrite (Hno d Hin) in Hd. discriminate. }
  split; [|split].
  - intros He. specialize (Hno He). split; [exact Hno|]. split.
    + now apply number_re_needs_digit.
    + intros idx sum. now apply add_row_no_digit.
  - exact Hdigit.
  - intros d idx rest sum Hin Hd. cbn [sum_rows]. now rewrite (Hdigit d Hin Hd).
Qed.

(* ===================================================================== *)
(** * 32. The exception of scan 2d                                     *)
(* ===================================================================== *)

(** Only an object or an array has no conversion to a string. *)
Lemma to_string_none (num : number -> jsstring) (v : jsval) :
  to_string num v = None -> truthy v = true /\ typeof_object v = true.
Proof.
  destruct v as [| |[|]| | | |]; cbn [to_string]; try discriminate; auto.
Qed.

(** The scans when 2a, 2b and 2c find nothing: [pdfUrl] is what scan 2d
    gives, unless the update of [submitUrl] throws. *)
Lemma scan_submit_json (E : Env) (s : jsval) (c : jsstring) (w : world) :
  data_uri_absent c = true ->
  Forall (atob_miss E) (atobMatches c) ->
  (forall blob, findLongBase64Blob c 300 = Some blob ->
                firstn 4 (Buffer_from_base64 E blob) <> PDF_MAGIC) ->
  fst (scan_submit E s c w)
  = match json_submit E s c with
    | Some s' => Some (json_scan E c, s')
    | None => None
    end.
Proof.
  intros Hno Hmiss Hblob.
  destruct (atob_scan_all_miss E (atobMatches c) w Hmiss) as [w1 [Hs _]].
  assert (Hl : fst (long_blob_scan E c w1) = JNull).
  { destruct (findLongBase64Blob c 300) as [blob|] eqn:Hb.
    - rewrite (long_blob_scan_not_pdf E c w1 blob Hb); [reflexivity|].
      apply is_pdf_no_magic. now apply Hblob.
    - unfold long_blob_scan. now rewrite Hb. }
  unfold scan_submit. unfold bind at 1.
  rewrite (data_uri_scan_absent E c w Hno). cbn [truthy].
  unfold bind at 1. rewrite Hs. cbn [truthy].
  unfold bind. destruct (long_blob_scan E c w1) as [v3 w3]. cbn [fst] in Hl. subst v3.
  reflexivity.
Qed.

(** X27: a JSON block can end the job.  When the page names no submit
    URL, the scans before 2d find no reference, and the JSON block of the
    combined text has no truthy [submit_url] and a [url] that cannot be
    converted to a string (an object with a member [toString], or an
    array that holds one), the test of that [url] throws outside every
    inner [try]: steps 1 and 2 end there, and the job ends in its outer
    catch without a post, even when the block names a document in
    its [file], which scan 2d has taken as the reference just before. *)
Theorem json_url_without_conversion_ends_the_job (E : Env) (net : Services)
        (payload : jsval) (a : PageArtifacts) (actions : list jsstring) (w : world)
        (parsed : jsval) :
  truthy (find_submit a actions) = false ->
  truthy (direct_search a) = false ->
  data_uri_absent (fst (gather E a (snd (tick w)))) = true ->
  Forall (atob_miss E) (atobMatches (fst (gather E a (snd (tick w))))) ->
  (forall blob, findLongBase64Blob (fst (gather E a (snd (tick w)))) 300 = Some blob ->
                firstn 4 (Buffer_from_base64 E blob) <> PDF_MAGIC) ->
  extractJsonBlock (fst (gather E a (snd (tick w)))) = Some parsed ->
  truthy (get_prop (lit "submit_url") parsed) = false ->
  to_string (Number_toString E) (get_prop (lit "url") parsed) = None ->
  fst (find_pdf_submit E a (find_submit a actions) (snd (tick w))) = None
  /\ fst (run_job E net payload a actions w) = ([], Caught)
  /\ fst (fst (find_pdf E a (snd (tick w)))) = json_scan E (fst (gather E a (snd (tick w)))).
Proof.
  intros Hs Hd Hno Hmiss Hblob Hparsed Hsu Hurl.
  destruct (to_string_none _ _ Hurl) as [Hut _].
  assert (Hj : json_submit E (find_submit a actions) (fst (gather E a (snd (tick w)))) = None).
  { unfold json_submit. rewrite Hparsed.
    replace (truthy parsed) with true
      by (destruct parsed; cbn [get_prop truthy] in *; congruence).
    rewrite Hs, Hsu. cbn [negb andb]. cbv zeta. rewrite Hs. cbn [negb].
    unfold truthy_and_test, test_val. now rewrite Hut, Hurl. }
  assert (Hf : fst (find_pdf_submit E a (find_submit a actions) (snd (tick w))) = None).
  { unfold find_pdf_submit. rewrite Hd. unfold bind.
    destruct (gather E a (snd (tick w))) as [c w1]. cbn [fst] in *.
    now rewrite (scan_submit_json E _ c w1 Hno Hmiss Hblob), Hj. }
  split; [exact Hf|]. split.
  - rewrite run_job_resolved. cbv zeta. now rewrite Hf.
  - unfold find_pdf. rewrite Hd. unfold bind.
    destruct (gather E a (snd (tick w))) as [c w1]. cbn [fst] in *.
    destruct (atob_scan_all_miss E (atobMatches c) w1 Hmiss) as [w2 [Hscan _]].
    assert (Hl : fst (long_blob_scan E c w2) = JNull).
    { destruct (findLongBase64Blob c 300) as [blob|] eqn:Hb.
      - rewrite (long_blob_scan_not_pdf E c w2 blob Hb); [reflexivity|].
        apply is_pdf_no_magic. now apply Hblob.
      - unfold long_blob_scan. now rewrite Hb. }
    unfold scan. unfold bind at 1.
    rewrite (data_uri_scan_absent E c w1 Hno). cbn [truthy].
    unfold bind at 1. rewrite Hscan. cbn [truthy].
    unfold bind. destruct (long_blob_scan E c w2) as [v3 w3]. cbn [fst] in Hl. subst v3.
    reflexivity.
Qed.

Lemma json_url_without_conversion_ends_the_job_witness :
  fst (find_pdf_submit demo_env no_conversion_page (find_submit no_conversion_page [])
         (snd (tick empty_world))) = None
  /\ fst (run_job demo_env demo_net demo_payload no_conversion_page [] empty_world)
     = ([], Caught)
  /\ fst (fst (find_pdf demo_env no_conversion_page (snd (tick empty_world))))
     = json_scan demo_env (fst (gather demo_env no_conversion_page (snd (tick empty_world)))).
Proof.
  apply (json_url_without_conversion_ends_the_job demo_env demo_net demo_payload
           no_conversion_page [] empty_world
           (JObj [(lit "url", JObj [(lit "toString", JNum (decimal_to_number false 1 0))]);
                  (lit "file", JStr (lit "http://quiz.example/doc.pdf"))])).
  - vm_compute. reflexivity.
  - vm_compute. reflexivity.
  - vm_compute. reflexivity.
  - replace (atobMatches (fst (gather demo_env no_conversion_page (snd (tick empty_world)))))
      with (@nil jsstring) by (vm_compute; reflexivity).
    constructor.
  - intros blob Hb. vm_compute in Hb. discriminate Hb.
  - vm_compute. reflexivity.
  - vm_compute. reflexivity.
  - vm_compute. reflexivity.
Defined.

(** On [no_conversion_page] scan 2d takes the document that [file] names,
    and the job is ended before it requests it. *)
Example no_conversion_page_is_caught :
  resolve demo_env no_conversion_page (snd (tick empty_world))
  = RemoteUrl (lit "http://quiz.example/doc.pdf")
  /\ fst (run_job demo_env demo_net demo_payload no_conversion_page [] empty_world)
     = ([], Caught)
  /\ fst (run_job demo_env demo_net demo_payload no_conversion_page demo_actions empty_world)
     = ([], Returned).
Proof. repeat split; vm_compute; reflexivity. Qed.
